(** * OpenPlaud: the recording-ingestion core, embedded and verified

    The development follows these source files of the repository:
    - the Telegram bot, imported by the routes as [@/lib/telegram/bot]
      (third file of [src/unnamed/part_001]): module [Bot], the long-poll
      loop [pollTelegramUpdates] with [tg] and [downloadFile];
    - [src/app/api/telegram/poll/route.ts]: module [PollRoute], the trigger;
    - [src/app/api/recordings/upload/route.ts]: module [UploadRoute];
    - the export route (first file of [src/unnamed/part_000]): modules
      [ExportRoute], its [srt] and [vtt] cases, and [ExportRequest], the
      choice of the format;
    - the storage route (second file of [src/unnamed/part_000]): module
      [StorageRoute];
    - the workstation component (second file of [src/unnamed/part_001]):
      module [Workstation], what is played next;
    - [docker-entrypoint.sh]: module [Entrypoint].

    JavaScript values are modelled as follows.  The numbers that the code
    handles are integers (identifiers, seconds, milliseconds, sizes): [Z],
    with [NaN] added where a [Date] can produce it.  Strings are [string],
    holding the UTF-8 encoding of the text; the code compares them with
    ASCII constants and with each other, and [trim] strips the Unicode
    white space of ECMAScript.  Promises are run to
    completion one after the other (the handlers are single threaded); a
    rejected promise or a thrown exception is the [Throw] result of the
    monad [M], and [try]/[catch] is [try_catch].  What the outside world
    answers to a call (the network, the database, the storage backend, the
    clock, the random generator) is an input of the model. *)

From Stdlib Require Import ZArith Lia Ascii String DecimalString.
From Stdlib Require DecimalFacts DecimalPos DecimalN.
From stdpp Require Import base option list strings gmap.

Local Open Scope Z_scope.

(** ** JavaScript primitives used by the source *)

Module Js.

(** A JavaScript number as far as the code needs it: an integer or NaN. *)
Inductive Num : Type :=
| Int (z : Z)
| NaN.

(** [Number.prototype.toString] on integers (below 10^21 in absolute value,
    where JavaScript still prints all digits): decimal, with a minus sign. *)
Definition toString (n : Z) : string :=
  NilZero.string_of_int (Z.to_int n).

Definition numToString (n : Num) : string :=
  match n with
  | Int z => toString z
  | NaN => "NaN"
  end.

(** [a + b] where the right operand is an integer. *)
Definition add (a : Num) (b : Z) : Num :=
  match a with
  | Int z => Int (z + b)
  | NaN => NaN
  end.

(** The first [n] characters of [fill] repeated as often as needed
    (the filler that [padStart] builds); [k] bounds the number of copies. *)
Fixpoint filler (k : nat) (fill : string) (n : nat) : string :=
  match k with
  | O => ""
  | S k' =>
      if (n <=? String.length fill)%nat then String.substring 0 n fill
      else fill +:+ filler k' fill (n - String.length fill)
  end.

(** [s.padStart(target, fill)] *)
Definition padStart (target : nat) (fill : string) (s : string) : string :=
  if (target <=? String.length s)%nat then s
  else if String.eqb fill "" then s
  else filler (target - String.length s) fill (target - String.length s) +:+ s.

(** [s.startsWith(p)] *)
Definition startsWith (s p : string) : bool := String.prefix p s.

(** [s.endsWith(e)] *)
Definition endsWith (s e : string) : bool :=
  let ls := String.length s in
  let le := String.length e in
  if (le <=? ls)%nat then String.eqb (String.substring (ls - le) le s) e
  else false.

(** [toLowerCase] on the ASCII letters.  No character outside ASCII
    lowercases to one of the characters of the extensions that the upload
    route compares with, so the verdict of [endsWith] is the source's. *)
Definition lowerAscii (c : ascii) : ascii :=
  let n := nat_of_ascii c in
  if ((65 <=? n) && (n <=? 90))%nat then ascii_of_nat (n + 32) else c.

Fixpoint toLowerCase (s : string) : string :=
  match s with
  | EmptyString => EmptyString
  | String c r => String (lowerAscii c) (toLowerCase r)
  end.

(** [s.split(",")]: the pieces between the commas; never empty. *)
Fixpoint splitComma (s : string) : list string :=
  match s with
  | EmptyString => [EmptyString]
  | String c r =>
      if Ascii.eqb c ","%char then EmptyString :: splitComma r
      else match splitComma r with
           | [] => [String c EmptyString]
           | p :: ps => String c p :: ps
           end
  end.

(** [s.trim()] strips the white space and the line terminators of
    ECMAScript from both ends: TAB, LF, VT, FF, CR and SPACE, then U+00A0,
    U+1680, U+2000 to U+200A, U+2028, U+2029, U+202F, U+205F, U+3000 and
    U+FEFF.  A string holds the UTF-8 encoding of its text, so each of
    these characters is the sequence of one, two or three bytes listed
    here. *)
Definition utf8 (bytes : list Z) : string :=
  fold_right (fun b s => String (ascii_of_nat (Z.to_nat b)) s) EmptyString bytes.

Definition whiteSpace : list string :=
  [ utf8 [9]; utf8 [10]; utf8 [11]; utf8 [12]; utf8 [13]; utf8 [32];
    utf8 [194; 160];                                     (* U+00A0 *)
    utf8 [225; 154; 128];                                (* U+1680 *)
    utf8 [226; 128; 128]; utf8 [226; 128; 129]; utf8 [226; 128; 130];
    utf8 [226; 128; 131]; utf8 [226; 128; 132]; utf8 [226; 128; 133];
    utf8 [226; 128; 134]; utf8 [226; 128; 135]; utf8 [226; 128; 136];
    utf8 [226; 128; 137]; utf8 [226; 128; 138];          (* U+2000 to U+200A *)
    utf8 [226; 128; 168]; utf8 [226; 128; 169];          (* U+2028, U+2029 *)
    utf8 [226; 128; 175];                                (* U+202F *)
    utf8 [226; 129; 159];                                (* U+205F *)
    utf8 [227; 128; 128];                                (* U+3000 *)
    utf8 [239; 187; 191] ].                              (* U+FEFF *)

Definition isWhiteSpace (s : string) : bool :=
  existsb (String.eqb s) whiteSpace.

(** The string without the white-space characters it begins with. *)
Fixpoint trimStart (s : string) : string :=
  match s with
  | EmptyString => EmptyString
  | String a r =>
      if isWhiteSpace (String a EmptyString) then trimStart r
      else
        match r with
        | EmptyString => s
        | String b r2 =>
            if isWhiteSpace (String a (String b EmptyString)) then trimStart r2
            else
              match r2 with
              | EmptyString => s
              | String c r3 =>
                  if isWhiteSpace (String a (String b (String c EmptyString)))
                  then trimStart r3
                  else s
              end
        end
  end.

(** The string without the white-space characters it ends with: what is
    left of [String c r], once [r] has lost them, is dropped if it is one
    such character. *)
Fixpoint trimEnd (s : string) : string :=
  match s with
  | EmptyString => EmptyString
  | String c r =>
      let kept := String c (trimEnd r) in
      if isWhiteSpace kept then EmptyString else kept
  end.

Definition trim (s : string) : string := trimEnd (trimStart s).

(** Truthiness of a possibly missing string or number: [x || d]. *)
Definition strOr (x : option string) (d : string) : string :=
  match x with
  | Some s => if String.eqb s "" then d else s
  | None => d
  end.

Definition numOr (x : option Z) (d : Z) : Z :=
  match x with
  | Some n => if n =? 0 then d else n
  | None => d
  end.

(** *** Date *)

(** A [Date] object holds a time value in milliseconds since the epoch,
    or NaN (an invalid date). *)
Inductive Date : Type :=
| ValidDate (t : Z)
| InvalidDate.

Definition maxTime : Z := 8640000000000000.

(** [new Date(ms)]: TimeClip. *)
Definition newDate (ms : Z) : Date :=
  if (Z.abs ms <=? maxTime) then ValidDate ms else InvalidDate.

(** [new Date(x)] for a number that may be NaN. *)
Definition newDateNum (x : Num) : Date :=
  match x with
  | Int ms => newDate ms
  | NaN => InvalidDate
  end.

(** [new Date(d)] for a Date object [d]: a copy. *)
Definition copyDate (d : Date) : Date := d.

Definition getTime (d : Date) : Num :=
  match d with
  | ValidDate t => Int t
  | InvalidDate => NaN
  end.

Definition onTime (f : Z -> Z) (d : Date) : Num :=
  match d with
  | ValidDate t => Int (f t)
  | InvalidDate => NaN
  end.

(** HourFromTime, MinFromTime, SecFromTime and msFromTime of ECMAScript:
    floor division and a non-negative remainder, as [Z.div] and [Z.modulo]
    with a positive divisor. *)
Definition getUTCHours : Date -> Num := onTime (fun t => (t / 3600000) mod 24).
Definition getUTCMinutes : Date -> Num := onTime (fun t => (t / 60000) mod 60).
Definition getUTCSeconds : Date -> Num := onTime (fun t => (t / 1000) mod 60).
Definition getUTCMilliseconds : Date -> Num := onTime (fun t => t mod 1000).

End Js.

(** ** Exceptions and the state-and-exception monad *)

Module Eff.

(** What the code can see thrown (or a promise rejected with). *)
Inductive Exn : Type :=
| NetworkError      (* fetch rejected *)
| SyntaxError       (* response.json() on a body that is not JSON *)
| TypeError         (* property read on undefined *)
| GetFileFailed     (* thrown by downloadFile when the reply is not ok *)
| StorageFailure    (* the storage backend failed *)
| DbFailure         (* a query failed for a reason other than a constraint *)
| UniqueViolation   (* a uniqueness constraint of the table was hit *)
| AuthFailure.      (* the session lookup failed *)

Inductive Result (A : Type) : Type :=
| Ok (a : A)
| Throw (e : Exn).
Arguments Ok {A} a.
Arguments Throw {A} e.

(** A computation over a state [S]: the state survives an exception. *)
Definition M (S A : Type) : Type := S -> Result A * S.

Definition ret {S A} (a : A) : M S A := fun s => (Ok a, s).

Definition throw {S A} (e : Exn) : M S A := fun s => (Throw e, s).

Definition bind {S A B} (m : M S A) (k : A -> M S B) : M S B :=
  fun s =>
    match m s with
    | (Ok a, s') => k a s'
    | (Throw e, s') => (Throw e, s')
    end.

(** [try { m } catch (e) { h e }] *)
Definition try_catch {S A} (m : M S A) (h : Exn -> M S A) : M S A :=
  fun s =>
    match m s with
    | (Ok a, s') => (Ok a, s')
    | (Throw e, s') => h e s'
    end.

(** The result of an external call, decided by the environment. *)
Definition await {S A} (r : Result A) : M S A := fun s => (r, s).

Definition get {S} : M S S := fun s => (Ok s, s).
Definition modify {S} (f : S -> S) : M S unit := fun s => (Ok tt, f s).

(** Run a computation on a part of the state. *)
Definition zoom {S T A} (proj : S -> T) (upd : T -> S -> S) (m : M T A) : M S A :=
  fun s => let '(r, t) := m (proj s) in (r, upd t s).

Definition exec {S A} (m : M S A) (s : S) : S := snd (m s).
Definition outcome {S A} (m : M S A) (s : S) : Result A := fst (m s).

End Eff.

Export Eff.

Declare Scope js_scope.
Delimit Scope js_scope with js.
Notation "x <- m ;; k" := (bind m (fun x => k))
  (at level 100, m at next level, right associativity) : js_scope.
Notation "m ;; k" := (bind m (fun _ => k))
  (at level 100, right associativity) : js_scope.
Open Scope js_scope.

(** ** The persistent world: database tables, blob storage, observable trace *)

Module Store.

Definition Buffer : Type := list Byte.byte.

(** A row of the [users] table; the code reads its [id] only. *)
Record User : Type := { user_id : string }.

(** A row of the [recordings] table, with the columns the code writes. *)
Record Recording : Type := {
  id : string;
  userId : string;
  deviceSn : string;
  plaudFileId : string;
  filename : string;
  duration : Z;
  startTime : Js.Date;
  endTime : Js.Date;
  filesize : Z;
  fileMd5 : string;
  storageType : string;
  storagePath : string;
  downloadedAt : Js.Date;
  plaudVersion : string
}.

(** A row of the [transcriptions] table, with the columns the code reads. *)
Record Transcription : Type := {
  recordingId : string;
  text : string
}.

Record Blob : Type := { bytes : Buffer; contentType : string }.

Inductive LogLine : Type :=
| StartingPolling
| UnauthorizedUser (sender : Z)
| ReceivedAudio (sender : Z)
| RecordingSaved (rid : string)
| ErrorProcessingAudio (e : Exn)
| PollingError (e : Exn)
| ErrorUploading (e : Exn).

(** What the process does that can be observed from outside, in order. *)
Inductive Event : Type :=
| ConsoleLog (l : LogLine)
| ConsoleError (l : LogLine)
| Sleep (ms : Z)
| TgGetUpdates (offset timeout : Z)
| TgGetFile (file_id : string)
| TgSendMessage (chat_id : Z) (reply_to_message_id : Z)
| FetchFile (file_path : string).

Record World : Type := {
  users : list User;
  recordings : list Recording;
  blobs : gmap string Blob;
  trace : list Event
}.

Definition with_recordings (rs : list Recording) (w : World) : World :=
  {| users := users w; recordings := rs; blobs := blobs w; trace := trace w |}.
Definition with_blobs (bs : gmap string Blob) (w : World) : World :=
  {| users := users w; recordings := recordings w; blobs := bs; trace := trace w |}.
Definition with_trace (t : list Event) (w : World) : World :=
  {| users := users w; recordings := recordings w; blobs := blobs w; trace := t |}.

Definition emit (e : Event) : M World unit :=
  modify (fun w => with_trace (trace w ++ [e]) w).

(** [db.select().from(users).limit(1)]: the query fails when the
    environment says so, else it returns the first row if there is one. *)
Definition selectFirstUser (query : Result unit) : M World (option User) :=
  _ <- await query ;;
  w <- get ;;
  ret (head (users w)).

Definition same_id (a b : Recording) : bool :=
  String.eqb (id a) (id b).

Definition same_source (a b : Recording) : bool :=
  String.eqb (userId a) (userId b) && String.eqb (plaudFileId a) (plaudFileId b).

(** Modelled from the spec: the schema of the [recordings] table
    ([db/schema]) is not among the sources.  Section 3 of the spec gives a
    Recording an identity and states that the pair (owning user,
    source-system file identifier) is unique, enforced by the persistence
    layer: an insert that would break either raises a uniqueness violation
    and leaves the table as it was.  [query] is the environment's verdict
    on the query itself (connection lost and the like). *)
Definition insertRecording (query : Result unit) (r : Recording) : M World unit :=
  _ <- await query ;;
  w <- get ;;
  if existsb (same_id r) (recordings w) then throw UniqueViolation
  else if existsb (same_source r) (recordings w) then throw UniqueViolation
  else modify (with_recordings (recordings w ++ [r])).

(** Modelled from the spec: the storage providers ([lib/storage]) are not
    among the sources.  Section 4.1: [upload(key, bytes, contentType)]
    returns a location and makes the blob retrievable under the key; a
    failure of the backend propagates and no partial write is visible.
    [backend] is the environment's verdict: the location, or a failure. *)
Definition uploadFile (backend : Result string) (key : string) (buf : Buffer)
    (ctype : string) : M World string :=
  location <- await backend ;;
  modify (fun w => with_blobs (<[key := {| bytes := buf; contentType := ctype |}]> (blobs w)) w) ;;
  ret location.

End Store.

Export Store.

(** The configuration read from the process environment ([lib/env]). *)
Record Config : Type := {
  TELEGRAM_BOT_TOKEN : option string;
  TELEGRAM_ALLOWED_USERS : option string;
  DEFAULT_STORAGE_TYPE : option string
}.

(** [!!s] for an optional string: present and not empty. *)
Definition truthy (s : option string) : bool :=
  match s with
  | Some x => negb (String.eqb x "")
  | None => false
  end.

(** ** lib/telegram/bot.ts *)

Module Bot.

(** *** The Telegram payloads ([interface TelegramUpdate]) *)

Record Sender : Type := {
  sender_id : Z;
  username : option string
}.

Record Voice : Type := {
  voice_file_id : string;
  voice_duration : Z;
  voice_mime_type : option string;
  voice_file_size : option Z
}.

Record Audio : Type := {
  audio_file_id : string;
  audio_duration : Z;
  audio_mime_type : option string;
  audio_file_size : option Z;
  audio_file_name : option string
}.

Record Message : Type := {
  message_id : Z;
  from : option Sender;
  chat_id : Z;
  date : Z;
  text : option string;
  voice : option Voice;
  audio : option Audio
}.

Record TelegramUpdate : Type := {
  update_id : Z;
  message : option Message
}.

(** The value of [message.voice || message.audio], read through the fields
    the loop uses; a voice object has no [file_name]. *)
Record Payload : Type := {
  file_id : string;
  duration : Z;
  mime_type : option string;
  file_size : option Z;
  file_name : option string
}.

Definition ofVoice (v : Voice) : Payload :=
  {| file_id := voice_file_id v; duration := voice_duration v;
     mime_type := voice_mime_type v; file_size := voice_file_size v;
     file_name := None |}.

Definition ofAudio (a : Audio) : Payload :=
  {| file_id := audio_file_id a; duration := audio_duration a;
     mime_type := audio_mime_type a; file_size := audio_file_size a;
     file_name := audio_file_name a |}.

Definition voiceOrAudio (m : Message) : option Payload :=
  match voice m with
  | Some v => Some (ofVoice v)
  | None => ofAudio <$> audio m
  end.

(** *** The Bot API as the code sees it *)

(** The JSON body of a Bot API reply: the [ok] flag and, when present, the
    [result] member. *)
Record Reply (R : Type) : Type := {
  ok : bool;
  result : option R
}.
Arguments ok {R} r.
Arguments result {R} r.

Inductive Body (R : Type) : Type :=
| NotJson
| Json (r : Reply R).
Arguments NotJson {R}.
Arguments Json {R} r.

(** What [fetch] comes back with: a rejection (no HTTP exchange took place)
    or an HTTP response with its status and body. *)
Inductive Fetched (R : Type) : Type :=
| Rejected
| Responded (status : Z) (body : Body R).
Arguments Rejected {R}.
Arguments Responded {R} status body.

(** What the environment answers to the external calls made while one update
    is processed, in the order of the calls. *)
Record Env : Type := {
  users_query : Result unit;            (* db.select().from(users).limit(1) *)
  getFile_reply : Fetched string;       (* tg('getFile'): the file_path *)
  file_fetch : Result Buffer;           (* fetch(fileUrl) and arrayBuffer(): the body of
                                           the response, whatever its status *)
  storage_provider : Result unit;       (* createUserStorageProvider *)
  random_id : string;                   (* nanoid() *)
  storage_backend : Result string;      (* uploadFile: the location *)
  insert_query : Result unit;           (* db.insert(recordings) *)
  now : Z;                              (* new Date() *)
  sendMessage_reply : Fetched unit      (* tg('sendMessage') *)
}.

(** An update as delivered, with the environment of its processing. *)
Record Delivery : Type := {
  upd : TelegramUpdate;
  env : Env
}.

(** The state of [pollTelegramUpdates]: its local variable [lastUpdateId]
    (the cursor) and the world. *)
Record State : Type := {
  lastUpdateId : Z;
  world : World
}.

Definition inWorld {A} (m : M World A) : M State A :=
  zoom world (fun w s => {| lastUpdateId := lastUpdateId s; world := w |}) m.

Definition setLastUpdateId (n : Z) : M State unit :=
  modify (fun s => {| lastUpdateId := n; world := world s |}).

Definition consoleLog (l : LogLine) : M State unit := inWorld (emit (ConsoleLog l)).
Definition consoleError (l : LogLine) : M State unit := inWorld (emit (ConsoleError l)).

(** [await new Promise(resolve => setTimeout(resolve, ms))] *)
Definition sleep (ms : Z) : M State unit := inWorld (emit (Sleep ms)).

(** [tg(method, body)]: the request goes out, and whatever JSON comes back
    is returned; the HTTP status is not looked at. *)
Definition received {R} (fetched : Fetched R) : M State (Reply R) :=
  match fetched with
  | Rejected => throw NetworkError
  | Responded _ NotJson => throw SyntaxError
  | Responded _ (Json r) => ret r
  end.

Definition tg {R} (request : Event) (fetched : Fetched R) : M State (Reply R) :=
  inWorld (emit request) ;;
  received fetched.

(** [downloadFile(fileId)] *)
Definition downloadFile (e : Env) (fileId : string) : M State Buffer :=
  fileInfo <- tg (TgGetFile fileId) (getFile_reply e) ;;
  if negb (ok fileInfo) then throw GetFileFailed
  else
    match result fileInfo with
    | None => throw TypeError
    | Some file_path =>
        inWorld (emit (FetchFile file_path)) ;;
        await (file_fetch e)
    end.

(** [env.TELEGRAM_ALLOWED_USERS?.split(',').map(s => s.trim()) || []] *)
Definition allowedUsers (cfg : Config) : list string :=
  match TELEGRAM_ALLOWED_USERS cfg with
  | Some s => map Js.trim (Js.splitComma s)
  | None => []
  end.

(** [allowedUsers.includes(x)] *)
Definition includes (l : list string) (x : string) : bool :=
  existsb (String.eqb x) l.

(** The test of the authorization filter:
    [allowedUsers.length > 0 && !allowedUsers.includes(message.from.id.toString())] *)
Definition unauthorized (cfg : Config) (sender : Sender) : bool :=
  (0 <? length (allowedUsers cfg))%nat
  && negb (includes (allowedUsers cfg) (Js.toString (sender_id sender))).

(** The constants of the inner [try]: [timestamp], [filename], [storageKey],
    and the values given to [db.insert(recordings)]. *)
Definition timestampOf (msg : Message) : Js.Date :=
  Js.newDate (date msg * 1000).

Definition filenameOf (e : Env) (a : Payload) : string :=
  Js.strOr (file_name a) ("telegram-" +:+ random_id e +:+ ".ogg").

Definition storageKeyOf (e : Env) (msg : Message) (a : Payload) (targetUser : User) : string :=
  "telegram/" +:+ user_id targetUser +:+ "/"
    +:+ Js.numToString (Js.getTime (timestampOf msg)) +:+ "-" +:+ filenameOf e a.

Definition recordingValues (cfg : Config) (e : Env) (msg : Message) (a : Payload)
    (targetUser : User) (buffer : Buffer) (storagePath : string) : Recording :=
  {| id := random_id e;
     userId := user_id targetUser;
     deviceSn := "TELEGRAM";
     plaudFileId := "tg-" +:+ file_id a;
     Store.filename := filenameOf e a;
     Store.duration := (if duration a =? 0 then 0 else duration a) * 1000;
     startTime := timestampOf msg;
     endTime := timestampOf msg;
     filesize := Js.numOr (file_size a) (Z.of_nat (length buffer));
     fileMd5 := "";
     storageType := Js.strOr (DEFAULT_STORAGE_TYPE cfg) "local";
     storagePath := storagePath;
     downloadedAt := Js.newDate (now e);
     plaudVersion := "1.0.0" |}.

(** What follows the insert: the log line and the acknowledgment. *)
Definition acknowledge (e : Env) (msg : Message) : M State unit :=
  consoleLog (RecordingSaved (random_id e)) ;;
  _ <- tg (TgSendMessage (chat_id msg) (message_id msg)) (sendMessage_reply e) ;;
  ret tt.

(** The body of the inner [try] for an accepted payload. *)
Definition importAudio (cfg : Config) (e : Env) (msg : Message) (a : Payload)
    (targetUser : User) : M State unit :=
  buffer <- downloadFile e (file_id a) ;;
  _ <- await (storage_provider e) ;;
  storagePath <- inWorld (uploadFile (storage_backend e) (storageKeyOf e msg a targetUser)
                            buffer (Js.strOr (mime_type a) "audio/ogg")) ;;
  inWorld (insertRecording (insert_query e)
             (recordingValues cfg e msg a targetUser buffer storagePath)) ;;
  acknowledge e msg.

(** The body of the [for] loop after its first statement; [continue] is an
    early [ret tt]. *)
Definition handleMessage (cfg : Config) (d : Delivery) : M State unit :=
  match message (upd d) with
  | None => ret tt
  | Some msg =>
      match from msg with
      | None => ret tt
      | Some sender =>
          if unauthorized cfg sender
          then consoleLog (UnauthorizedUser (sender_id sender))
          else
            match voiceOrAudio msg with
            | None => ret tt
            | Some a =>
                consoleLog (ReceivedAudio (sender_id sender)) ;;
                first <- inWorld (selectFirstUser (users_query (env d))) ;;
                match first with
                | None => ret tt
                | Some targetUser =>
                    try_catch (importAudio cfg (env d) msg a targetUser)
                      (fun err => consoleError (ErrorProcessingAudio err))
                end
            end
      end
  end.

(** One turn of the [for] loop: [lastUpdateId = update.update_id], then the
    rest of the body. *)
Definition processUpdate (cfg : Config) (d : Delivery) : M State unit :=
  setLastUpdateId (update_id (upd d)) ;;
  handleMessage cfg d.

(** [for (const update of result.result) { ... }] *)
Fixpoint forEach (cfg : Config) (ds : list Delivery) : M State unit :=
  match ds with
  | [] => ret tt
  | d :: rest => processUpdate cfg d ;; forEach cfg rest
  end.

(** What the body of the outer [try] does with the reply to [getUpdates]. *)
Definition handleReply (cfg : Config) (res : Reply (list Delivery)) : M State unit :=
  if ok res then
    match result res with
    | None => throw TypeError
    | Some updates =>
        if (0 <? length updates)%nat then forEach cfg updates else ret tt
    end
  else ret tt.

(** The outer [catch]: log, then wait five seconds. *)
Definition backoff (error : Exn) : M State unit :=
  consoleError (PollingError error) ;;
  sleep 5000.

(** One turn of the [while (true)] loop, given what the long poll fetches. *)
Definition pollOnce (cfg : Config) (fetched : Fetched (list Delivery)) : M State unit :=
  try_catch
    (s <- get ;;
     res <- tg (TgGetUpdates (lastUpdateId s + 1) 30) fetched ;;
     handleReply cfg res)
    backoff.

(** The loop never ends by itself: it is run for as long as the environment
    answers, one entry of [script] per long poll; when the script is used up
    the loop is waiting in the next [getUpdates]. *)
Fixpoint pollLoop (cfg : Config) (script : list (Fetched (list Delivery))) : M State unit :=
  match script with
  | [] => ret tt
  | fetched :: rest => pollOnce cfg fetched ;; pollLoop cfg rest
  end.

(** [pollTelegramUpdates()], started in world [w]. *)
Definition pollTelegramUpdates (cfg : Config)
    (script : list (Fetched (list Delivery))) (w : World) : Result unit * State :=
  if negb (truthy (TELEGRAM_BOT_TOKEN cfg)) then
    (Ok tt, {| lastUpdateId := 0; world := w |})
  else
    (consoleLog StartingPolling ;; pollLoop cfg script)
      {| lastUpdateId := 0; world := w |}.

End Bot.

(** ** app/api/telegram/poll/route.ts *)

Module PollRoute.

(** The module-level flag [isPollingStarted], and how many times
    [pollTelegramUpdates()] has been called by the route. *)
Record Process : Type := {
  isPollingStarted : bool;
  loopsStarted : nat
}.

Definition initial : Process :=
  {| isPollingStarted := false; loopsStarted := 0 |}.

(** [GET()]: the [status] member of the JSON reply, and the new state.  No
    [await] stands between the test of the flag and its assignment. *)
Definition GET (cfg : Config) (p : Process) : string * Process :=
  if negb (truthy (TELEGRAM_BOT_TOKEN cfg)) then
    ("Telegram bot not configured", p)
  else if isPollingStarted p then
    ("Polling already active", p)
  else
    ("Telegram polling started",
     {| isPollingStarted := true; loopsStarted := S (loopsStarted p) |}).

(** The [.catch] callback on the promise of [pollTelegramUpdates()]. *)
Definition onRejected (p : Process) : Process :=
  {| isPollingStarted := false; loopsStarted := loopsStarted p |}.

(** What can happen in the process: a GET request, or the background loop
    moving on (started in world [w], it has been answered [script] so far);
    if its promise is rejected the callback runs. *)
Inductive Step : Type :=
| Request
| Background (script : list (Bot.Fetched (list Bot.Delivery))) (w : World).

Definition step (cfg : Config) (st : Step) (p : Process) : list string * Process :=
  match st with
  | Request => let '(status, p') := GET cfg p in ([status], p')
  | Background script w =>
      if (0 <? loopsStarted p)%nat then
        match fst (Bot.pollTelegramUpdates cfg script w) with
        | Ok _ => ([], p)
        | Throw _ => ([], onRejected p)
        end
      else ([], p)
  end.

(** The replies given, in order, and the final state. *)
Fixpoint run (cfg : Config) (steps : list Step) (p : Process) : list string * Process :=
  match steps with
  | [] => ([], p)
  | st :: rest =>
      let '(out, p') := step cfg st p in
      let '(outs, p'') := run cfg rest p' in
      (out ++ outs, p'')
  end.

End PollRoute.

(** ** app/api/recordings/upload/route.ts *)

Module UploadRoute.

Record File : Type := {
  name : string;
  type : string;
  size : Z;
  content : Buffer
}.

(** The value of [formData.get("file")]: a file, a string, or null. *)
Inductive FormValue : Type :=
| IsFile (f : File)
| IsString (s : string)
| IsNull.

Record Request : Type := {
  session : Result (option User);     (* auth.api.getSession, then session?.user *)
  formData : Result FormValue         (* request.formData(), then get("file") *)
}.

(** The answers of the environment during one request. *)
Record Env : Type := {
  storage_provider : Result unit;     (* createUserStorageProvider *)
  random_id : string;                 (* nanoid() *)
  now : Z;                            (* new Date() *)
  storage_backend : Result string;    (* uploadFile: the location *)
  insert_query : Result unit          (* db.insert(recordings) *)
}.

Inductive Payload : Type :=
| Error (error : string)
| Success (recording : Recording).

Record Response : Type := {
  status : Z;
  payload : Payload
}.

Definition validExtensions : list string :=
  [".mp3"; ".wav"; ".m4a"; ".aac"; ".ogg"; ".flac"].

(** [validExtensions.some(ext => file.name.toLowerCase().endsWith(ext))] *)
Definition hasValidExtension (file : File) : bool :=
  existsb (fun ext => Js.endsWith (Js.toLowerCase (name file)) ext) validExtensions.

Definition consoleError (l : LogLine) : M World unit := emit (ConsoleError l).

(** The constants of the handler: [storageKey] and the values given to
    [db.insert(recordings)]; [duration] is the constant [0]. *)
Definition storageKeyOf (e : Env) (user : User) (file : File) : string :=
  "manual/" +:+ user_id user +:+ "/"
    +:+ Js.numToString (Js.getTime (Js.newDate (now e))) +:+ "-" +:+ name file.

Definition recordingValues (cfg : Config) (e : Env) (user : User) (file : File)
    (storagePath : string) : Recording :=
  let recordingId := random_id e in
  let timestamp := Js.newDate (now e) in
  let duration := 0 in
  {| id := recordingId;
     userId := user_id user;
     deviceSn := "MANUAL";
     plaudFileId := "manual-" +:+ recordingId;
     filename := name file;
     Store.duration := duration;
     startTime := timestamp;
     endTime := timestamp;
     filesize := size file;
     fileMd5 := "";
     storageType := Js.strOr (DEFAULT_STORAGE_TYPE cfg) "local";
     storagePath := storagePath;
     downloadedAt := timestamp;
     plaudVersion := "1.0.0" |}.

(** The part of the handler that follows the validation of the file type. *)
Definition store (cfg : Config) (e : Env) (user : User) (file : File) : M World Response :=
  let buffer := content file in
  _ <- await (storage_provider e) ;;
  storagePath <- uploadFile (storage_backend e) (storageKeyOf e user file) buffer
                   (Js.strOr (Some (type file)) "audio/mpeg") ;;
  let newRecording := recordingValues cfg e user file storagePath in
  insertRecording (insert_query e) newRecording ;;
  ret {| status := 200; payload := Success newRecording |}.

(** [POST(request)] *)
Definition POST (cfg : Config) (req : Request) (e : Env) : M World Response :=
  try_catch
    (user <- await (session req) ;;
     match user with
     | None => ret {| status := 401; payload := Error "Unauthorized" |}
     | Some user =>
         file <- await (formData req) ;;
         match file with
         | IsNull => ret {| status := 400; payload := Error "No file uploaded" |}
         | IsString s =>
             if String.eqb s "" then
               ret {| status := 400; payload := Error "No file uploaded" |}
             else throw TypeError
         | IsFile file =>
             if negb (Js.startsWith (type file) "audio/") && negb (hasValidExtension file)
             then ret {| status := 400; payload := Error "Only audio files are allowed" |}
             else store cfg e user file
         end
     end)
    (fun error =>
       consoleError (ErrorUploading error) ;;
       ret {| status := 500; payload := Error "Failed to upload recording" |}).

End UploadRoute.

(** ** app/api/export/route.ts: the [srt] and [vtt] cases *)

Module ExportRoute.

Definition nl : string := String (ascii_of_nat 10) EmptyString.

(** [new Map(userTranscriptions.map(t => [t.recordingId, t]))]: a later
    entry replaces an earlier one with the same key. *)
Definition transcriptionMap (ts : list Transcription) : gmap string Transcription :=
  fold_left (fun m t => <[recordingId t := t]> m) ts ∅.

(** The transcriptions are queried only if the user has recordings. *)
Definition userTranscriptions (rs : list Recording) (ts : list Transcription)
    : list Transcription :=
  if (0 <? length (map id rs))%nat then ts else [].

Definition formatSRTTime (date : Js.Date) : string :=
  let hours := Js.padStart 2 "0" (Js.numToString (Js.getUTCHours date)) in
  let minutes := Js.padStart 2 "0" (Js.numToString (Js.getUTCMinutes date)) in
  let seconds := Js.padStart 2 "0" (Js.numToString (Js.getUTCSeconds date)) in
  let ms := Js.padStart 3 "0" (Js.numToString (Js.getUTCMilliseconds date)) in
  hours +:+ ":" +:+ minutes +:+ ":" +:+ seconds +:+ "," +:+ ms.

Definition formatVTTTime (date : Js.Date) : string :=
  let hours := Js.padStart 2 "0" (Js.numToString (Js.getUTCHours date)) in
  let minutes := Js.padStart 2 "0" (Js.numToString (Js.getUTCMinutes date)) in
  let seconds := Js.padStart 2 "0" (Js.numToString (Js.getUTCSeconds date)) in
  let ms := Js.padStart 3 "0" (Js.numToString (Js.getUTCMilliseconds date)) in
  hours +:+ ":" +:+ minutes +:+ ":" +:+ seconds +:+ "." +:+ ms.

(** The callback of [userRecordings.map] in the [srt] case. *)
Definition srtEntry (tmap : gmap string Transcription) (index : nat)
    (recording : Recording) : string :=
  match tmap !! id recording with
  | None => ""
  | Some transcription =>
      if String.eqb (text transcription) "" then ""
      else
        let startTime := Js.copyDate (startTime recording) in
        let endTime := Js.newDateNum (Js.add (Js.getTime startTime) (duration recording)) in
        Js.toString (Z.of_nat index + 1) +:+ nl
          +:+ formatSRTTime startTime +:+ " --> " +:+ formatSRTTime endTime +:+ nl
          +:+ text transcription +:+ nl +:+ nl
  end.

(** The callback of [userRecordings.map] in the [vtt] case. *)
Definition vttEntry (tmap : gmap string Transcription) (recording : Recording) : string :=
  match tmap !! id recording with
  | None => ""
  | Some transcription =>
      if String.eqb (text transcription) "" then ""
      else
        let startTime := Js.copyDate (startTime recording) in
        let endTime := Js.newDateNum (Js.add (Js.getTime startTime) (duration recording)) in
        formatVTTTime startTime +:+ " --> " +:+ formatVTTTime endTime +:+ nl
          +:+ text transcription +:+ nl +:+ nl
  end.

(** [.filter(Boolean).join("")] *)
Definition joinNonEmpty (l : list string) : string :=
  String.concat "" (List.filter (fun s => negb (String.eqb s "")) l).

Definition exportSRT (rs : list Recording) (ts : list Transcription) : string :=
  let tmap := transcriptionMap (userTranscriptions rs ts) in
  joinNonEmpty (imap (srtEntry tmap) rs).

Definition exportVTT (rs : list Recording) (ts : list Transcription) : string :=
  let tmap := transcriptionMap (userTranscriptions rs ts) in
  "WEBVTT" +:+ nl +:+ nl +:+ joinNonEmpty (map (vttEntry tmap) rs).

End ExportRoute.

(** ** app/api/export/route.ts: the choice of the format *)

Module ExportRequest.

(** [a || b] for two strings that may be missing. *)
Definition orElse (a b : option string) : option string :=
  match a with
  | Some s => if String.eqb s "" then b else Some s
  | None => b
  end.

(** [searchParams.get("format") || "json"]; [param] is the value of the
    query parameter, [None] if the URL has none. *)
Definition format (param : option string) : string :=
  Js.strOr param "json".

(** [format || settings?.defaultExportFormat || "json"]; [settings] is the
    row of the user's settings if there is one, read through its column
    [defaultExportFormat], which may be null. *)
Definition exportFormat (param : option string) (settings : option (option string)) : string :=
  Js.strOr (orElse (Some (format param)) (mjoin settings)) "json".

(** The cases of the [switch]: the content type of the answer and the
    extension of the file name, or the answer 400 "Invalid export format". *)
Inductive Dispatch : Type :=
| Export (contentType : string) (extension : string)
| Invalid.

Definition dispatch (exportFormat : string) : Dispatch :=
  if String.eqb exportFormat "json" then Export "application/json" "json"
  else if String.eqb exportFormat "txt" then Export "text/plain" "txt"
  else if String.eqb exportFormat "srt" then Export "text/plain" "srt"
  else if String.eqb exportFormat "vtt" then Export "text/vtt" "vtt"
  else Invalid.

End ExportRequest.

(** ** The storage route (second file of [src/unnamed/part_000]) *)

Module StorageRoute.

Record Request : Type := {
  session : Result (option User);        (* auth.api.getSession, then session?.user *)
  config_query : Result (option string); (* the user's storageConfig row: its storageType *)
  recordings_query : Result unit         (* the select on recordings *)
}.

Record Usage : Type := {
  storageType : string;
  totalSize : Z;
  totalRecordings : Z;
  totalSizeMB : string
}.

Inductive Payload : Type :=
| Error (error : string)
| Info (usage : Usage).

Record Response : Type := {
  status : Z;
  payload : Payload
}.

(** [select ... from recordings where userId = session.user.id] *)
Definition userRecordings (user : User) (w : World) : list Recording :=
  List.filter (fun r => String.eqb (userId r) (user_id user)) (recordings w).

(** [userRecordings.reduce((sum, r) => sum + r.filesize, 0)] *)
Definition sumSizes (rs : list Recording) : Z :=
  fold_left (fun sum r => sum + filesize r) rs 0.

(** [(totalSize / (1024 * 1024)).toFixed(2)].  The division by a power of
    two is exact on a safe integer, and [toFixed] works on the exact value:
    it takes the integer [n] nearest to a hundred times the value (the larger
    one of two), pads its digits with zeros to three and puts the point
    before the last two; a negative value is printed as its opposite after a
    minus sign. *)
Definition hundredths (size : Z) : Z :=
  (200 * size + 1048576) / 2097152.

Definition fixed2 (n : Z) : string :=
  let m := Js.padStart 3 "0" (Js.toString n) in
  let k := String.length m in
  String.substring 0 (k - 2) m +:+ "." +:+ String.substring (k - 2) 2 m.

Definition toFixed2MB (size : Z) : string :=
  if size <? 0 then "-" +:+ fixed2 (hundredths (- size))
  else fixed2 (hundredths size).

(** [GET(request)]; the state is the list of errors written to the console,
    the database is only read. *)
Definition GET (req : Request) (w : World) : M (list Exn) Response :=
  try_catch
    (user <- await (session req) ;;
     match user with
     | None => ret {| status := 401; payload := Error "Unauthorized" |}
     | Some user =>
         config <- await (config_query req) ;;
         let storageType := Js.strOr config "local" in
         _ <- await (recordings_query req) ;;
         let userRecordings := userRecordings user w in
         let totalSize := sumSizes userRecordings in
         let totalRecordings := Z.of_nat (length userRecordings) in
         ret {| status := 200;
                payload := Info {| storageType := storageType;
                                   totalSize := totalSize;
                                   totalRecordings := totalRecordings;
                                   totalSizeMB := toFixed2MB totalSize |} |}
     end)
    (fun error =>
       modify (fun console => console ++ [error]) ;;
       ret {| status := 500; payload := Error "Failed to fetch storage info" |}).

End StorageRoute.

(** ** The workstation component (second file of [src/unnamed/part_001]):
       what is played next *)

Module Workstation.

(** [recordings.findIndex(p)], with [-1] for no match. *)
Fixpoint findIndex (p : Recording -> bool) (rs : list Recording) : Z :=
  match rs with
  | [] => -1
  | r :: rest =>
      if p r then 0
      else let i := findIndex p rest in
           if i <? 0 then -1 else i + 1
  end.

(** The initial state [currentRecording]: the first recording, or null. *)
Definition initial (rs : list Recording) : option Recording :=
  if (0 <? length rs)%nat then head rs else None.

(** The callback [onEnded] of the player, as the new value of the state
    [currentRecording]; the player is rendered only when there is a current
    recording. *)
Definition onEnded (rs : list Recording) (current : Recording) : option Recording :=
  let currentIndex := findIndex (fun r => String.eqb (id r) (id current)) rs in
  if (0 <=? currentIndex) && (currentIndex <? Z.of_nat (length rs) - 1)
  then rs !! Z.to_nat (currentIndex + 1)
  else Some current.

(** The state after [n] recordings have been played to their end. *)
Fixpoint played (rs : list Recording) (n : nat) (current : option Recording)
    : option Recording :=
  match n with
  | O => current
  | S n' =>
      match current with
      | Some c => played rs n' (onEnded rs c)
      | None => None
      end
  end.

End Workstation.

(** ** docker-entrypoint.sh *)

Module Entrypoint.

Inductive Line : Type :=
| StartingOpenPlaud
| WaitingForDatabase
| DatabaseUnavailable
| DatabaseReady
| RunningMigrations
| MigrationsCompleted
| MigrationFailed
| StartingApplication.

(** What the script does, in order. *)
Inductive Action : Type :=
| Echo (l : Line)
| Probe            (* node -e "... SELECT 1 ..." *)
| Sleep2           (* sleep 2 *)
| Migrate          (* node src/db/migrate.js *)
| Exec.            (* exec "$@" *)

(** How far the script has got: still in the [until] loop, left with an exit
    status, or replaced by the application. *)
Inductive Status : Type :=
| Waiting
| Exited (code : Z)
| Started.

(** The [until] loop, given the results of the successive probes; it goes
    on for as long as a probe fails. *)
Fixpoint waitForDatabase (probes : list bool) : list Action * bool :=
  match probes with
  | [] => ([], false)
  | true :: _ => ([Probe], true)
  | false :: rest =>
      let '(actions, ready) := waitForDatabase rest in
      (Probe :: Echo DatabaseUnavailable :: Sleep2 :: actions, ready)
  end.

(** The whole script; [migrate] tells whether the migrations succeed. *)
Definition run (probes : list bool) (migrate : bool) : list Action * Status :=
  let '(waiting, ready) := waitForDatabase probes in
  let start := [Echo StartingOpenPlaud; Echo WaitingForDatabase] ++ waiting in
  if ready then
    let migration := start ++ [Echo DatabaseReady; Echo RunningMigrations; Migrate] in
    if migrate then
      (migration ++ [Echo MigrationsCompleted; Echo StartingApplication; Exec], Started)
    else
      (migration ++ [Echo MigrationFailed], Exited 1)
  else (start, Waiting).

Definition isSleep2 (a : Action) : bool :=
  match a with
  | Sleep2 => true
  | _ => false
  end.

Definition isProbe (a : Action) : bool :=
  match a with
  | Probe => true
  | _ => false
  end.

(** The probes up to the first one that succeeds. *)
Fixpoint failedFirst (probes : list bool) : nat :=
  match probes with
  | false :: rest => S (failedFirst rest)
  | _ => O
  end.

End Entrypoint.

(** ** Notions used to state the properties *)

Module Props.

Import Bot.

(** The updates that a reply shows to the loop: those of a JSON body whose
    [ok] flag is set, in the order of arrival. *)
Definition updatesOf (fetched : Fetched (list Delivery)) : list Delivery :=
  match fetched with
  | Responded _ (Json {| ok := true; result := Some ds |}) => ds
  | _ => []
  end.

Definition idsOf (fetched : Fetched (list Delivery)) : list Z :=
  map (fun d => update_id (upd d)) (updatesOf fetched).

(** The same for a sequence of long-poll replies. *)
Definition deliveries (script : list (Fetched (list Delivery))) : list Delivery :=
  flat_map updatesOf script.

Definition seenIds (script : list (Fetched (list Delivery))) : list Z :=
  flat_map idsOf script.

(** The largest identifier of a list; [0], the initial cursor, if none. *)
Definition maxId (ids : list Z) : Z := fold_right Z.max 0 ids.

(** Identifiers that arrive in ascending order, none below [c]. *)
Fixpoint ascendingFrom (c : Z) (ids : list Z) : Prop :=
  match ids with
  | [] => True
  | x :: rest => c <= x /\ ascendingFrom x rest
  end.

(** The events that a computation adds to the trace. *)
Definition newEvents (before after : World) : list Event :=
  drop (length (trace before)) (trace after).

Definition isSendMessage (e : Event) : bool :=
  match e with
  | TgSendMessage _ _ => true
  | _ => false
  end.

Definition isConsoleError (e : Event) : bool :=
  match e with
  | ConsoleError _ => true
  | _ => false
  end.

Definition isSleep (e : Event) : bool :=
  match e with
  | Sleep _ => true
  | _ => false
  end.

(** The rows of a user that come from one source file. *)
Definition rowsFor (user fileId : string) (rs : list Recording) : list Recording :=
  List.filter (fun r => String.eqb (userId r) user && String.eqb (plaudFileId r) fileId) rs.

(** The table respects the uniqueness of (owning user, source file). *)
Definition uniqueSources (rs : list Recording) : Prop :=
  forall user fileId, (length (rowsFor user fileId rs) <= 1)%nat.

(** The environment lets the import of one update get as far as the insert:
    the file is downloaded as [buf] and stored at [loc]. *)
Definition reachesInsert (e : Env) (path : string) (buf : Buffer) (loc : string) : Prop :=
  users_query e = Ok tt
  /\ (exists status, getFile_reply e
        = Responded status (Json {| ok := true; result := Some path |}))
  /\ file_fetch e = Ok buf
  /\ storage_provider e = Ok tt
  /\ storage_backend e = Ok loc
  /\ insert_query e = Ok tt.

(** [m] takes every state to a state related to it, whatever its result. *)
Definition stable {S A} (R : S -> S -> Prop) (m : M S A) : Prop :=
  forall s, R s (snd (m s)).

(** The cursor is the same. *)
Definition sameCursor (s s' : State) : Prop := lastUpdateId s' = lastUpdateId s.

(** A relation on worlds, read on the states of the loop. *)
Definition lifted (Rw : World -> World -> Prop) (s s' : State) : Prop :=
  Rw (world s) (world s').

(** The trace only grows. *)
Definition traceGrows (w w' : World) : Prop :=
  exists evs, trace w' = trace w ++ evs.

(** The [users] table is left alone and the constraint on the
    [recordings] table keeps holding. *)
Definition keepsUnique (w w' : World) : Prop :=
  users w' = users w
  /\ (uniqueSources (recordings w) -> uniqueSources (recordings w')).

(** The claim on duplicates as it is worded: the second attempt is a no-op
    that is not reported as an error. *)
Definition silentNoOp (cfg : Config) (d : Delivery) (s : State) : Prop :=
  let s' := exec (processUpdate cfg d) s in
  recordings (world s') = recordings (world s)
  /\ blobs (world s') = blobs (world s)
  /\ List.filter isConsoleError (newEvents (world s) (world s')) = [].

(** A row as a manual upload of [user] writes it in environment [e]. *)
Definition manualRow (user : User) (e : UploadRoute.Env) (r : Recording) : Prop :=
  userId r = user_id user
  /\ plaudFileId r = "manual-" +:+ UploadRoute.random_id e
  /\ Store.duration r = 0
  /\ startTime r = Js.newDate (UploadRoute.now e)
  /\ endTime r = Js.newDate (UploadRoute.now e).

(** The number of GET requests among the steps of the process. *)
Fixpoint requests (steps : list PollRoute.Step) : nat :=
  match steps with
  | [] => 0
  | PollRoute.Request :: rest => S (requests rest)
  | PollRoute.Background _ _ :: rest => requests rest
  end.

(** The strings of a list one after the other. *)
Definition flatten (l : list string) : string := fold_right String.append "" l.

(** The format as the spec words it, to be compared with what
    [formatSRTTime] and [formatVTTTime] compute: zero-padded decimal fields,
    written out digit by digit. *)
Definition digit (n : Z) : ascii := ascii_of_nat (48 + Z.to_nat n).

Definition twoDigits (n : Z) : string :=
  String (digit (n / 10)) (String (digit (n mod 10)) EmptyString).

Definition threeDigits (n : Z) : string :=
  String (digit (n / 100))
    (String (digit ((n / 10) mod 10)) (String (digit (n mod 10)) EmptyString)).

(** The instant [t] (milliseconds since the epoch, UTC) as [HH:MM:SS] then
    [sep] then [mmm]: hours of the day, minutes, seconds, milliseconds. *)
Definition clock (sep : string) (t : Z) : string :=
  twoDigits ((t / 3600000) mod 24) +:+ ":"
    +:+ twoDigits ((t / 60000) mod 60) +:+ ":"
    +:+ twoDigits ((t / 1000) mod 60) +:+ sep
    +:+ threeDigits (t mod 1000).

End Props.

(** ** Sample data for the examples *)

Module Sample.

Import Bot.

Definition cfg : Config :=
  {| TELEGRAM_BOT_TOKEN := Some "123:abc";
     TELEGRAM_ALLOWED_USERS := Some "42, 43";
     DEFAULT_STORAGE_TYPE := None |}.

Definition w0 : World :=
  {| users := [ {| user_id := "u1" |} ]; recordings := []; blobs := ∅; trace := [] |}.

Definition goodEnv (rid : string) : Env :=
  {| users_query := Ok tt;
     getFile_reply := Responded 200 (Json {| ok := true; result := Some "voice/file_1.oga" |});
     file_fetch := Ok [Byte.x01; Byte.x02];
     storage_provider := Ok tt;
     random_id := rid;
     storage_backend := Ok "/data/audio";
     insert_query := Ok tt;
     now := 1700000000500;
     sendMessage_reply := Responded 200 (Json {| ok := true; result := Some tt |}) |}.

(** The database is down when the users are queried. *)
Definition dbDownEnv (rid : string) : Env :=
  {| users_query := Throw DbFailure;
     getFile_reply := getFile_reply (goodEnv rid);
     file_fetch := file_fetch (goodEnv rid);
     storage_provider := Ok tt;
     random_id := rid;
     storage_backend := storage_backend (goodEnv rid);
     insert_query := Ok tt;
     now := now (goodEnv rid);
     sendMessage_reply := sendMessage_reply (goodEnv rid) |}.

Definition voiceMsg (sender : Z) (fid : string) (d T : Z) : Message :=
  {| message_id := 7;
     from := Some {| sender_id := sender; username := None |};
     chat_id := 99;
     date := T;
     text := None;
     voice := Some {| voice_file_id := fid; voice_duration := d;
                      voice_mime_type := None; voice_file_size := None |};
     audio := None |}.

Definition textMsg (sender : Z) : Message :=
  {| message_id := 8;
     from := Some {| sender_id := sender; username := None |};
     chat_id := 99;
     date := 1700000000;
     text := Some "hello";
     voice := None;
     audio := None |}.

Definition delivery (uid : Z) (m : option Message) (e : Env) : Delivery :=
  {| upd := {| update_id := uid; message := m |}; env := e |}.

Definition okReply (ds : list Delivery) : Fetched (list Delivery) :=
  Responded 200 (Json {| ok := true; result := Some ds |}).

Definition s0 : State := {| lastUpdateId := 0; world := w0 |}.

(** The download of the file fails. *)
Definition lostFileEnv (rid : string) : Env :=
  {| users_query := Ok tt;
     getFile_reply := getFile_reply (goodEnv rid);
     file_fetch := Throw NetworkError;
     storage_provider := Ok tt;
     random_id := rid;
     storage_backend := storage_backend (goodEnv rid);
     insert_query := Ok tt;
     now := now (goodEnv rid);
     sendMessage_reply := sendMessage_reply (goodEnv rid) |}.

(** Three updates in two replies, with a failed download and a failed long
    poll in between. *)
Definition scriptAscending : list (Fetched (list Delivery)) :=
  [ okReply [ delivery 1 (Some (voiceMsg 42 "F1" 12 1700000000)) (goodEnv "r1");
              delivery 2 (Some (voiceMsg 42 "F2" 3 1700000100)) (lostFileEnv "r2") ];
    Rejected;
    okReply [ delivery 3 (Some (textMsg 42)) (goodEnv "r3") ] ].

(** Two updates in one reply; the database is down while the first one is
    processed. *)
Definition scriptDbDown : list (Fetched (list Delivery)) :=
  [ okReply [ delivery 1 (Some (voiceMsg 42 "F1" 12 1700000000)) (dbDownEnv "r1");
              delivery 2 (Some (textMsg 42)) (goodEnv "r2") ] ].

(** Two updates whose identifiers do not ascend. *)
Definition scriptUnordered : list (Fetched (list Delivery)) :=
  [ okReply [ delivery 5 None (goodEnv "r5"); delivery 3 None (goodEnv "r3") ] ].

(** A voice message and its second delivery under a new update identifier. *)
Definition firstDelivery : Delivery :=
  delivery 1 (Some (voiceMsg 42 "F1" 12 1700000000)) (goodEnv "r1").

Definition secondDelivery : Delivery :=
  delivery 2 (Some (voiceMsg 42 "F1" 12 1700000000)) (goodEnv "r2").

(** A sender outside the allow-list ["42, 43"]. *)
Definition strangerDelivery : Delivery :=
  delivery 4 (Some (voiceMsg 77 "F9" 5 1700000200)) (goodEnv "r4").

(** The Bot API refuses [getFile]. *)
Definition refusedFileEnv (rid : string) : Env :=
  {| users_query := Ok tt;
     getFile_reply := Responded 400 (Json {| ok := false; result := None |});
     file_fetch := file_fetch (goodEnv rid);
     storage_provider := Ok tt;
     random_id := rid;
     storage_backend := storage_backend (goodEnv rid);
     insert_query := Ok tt;
     now := now (goodEnv rid);
     sendMessage_reply := sendMessage_reply (goodEnv rid) |}.


(** The acknowledgment cannot be sent. *)
Definition lostAckEnv (rid : string) : Env :=
  {| users_query := Ok tt;
     getFile_reply := getFile_reply (goodEnv rid);
     file_fetch := file_fetch (goodEnv rid);
     storage_provider := Ok tt;
     random_id := rid;
     storage_backend := storage_backend (goodEnv rid);
     insert_query := Ok tt;
     now := now (goodEnv rid);
     sendMessage_reply := Rejected |}.

(** An audio message with a file name. *)
Definition audioMsg (sender : Z) (fid name : string) (T : Z) : Message :=
  {| message_id := 9;
     from := Some {| sender_id := sender; username := None |};
     chat_id := 99;
     date := T;
     text := None;
     voice := None;
     audio := Some {| audio_file_id := fid; audio_duration := 60;
                      audio_mime_type := Some "audio/mp4"; audio_file_size := Some 2;
                      audio_file_name := Some name |} |}.

(** The same, with another content. *)
Definition otherEnv (rid : string) : Env :=
  {| users_query := Ok tt;
     getFile_reply := getFile_reply (goodEnv rid);
     file_fetch := Ok [Byte.x03; Byte.x04];
     storage_provider := Ok tt;
     random_id := rid;
     storage_backend := storage_backend (goodEnv rid);
     insert_query := Ok tt;
     now := now (goodEnv rid);
     sendMessage_reply := sendMessage_reply (goodEnv rid) |}.

(** A configuration whose allow-list variable is set to [value]. *)
Definition cfgAllowing (value : string) : Config :=
  {| TELEGRAM_BOT_TOKEN := Some "123:abc";
     TELEGRAM_ALLOWED_USERS := Some value;
     DEFAULT_STORAGE_TYPE := None |}.

Definition noUsers : State :=
  {| lastUpdateId := 0;
     world := {| users := []; recordings := []; blobs := ∅; trace := [] |} |}.

(** Two recordings with their transcriptions, for the export. *)
Definition recorded (rid : string) (start dur : Z) : Recording :=
  {| id := rid; userId := "u1"; deviceSn := "TELEGRAM"; plaudFileId := "tg-" +:+ rid;
     filename := rid +:+ ".ogg"; Store.duration := dur;
     startTime := Js.ValidDate start; endTime := Js.ValidDate start;
     filesize := 2; fileMd5 := ""; storageType := "local";
     storagePath := "/data/audio"; downloadedAt := Js.ValidDate start;
     plaudVersion := "1.0.0" |}.

Definition twoRecordings : list Recording :=
  [recorded "a" 1700000000000 12000; recorded "b" 5025 3600000].

Definition twoTranscriptions : list Transcription :=
  [ {| recordingId := "a"; Store.text := "hello" |};
    {| recordingId := "b"; Store.text := "world" |} ].

(** A manual upload, and a request that is not an audio file. *)
Definition memo : UploadRoute.File :=
  {| UploadRoute.name := "memo.MP3";
     UploadRoute.type := "application/octet-stream";
     UploadRoute.size := 2;
     UploadRoute.content := [Byte.x01; Byte.x02] |}.

Definition notes : UploadRoute.File :=
  {| UploadRoute.name := "notes.txt";
     UploadRoute.type := "text/plain";
     UploadRoute.size := 1;
     UploadRoute.content := [Byte.x41] |}.

(** A form whose field ["file"] is a text. *)
Definition textUpload (s : string) : UploadRoute.Request :=
  {| UploadRoute.session := Ok (Some {| user_id := "u1" |});
     UploadRoute.formData := Ok (UploadRoute.IsString s) |}.

Definition uploadOf (f : UploadRoute.File) : UploadRoute.Request :=
  {| UploadRoute.session := Ok (Some {| user_id := "u1" |});
     UploadRoute.formData := Ok (UploadRoute.IsFile f) |}.

Definition uploadEnv (rid : string) (t : Z) : UploadRoute.Env :=
  {| UploadRoute.storage_provider := Ok tt;
     UploadRoute.random_id := rid;
     UploadRoute.now := t;
     UploadRoute.storage_backend := Ok "/data/manual";
     UploadRoute.insert_query := Ok tt |}.


(** The voice message of [firstDelivery] delivered twice more after a
    restart of the process, with ids drawn anew. *)
Definition redelivered : list (Fetched (list Delivery)) :=
  [ okReply [ delivery 1 (Some (voiceMsg 42 "F1" 12 1700000000)) (goodEnv "n1") ];
    okReply [ delivery 2 (Some (voiceMsg 42 "F1" 12 1700000000)) (goodEnv "n2") ] ].

(** A request for the storage figures by the user [uid], who has no storage
    configuration. *)
Definition storageRequest (uid : string) : StorageRoute.Request :=
  {| StorageRoute.session := Ok (Some {| user_id := uid |});
     StorageRoute.config_query := Ok None;
     StorageRoute.recordings_query := Ok tt |}.

(** A recording of the user "u1" with a given size. *)
Definition sized (bytes : Z) : Recording :=
  {| id := "big"; userId := "u1"; deviceSn := "MANUAL"; plaudFileId := "manual-big";
     filename := "big.wav"; Store.duration := 0;
     startTime := Js.ValidDate 0; endTime := Js.ValidDate 0;
     filesize := bytes; fileMd5 := ""; storageType := "local";
     storagePath := "/data/manual"; downloadedAt := Js.ValidDate 0;
     plaudVersion := "1.0.0" |}.

End Sample.

(** ** What a turn of the bot loop amounts to, as plain functions *)

Module Outline.

Import Bot Props.

(** The result of [downloadFile], as the answers of the environment decide
    it. *)
Definition downloaded (e : Env) : Result Buffer :=
  match getFile_reply e with
  | Rejected => Throw NetworkError
  | Responded _ NotJson => Throw SyntaxError
  | Responded _ (Json r) =>
      if negb (ok r) then Throw GetFileFailed
      else match result r with
           | None => Throw TypeError
           | Some _ => file_fetch e
           end
  end.

(** The payload of an update that passes the filters of the loop body. *)
Definition acceptedPayload (cfg : Config) (d : Delivery) : option (Message * Payload) :=
  match message (upd d) with
  | None => None
  | Some msg =>
      match from msg with
      | None => None
      | Some sender =>
          if unauthorized cfg sender then None
          else match voiceOrAudio msg with
               | None => None
               | Some a => Some (msg, a)
               end
      end
  end.

(** The turn for [d] throws: it gets as far as the query of the [users]
    table, and that query fails. *)
Definition aborts (cfg : Config) (d : Delivery) : bool :=
  match acceptedPayload cfg d, users_query (env d) with
  | Some _, Throw _ => true
  | _, _ => false
  end.

(** The row that the turn for [d] hands to the insert, if it gets that far;
    [first] is the first row of the [users] table. *)
Definition candidate (cfg : Config) (d : Delivery) (first : option User) : option Recording :=
  match acceptedPayload cfg d, users_query (env d), first with
  | Some (msg, a), Ok _, Some u =>
      match downloaded (env d), storage_provider (env d),
            storage_backend (env d), insert_query (env d) with
      | Ok buf, Ok _, Ok loc, Ok _ => Some (recordingValues cfg (env d) msg a u buf loc)
      | _, _, _, _ => None
      end
  | _, _, _ => None
  end.

(** The row breaks a constraint of the table. *)
Definition collides (r : Recording) (rs : list Recording) : bool :=
  existsb (same_id r) rs || existsb (same_source r) rs.

Definition insertIfFree (c : option Recording) (rs : list Recording) : list Recording :=
  match c with
  | Some r => if collides r rs then rs else rs ++ [r]
  | None => rs
  end.

(** The updates of a batch that the [for] loop takes up: all of them, up to
    and including the first whose turn throws. *)
Fixpoint takenUp (cfg : Config) (ds : list Delivery) : list Delivery :=
  match ds with
  | [] => []
  | d :: rest => if aborts cfg d then [d] else d :: takenUp cfg rest
  end.

Definition takenUpAll (cfg : Config) (script : list (Fetched (list Delivery)))
    : list Delivery :=
  flat_map (fun fetched => takenUp cfg (updatesOf fetched)) script.

(** The table after the candidates of the updates [ds] have been tried in
    turn. *)
Definition insertAll (cfg : Config) (first : option User) (ds : list Delivery)
    (rs : list Recording) : list Recording :=
  fold_left (fun acc d => insertIfFree (candidate cfg d first) acc) ds rs.

Definition isGetUpdates (e : Event) : bool :=
  match e with
  | TgGetUpdates _ _ => true
  | _ => false
  end.

Definition isRecordingSaved (e : Event) : bool :=
  match e with
  | ConsoleLog (RecordingSaved _) => true
  | _ => false
  end.

Definition isGetFile (e : Event) : bool :=
  match e with
  | TgGetFile _ => true
  | _ => false
  end.


(** An event that is a request to the Bot API or to its file server. *)
Definition isRequest (e : Event) : bool :=
  match e with
  | TgGetUpdates _ _ | TgGetFile _ | TgSendMessage _ _ | FetchFile _ => true
  | _ => false
  end.

Definition isFetchFile (e : Event) : bool :=
  match e with
  | FetchFile _ => true
  | _ => false
  end.

(** From [w] to [w']: the [users] table is the same, no blob key is lost,
    rows and events have only been appended, and what was appended
    satisfies [P]. *)
Definition adds (P : list Recording -> list Event -> Prop) (w w' : World) : Prop :=
  users w' = users w
  /\ dom (blobs w) ⊆ dom (blobs w')
  /\ exists rows evs,
       recordings w' = recordings w ++ rows
       /\ trace w' = trace w ++ evs
       /\ P rows evs.

(** As many acknowledgments requested, and as many "saved" lines logged, as
    rows appended. *)
Definition acknowledged (rows : list Recording) (evs : list Event) : Prop :=
  length (List.filter isSendMessage evs) = length rows
  /\ length (List.filter isRecordingSaved evs) = length rows.

(** What one turn of the [for] loop appends: at most one row, acknowledged,
    and neither a long poll nor a delay. *)
Definition turnTally (rows : list Recording) (evs : list Event) : Prop :=
  acknowledged rows evs
  /\ (length rows <= 1)%nat
  /\ List.filter isGetUpdates evs = []
  /\ List.filter isSleep evs = [].

(** What a batch of updates appends: acknowledged rows, and neither a long
    poll nor a delay. *)
Definition batchTally (rows : list Recording) (evs : list Event) : Prop :=
  acknowledged rows evs
  /\ List.filter isGetUpdates evs = []
  /\ List.filter isSleep evs = [].

(** Acknowledged rows, [polls] long polls, and at most [sleeps] delays, of
    5000 ms each. *)
Definition tally (polls sleeps : nat) (rows : list Recording) (evs : list Event) : Prop :=
  acknowledged rows evs
  /\ length (List.filter isGetUpdates evs) = polls
  /\ (length (List.filter isSleep evs) <= sleeps)%nat
  /\ Forall (fun e => e = Sleep 5000) (List.filter isSleep evs).

(** What [n] turns of the [while] loop append. *)
Definition loopTally (n : nat) (rows : list Recording) (evs : list Event) : Prop :=
  tally n n rows evs.

(** A candidate collides with the table: it has been tried. *)
Definition tried (c : option Recording) (rs : list Recording) : Prop :=
  match c with
  | Some r => collides r rs = true
  | None => True
  end.

(** The update carries a file of which the target user has a row already. *)
Definition alreadyImported (cfg : Config) (first : option User) (rs : list Recording)
    (d : Delivery) : Prop :=
  match acceptedPayload cfg d, first with
  | Some (_, a), Some u => rowsFor (user_id u) ("tg-" +:+ file_id a) rs <> []
  | _, _ => True
  end.

(** The row belongs to the target user and its source is the file of an
    accepted payload among the updates [ds]. *)
Definition importedFrom (cfg : Config) (first : option User) (ds : list Delivery)
    (r : Recording) : Prop :=
  exists d msg a u,
    In d ds
    /\ acceptedPayload cfg d = Some (msg, a)
    /\ first = Some u
    /\ userId r = user_id u
    /\ plaudFileId r = "tg-" +:+ file_id a.

(** A recording for which the export finds no text: it has no
    transcription, or one whose text is empty. *)
Definition noText (tmap : gmap string Transcription) (r : Recording) : Prop :=
  match tmap !! id r with
  | Some t => Store.text t = ""
  | None => True
  end.

(** The last transcription of a recording in the order of the query. *)
Definition lastFor (key : string) (ts : list Transcription) : option Transcription :=
  List.find (fun t => String.eqb (recordingId t) key) (rev ts).

(** The figures of the storage route for a user with a session, read off
    its answer. *)
Definition usageOf (resp : Result StorageRoute.Response) : option StorageRoute.Usage :=
  match resp with
  | Ok {| StorageRoute.status := _; StorageRoute.payload := StorageRoute.Info usage |} =>
      Some usage
  | _ => None
  end.

End Outline.

(** * Properties *)

Example js_toString_12000 : Js.toString 12000 = "12000".
Proof. reflexivity. Qed.
Example js_toString_neg : Js.toString (-7) = "-7".
Proof. reflexivity. Qed.
Example js_toString_0 : Js.toString 0 = "0".
Proof. reflexivity. Qed.
Example js_padStart_1 : Js.padStart 2 "0" "7" = "07".
Proof. reflexivity. Qed.
Example js_padStart_2 : Js.padStart 3 "0" "7" = "007".
Proof. reflexivity. Qed.
Example js_padStart_3 : Js.padStart 2 "0" "123" = "123".
Proof. reflexivity. Qed.
Example js_padStart_4 : Js.padStart 6 "ab" "x" = "ababax".
Proof. reflexivity. Qed.
Example js_endsWith_1 : Js.endsWith (Js.toLowerCase "Memo.MP3") ".mp3" = true.
Proof. reflexivity. Qed.
Example js_endsWith_2 : Js.endsWith "mp3" ".mp3" = false.
Proof. reflexivity. Qed.
Example js_split_1 : Js.splitComma "12, 34 ,5" = ["12"; " 34 "; "5"].
Proof. reflexivity. Qed.
Example js_split_2 : Js.splitComma "" = [""].
Proof. reflexivity. Qed.
Example js_split_3 : Js.splitComma "a,,b," = ["a"; ""; "b"; ""].
Proof. reflexivity. Qed.
Example js_trim_1 : Js.trim "  34 5 " = "34 5".
Proof. reflexivity. Qed.
Example js_trim_2 :
  Js.trim (Js.utf8 [239; 187; 191] +:+ " 42" +:+ Js.utf8 [194; 160] +:+ Js.utf8 [226; 128; 168])
  = "42".
Proof. reflexivity. Qed.
Example js_trim_3 :
  Js.trim (Js.utf8 [9] +:+ "4" +:+ Js.utf8 [194; 160] +:+ "2" +:+ Js.utf8 [227; 128; 128])
  = "4" +:+ Js.utf8 [194; 160] +:+ "2".
Proof. reflexivity. Qed.
Example js_hours_neg : Js.getUTCHours (Js.ValidDate (-1)) = Js.Int 23.
Proof. reflexivity. Qed.

(** ** Zero padding *)

Module JsFacts.

Import Props.

(** A property of the numbers below [n] that a computation checks. *)
Lemma below_by_computation (P : Z -> bool) (n : nat) :
  forallb (fun k => P (Z.of_nat k)) (seq 0 n) = true ->
  forall z, 0 <= z < Z.of_nat n -> P z = true.
Proof.
  intros Hall z Hz.
  rewrite forallb_forall in Hall.
  specialize (Hall (Z.to_nat z)).
  rewrite Z2Nat.id in Hall by lia.
  apply Hall. apply in_seq. lia.
Qed.

Lemma padStart_two (n : Z) :
  0 <= n < 100 -> Js.padStart 2 "0" (Js.toString n) = twoDigits n.
Proof.
  intros Hn. apply String.eqb_eq.
  apply (below_by_computation
           (fun z => String.eqb (Js.padStart 2 "0" (Js.toString z)) (twoDigits z)) 100);
    [vm_compute; reflexivity | exact Hn].
Qed.

Lemma padStart_three (n : Z) :
  0 <= n < 1000 -> Js.padStart 3 "0" (Js.toString n) = threeDigits n.
Proof.
  intros Hn. apply String.eqb_eq.
  apply (below_by_computation
           (fun z => String.eqb (Js.padStart 3 "0" (Js.toString z)) (threeDigits z)) 1000);
    [vm_compute; reflexivity | exact Hn].
Qed.

Lemma formatSRTTime_valid (t : Z) :
  ExportRoute.formatSRTTime (Js.ValidDate t) = clock "," t.
Proof.
  unfold ExportRoute.formatSRTTime, clock. cbn [Js.getUTCHours Js.getUTCMinutes
    Js.getUTCSeconds Js.getUTCMilliseconds Js.onTime Js.numToString].
  pose proof (Z.mod_pos_bound (t / 3600000) 24 ltac:(lia)).
  pose proof (Z.mod_pos_bound (t / 60000) 60 ltac:(lia)).
  pose proof (Z.mod_pos_bound (t / 1000) 60 ltac:(lia)).
  pose proof (Z.mod_pos_bound t 1000 ltac:(lia)).
  rewrite !padStart_two, padStart_three by lia. reflexivity.
Qed.

Lemma formatVTTTime_valid (t : Z) :
  ExportRoute.formatVTTTime (Js.ValidDate t) = clock "." t.
Proof.
  unfold ExportRoute.formatVTTTime, clock. cbn [Js.getUTCHours Js.getUTCMinutes
    Js.getUTCSeconds Js.getUTCMilliseconds Js.onTime Js.numToString].
  pose proof (Z.mod_pos_bound (t / 3600000) 24 ltac:(lia)).
  pose proof (Z.mod_pos_bound (t / 60000) 60 ltac:(lia)).
  pose proof (Z.mod_pos_bound (t / 1000) 60 ltac:(lia)).
  pose proof (Z.mod_pos_bound t 1000 ltac:(lia)).
  rewrite !padStart_two, padStart_three by lia. reflexivity.
Qed.

Lemma length_append (s1 s2 : string) :
  String.length (s1 +:+ s2) = (String.length s1 + String.length s2)%nat.
Proof.
  induction s1 as [|c s1 IH]; [reflexivity |].
  change (S (String.length (s1 +:+ s2)) = S (String.length s1 + String.length s2)).
  now rewrite IH.
Qed.

Lemma clock_length (sep : string) (t : Z) :
  String.length (clock sep t) = (11 + String.length sep)%nat.
Proof.
  unfold clock, twoDigits, threeDigits.
  repeat (rewrite length_append || cbn [String.length]). lia.
Qed.

Lemma newDate_in_range (ms : Z) :
  Z.abs ms <= Js.maxTime -> Js.newDate ms = Js.ValidDate ms.
Proof.
  intros H. unfold Js.newDate.
  destruct (Z.leb_spec (Z.abs ms) Js.maxTime); [reflexivity | lia].
Qed.

End JsFacts.

(** ** Relations that every step of a computation maintains *)

Module EffFacts.

Section Stable.

Import Props.

Context {S : Type} (R : S -> S -> Prop).
Hypothesis R_refl : forall s, R s s.
Hypothesis R_trans : forall s1 s2 s3, R s1 s2 -> R s2 s3 -> R s1 s3.

Lemma stable_ret {A} (a : A) : stable R (ret a).
Proof. intros s. apply R_refl. Qed.

Lemma stable_throw {A} (e : Exn) : stable R (@throw S A e).
Proof. intros s. apply R_refl. Qed.

Lemma stable_await {A} (r : Result A) : stable R (await r).
Proof. intros s. apply R_refl. Qed.

Lemma stable_get : stable R get.
Proof. intros s. apply R_refl. Qed.

Lemma stable_bind {A B} (m : M S A) (k : A -> M S B) :
  stable R m -> (forall a, stable R (k a)) -> stable R (bind m k).
Proof.
  intros Hm Hk s. unfold bind. specialize (Hm s).
  destruct (m s) as [[a|e] s1]; cbn in *; [|exact Hm].
  eapply R_trans; [exact Hm | apply Hk].
Qed.

Lemma stable_try_catch {A} (m : M S A) (h : Exn -> M S A) :
  stable R m -> (forall e, stable R (h e)) -> stable R (try_catch m h).
Proof.
  intros Hm Hh s. unfold try_catch. specialize (Hm s).
  destruct (m s) as [[a|e] s1]; cbn in *; [exact Hm|].
  eapply R_trans; [exact Hm | apply Hh].
Qed.

End Stable.

End EffFacts.

(** ** The bot loop *)

Module BotFacts.

Import Bot Props EffFacts.

(** *** What the steps of the loop leave alone *)

Lemma sameCursor_refl s : sameCursor s s.
Proof. reflexivity. Qed.

Lemma sameCursor_trans s1 s2 s3 : sameCursor s1 s2 -> sameCursor s2 s3 -> sameCursor s1 s3.
Proof. unfold sameCursor. congruence. Qed.

Lemma inWorld_sameCursor {A} (m : M World A) : stable sameCursor (inWorld m).
Proof.
  intros s. unfold inWorld, zoom, sameCursor.
  destruct (m (world s)) as [r w]. reflexivity.
Qed.

(** Breaks a computation of the loop into its steps. *)
Ltac steps R_refl R_trans :=
  repeat match goal with
    | |- stable _ (bind _ _) => apply (stable_bind _ R_trans); [|intros ?]
    | |- stable _ (try_catch _ _) => apply (stable_try_catch _ R_trans); [|intros ?]
    | |- stable _ (ret _) => apply (stable_ret _ R_refl)
    | |- stable _ (throw _) => apply (stable_throw _ R_refl)
    | |- stable _ (await _) => apply (stable_await _ R_refl)
    | |- stable _ get => apply (stable_get _ R_refl)
    | |- stable _ (match ?x with _ => _ end) => destruct x
    | |- stable _ (if ?b then _ else _) => destruct b
    end.

Lemma tg_sameCursor {R} (request : Event) (fetched : Fetched R) :
  stable sameCursor (tg request fetched).
Proof.
  unfold tg, received. steps sameCursor_refl sameCursor_trans; apply inWorld_sameCursor.
Qed.

Lemma downloadFile_sameCursor (e : Env) (fileId : string) :
  stable sameCursor (downloadFile e fileId).
Proof.
  unfold downloadFile.
  steps sameCursor_refl sameCursor_trans;
    first [apply tg_sameCursor | apply inWorld_sameCursor].
Qed.

Lemma importAudio_sameCursor cfg e msg a u :
  stable sameCursor (importAudio cfg e msg a u).
Proof.
  unfold importAudio, acknowledge, consoleLog.
  steps sameCursor_refl sameCursor_trans;
    first [apply tg_sameCursor | apply inWorld_sameCursor | apply downloadFile_sameCursor].
Qed.

Lemma handleMessage_sameCursor cfg d : stable sameCursor (handleMessage cfg d).
Proof.
  unfold handleMessage, consoleLog, consoleError.
  steps sameCursor_refl sameCursor_trans;
    first [apply inWorld_sameCursor | apply importAudio_sameCursor].
Qed.

(** Whatever happens to an update, the cursor is its identifier afterwards:
    the assignment comes first and nothing later touches the cursor. *)
Lemma processUpdate_cursor cfg d s :
  lastUpdateId (snd (processUpdate cfg d s)) = update_id (upd d).
Proof.
  unfold processUpdate, bind. cbn [setLastUpdateId modify].
  apply (handleMessage_sameCursor cfg d
           {| lastUpdateId := update_id (upd d); world := world s |}).
Qed.


(** *** Exceptions: what can leave the body of the loop *)

Lemma caught_and_logged (m : M State unit) (l : Exn -> LogLine) s :
  fst (try_catch m (fun err => consoleError (l err)) s) = Ok tt.
Proof.
  unfold try_catch. destruct (m s) as [[[]|e] s1]; reflexivity.
Qed.

(** Only the query of the [users] table, which stands outside the inner
    [try], can make the processing of an update throw. *)
Lemma processUpdate_outcome cfg d s :
  fst (processUpdate cfg d s) = Ok tt
  \/ exists e, users_query (env d) = Throw e /\ fst (processUpdate cfg d s) = Throw e.
Proof.
  unfold processUpdate, handleMessage, bind at 1. cbn [setLastUpdateId modify].
  destruct (message (upd d)) as [msg|]; [|now left].
  destruct (from msg) as [sender|]; [|now left].
  destruct (unauthorized cfg sender); [now left|].
  destruct (voiceOrAudio msg) as [a|]; [|now left].
  unfold bind, consoleLog, inWorld, zoom, emit, modify, selectFirstUser, await, get.
  cbn. destruct (users_query (env d)) as [[]|e] eqn:Hq; cbn.
  - left. destruct (head _); [apply caught_and_logged | reflexivity].
  - right. now exists e.
Qed.

Lemma processUpdate_ok cfg d s :
  users_query (env d) = Ok tt -> fst (processUpdate cfg d s) = Ok tt.
Proof.
  intros Hq. destruct (processUpdate_outcome cfg d s) as [H|(e & He & _)];
    [exact H | congruence].
Qed.

(** *** The cursor along a batch and along a run *)

Lemma last_cons_default {A} (x : A) (l : list A) (c : A) :
  List.last (x :: l) c = List.last l x.
Proof.
  revert x c. induction l as [|y l IH]; intros x c; [reflexivity|].
  change (List.last (y :: l) c = List.last (y :: l) x).
  now rewrite (IH y c), (IH y x).
Qed.

Lemma last_app_default {A} (l1 l2 : list A) (c : A) :
  List.last (l1 ++ l2) c = List.last l2 (List.last l1 c).
Proof.
  revert c. induction l1 as [|x l1 IH]; intros c; [reflexivity|].
  change ((x :: l1) ++ l2) with (x :: (l1 ++ l2)).
  now rewrite !last_cons_default, IH.
Qed.

Lemma forEach_cursor cfg ds :
  Forall (fun d => users_query (env d) = Ok tt) ds ->
  forall s,
    fst (forEach cfg ds s) = Ok tt
    /\ lastUpdateId (snd (forEach cfg ds s))
       = List.last (map (fun d => update_id (upd d)) ds) (lastUpdateId s).
Proof.
  induction 1 as [|d ds Hd _ IH]; intros s; [now split|].
  cbn [forEach map]. rewrite last_cons_default. unfold bind.
  pose proof (processUpdate_ok cfg d s Hd) as Hok.
  pose proof (processUpdate_cursor cfg d s) as Hcur.
  destruct (processUpdate cfg d s) as [[[]|e] s1]; cbn in Hok, Hcur; [|discriminate].
  rewrite <- Hcur. apply IH.
Qed.

(** A turn of the [while] loop never throws: its body is one [try] whose
    handler logs and sleeps. *)
Lemma pollOnce_ok cfg fetched s : fst (pollOnce cfg fetched s) = Ok tt.
Proof.
  unfold pollOnce, try_catch.
  match goal with |- context [match ?m s with _ => _ end] => destruct (m s) as [[[]|e] s1] end;
    reflexivity.
Qed.

Lemma pollLoop_ok cfg script : forall s, fst (pollLoop cfg script s) = Ok tt.
Proof.
  induction script as [|f rest IH]; intros s; [reflexivity|].
  cbn [pollLoop]. unfold bind.
  pose proof (pollOnce_ok cfg f s) as Hok.
  destruct (pollOnce cfg f s) as [[[]|e] s1]; cbn in Hok; [apply IH | discriminate].
Qed.

(** The promise of [pollTelegramUpdates()] is never rejected. *)
Lemma pollTelegramUpdates_ok cfg script w :
  fst (pollTelegramUpdates cfg script w) = Ok tt.
Proof.
  unfold pollTelegramUpdates. destruct (negb _); [reflexivity|].
  unfold bind, consoleLog, inWorld, zoom, emit, modify. cbn. apply pollLoop_ok.
Qed.

Lemma pollOnce_cursor cfg fetched s :
  Forall (fun d => users_query (env d) = Ok tt) (updatesOf fetched) ->
  lastUpdateId (snd (pollOnce cfg fetched s))
  = List.last (idsOf fetched) (lastUpdateId s).
Proof.
  intros Hq. unfold idsOf.
  destruct fetched as [|status [|[[] [ds|]]]]; try reflexivity.
  cbn [updatesOf] in *.
  unfold pollOnce, handleReply, try_catch, bind, get, tg, received, inWorld, zoom,
    emit, modify, ret. cbn.
  destruct ds as [|d ds]; [reflexivity|].
  cbn [length Nat.ltb Nat.leb].
  match goal with |- context [forEach cfg ?l ?s1] =>
    destruct (forEach_cursor cfg l Hq s1) as [Hok Hcur];
    destruct (forEach cfg l s1) as [[[]|e] s2]
  end; cbn in Hok, Hcur; [exact Hcur | discriminate].
Qed.

Lemma pollLoop_cursor cfg script :
  Forall (fun d => users_query (env d) = Ok tt) (deliveries script) ->
  forall s,
    lastUpdateId (snd (pollLoop cfg script s))
    = List.last (seenIds script) (lastUpdateId s).
Proof.
  induction script as [|f rest IH]; intros Hq s; [reflexivity|].
  cbn [deliveries seenIds flat_map] in *. apply Forall_app in Hq as [Hf Hrest].
  rewrite last_app_default. cbn [pollLoop]. unfold bind.
  pose proof (pollOnce_ok cfg f s) as Hok.
  pose proof (pollOnce_cursor cfg f s Hf) as Hcur.
  destruct (pollOnce cfg f s) as [[[]|e] s1]; cbn in Hok, Hcur; [|discriminate].
  rewrite <- Hcur. now apply IH.
Qed.

Lemma maxId_nonneg ids : 0 <= maxId ids.
Proof. unfold maxId. induction ids; cbn [fold_right]; lia. Qed.

Lemma ascending_last_max ids :
  forall c, 0 <= c -> ascendingFrom c ids -> List.last ids c = Z.max c (maxId ids).
Proof.
  induction ids as [|x ids IH]; intros c Hc Hasc.
  - unfold maxId. cbn [List.last fold_right]. lia.
  - destruct Hasc as [Hx Hrest]. rewrite last_cons_default.
    rewrite (IH x) by (lia || assumption).
    change (maxId (x :: ids)) with (Z.max x (maxId ids)). lia.
Qed.

(** *** Relations on the world that the whole loop maintains *)

Section WorldRelation.

Variable Rw : World -> World -> Prop.
Hypothesis Rw_refl : forall w, Rw w w.
Hypothesis Rw_trans : forall w1 w2 w3, Rw w1 w2 -> Rw w2 w3 -> Rw w1 w3.
Hypothesis Rw_emit : forall e, stable Rw (emit e).
Hypothesis Rw_select : forall q, stable Rw (selectFirstUser q).
Hypothesis Rw_upload : forall b key buf ctype, stable Rw (uploadFile b key buf ctype).
Hypothesis Rw_insert : forall q r, stable Rw (insertRecording q r).

Lemma lifted_refl s : lifted Rw s s.
Proof. apply Rw_refl. Qed.

Lemma lifted_trans s1 s2 s3 : lifted Rw s1 s2 -> lifted Rw s2 s3 -> lifted Rw s1 s3.
Proof. apply Rw_trans. Qed.

Lemma inWorld_lifted {A} (m : M World A) : stable Rw m -> stable (lifted Rw) (inWorld m).
Proof.
  intros Hm s. unfold inWorld, zoom, lifted. specialize (Hm (world s)).
  destruct (m (world s)) as [r w]. exact Hm.
Qed.

Lemma setLastUpdateId_lifted n : stable (lifted Rw) (setLastUpdateId n).
Proof. intros s. apply Rw_refl. Qed.

Ltac world_steps :=
  steps lifted_refl lifted_trans;
  try solve [ apply inWorld_lifted;
              first [apply Rw_emit | apply Rw_select | apply Rw_upload | apply Rw_insert] ].

Lemma tg_lifted {R} (request : Event) (fetched : Fetched R) :
  stable (lifted Rw) (tg request fetched).
Proof. unfold tg, received. world_steps. Qed.

Lemma downloadFile_lifted e fileId : stable (lifted Rw) (downloadFile e fileId).
Proof. unfold downloadFile. world_steps. apply tg_lifted. Qed.

Lemma importAudio_lifted cfg e msg a u : stable (lifted Rw) (importAudio cfg e msg a u).
Proof.
  unfold importAudio, acknowledge, consoleLog. world_steps;
    first [apply downloadFile_lifted | apply tg_lifted].
Qed.

Lemma processUpdate_lifted cfg d : stable (lifted Rw) (processUpdate cfg d).
Proof.
  unfold processUpdate, handleMessage, consoleLog, consoleError. world_steps;
    first [apply setLastUpdateId_lifted | apply importAudio_lifted].
Qed.

Lemma forEach_lifted cfg ds : stable (lifted Rw) (forEach cfg ds).
Proof.
  induction ds as [|d ds IH]; cbn [forEach]; world_steps;
    [apply processUpdate_lifted | exact IH].
Qed.

Lemma handleReply_lifted cfg res : stable (lifted Rw) (handleReply cfg res).
Proof. unfold handleReply. world_steps. apply forEach_lifted. Qed.

Lemma backoff_lifted e : stable (lifted Rw) (backoff e).
Proof. unfold backoff, consoleError, sleep. world_steps. Qed.

Lemma pollOnce_lifted cfg fetched : stable (lifted Rw) (pollOnce cfg fetched).
Proof.
  unfold pollOnce. world_steps;
    first [apply tg_lifted | apply handleReply_lifted | apply backoff_lifted].
Qed.

Lemma pollLoop_lifted cfg script : stable (lifted Rw) (pollLoop cfg script).
Proof.
  induction script as [|f rest IH]; cbn [pollLoop]; world_steps;
    [apply pollOnce_lifted | exact IH].
Qed.

End WorldRelation.

Lemma traceGrows_refl w : traceGrows w w.
Proof. exists []. now rewrite app_nil_r. Qed.

Lemma traceGrows_trans w1 w2 w3 :
  traceGrows w1 w2 -> traceGrows w2 w3 -> traceGrows w1 w3.
Proof.
  intros [e1 H1] [e2 H2]. exists (e1 ++ e2). now rewrite H2, H1, app_assoc.
Qed.

Lemma traceGrows_emit e : stable traceGrows (emit e).
Proof. intros w. now exists [e]. Qed.

Lemma traceGrows_select q : stable traceGrows (selectFirstUser q).
Proof.
  intros w. unfold selectFirstUser, bind, await, get, ret.
  destruct q; apply traceGrows_refl.
Qed.

Lemma traceGrows_upload b key buf ctype : stable traceGrows (uploadFile b key buf ctype).
Proof.
  intros w. unfold uploadFile, bind, await, modify, ret.
  destruct b; cbn; exists []; now rewrite app_nil_r.
Qed.

Lemma traceGrows_insert q r : stable traceGrows (insertRecording q r).
Proof.
  intros w. unfold insertRecording, bind, await, get, throw, modify.
  destruct q; cbn; [|apply traceGrows_refl].
  destruct (existsb _ _); [apply traceGrows_refl|].
  destruct (existsb _ _); cbn; exists []; now rewrite app_nil_r.
Qed.

(** Every turn of the [while] loop starts with a long poll from the entry
    after the cursor. *)
Lemma pollOnce_after_request cfg fetched s :
  pollOnce cfg fetched s
  = try_catch (res <- received fetched ;; handleReply cfg res) backoff
      {| lastUpdateId := lastUpdateId s;
         world := with_trace (trace (world s) ++ [TgGetUpdates (lastUpdateId s + 1) 30])
                    (world s) |}.
Proof. reflexivity. Qed.

Lemma pollOnce_request cfg fetched s :
  exists evs,
    trace (world (snd (pollOnce cfg fetched s)))
    = trace (world s) ++ TgGetUpdates (lastUpdateId s + 1) 30 :: evs.
Proof.
  rewrite pollOnce_after_request.
  match goal with |- context [try_catch ?m ?h ?s1] =>
    assert (Hm : stable (lifted traceGrows) (try_catch m h)); [|destruct (Hm s1) as [evs Hevs]]
  end.
  - steps (lifted_refl _ traceGrows_refl) (lifted_trans _ traceGrows_trans).
    + unfold received.
      steps (lifted_refl _ traceGrows_refl) (lifted_trans _ traceGrows_trans).
    + apply (handleReply_lifted _ traceGrows_refl traceGrows_trans traceGrows_emit
               traceGrows_select traceGrows_upload traceGrows_insert).
    + apply (backoff_lifted _ traceGrows_trans traceGrows_emit).
  - exists evs. rewrite Hevs. cbn. now rewrite <- app_assoc.
Qed.

(** *** The uniqueness constraint along the loop *)

Lemma rowsFor_app user fileId rs1 rs2 :
  rowsFor user fileId (rs1 ++ rs2) = rowsFor user fileId rs1 ++ rowsFor user fileId rs2.
Proof. apply List.filter_app. Qed.

Lemma rowsFor_none_same_source r rs :
  existsb (same_source r) rs = false ->
  rowsFor (userId r) (plaudFileId r) rs = [].
Proof.
  induction rs as [|x rs IH]; intros Hex; [reflexivity|].
  cbn [existsb] in Hex. apply orb_false_iff in Hex as [Hx Hrs].
  cbn [rowsFor List.filter]. unfold same_source in Hx.
  rewrite (String.eqb_sym (userId x)), (String.eqb_sym (plaudFileId x)), Hx.
  now apply IH.
Qed.

Lemma rowsFor_some_same_source r rs :
  rowsFor (userId r) (plaudFileId r) rs <> [] ->
  existsb (same_source r) rs = true.
Proof.
  intros Hrows. destruct (existsb (same_source r) rs) eqn:Hex; [reflexivity|].
  now apply rowsFor_none_same_source in Hex.
Qed.

Lemma uniqueSources_insert r rs :
  existsb (same_source r) rs = false ->
  uniqueSources rs -> uniqueSources (rs ++ [r]).
Proof.
  intros Hex Huniq user fileId. rewrite rowsFor_app, length_app.
  cbn [rowsFor List.filter].
  destruct (String.eqb_spec (userId r) user) as [<-|]; cbn [andb];
    [|specialize (Huniq user fileId); cbn; lia].
  destruct (String.eqb_spec (plaudFileId r) fileId) as [<-|];
    [|specialize (Huniq (userId r) fileId); cbn; lia].
  rewrite (rowsFor_none_same_source r rs Hex). cbn. lia.
Qed.

Lemma keepsUnique_refl w : keepsUnique w w.
Proof. now split. Qed.

Lemma keepsUnique_trans w1 w2 w3 :
  keepsUnique w1 w2 -> keepsUnique w2 w3 -> keepsUnique w1 w3.
Proof. intros [U1 Q1] [U2 Q2]. split; [congruence | auto]. Qed.

Lemma keepsUnique_emit e : stable keepsUnique (emit e).
Proof. intros w. now split. Qed.

Lemma keepsUnique_select q : stable keepsUnique (selectFirstUser q).
Proof.
  intros w. unfold selectFirstUser, bind, await, get, ret.
  destruct q; apply keepsUnique_refl.
Qed.

Lemma keepsUnique_upload b key buf ctype : stable keepsUnique (uploadFile b key buf ctype).
Proof.
  intros w. unfold uploadFile, bind, await, modify, ret.
  destruct b; cbn; now split.
Qed.

Lemma keepsUnique_insert q r : stable keepsUnique (insertRecording q r).
Proof.
  intros w. unfold insertRecording, bind, await, get, throw, modify.
  destruct q; cbn; [|apply keepsUnique_refl].
  destruct (existsb (same_id r) _); [apply keepsUnique_refl|].
  destruct (existsb (same_source r) _) eqn:Hex; [apply keepsUnique_refl|].
  cbn. split; [reflexivity | now apply uniqueSources_insert].
Qed.

Lemma processUpdate_keepsUnique cfg d s :
  keepsUnique (world s) (world (snd (processUpdate cfg d s))).
Proof.
  apply (processUpdate_lifted _ keepsUnique_refl keepsUnique_trans keepsUnique_emit
           keepsUnique_select keepsUnique_upload keepsUnique_insert cfg d s).
Qed.

Lemma pollLoop_keepsUnique cfg script s :
  keepsUnique (world s) (world (snd (pollLoop cfg script s))).
Proof.
  apply (pollLoop_lifted _ keepsUnique_refl keepsUnique_trans keepsUnique_emit
           keepsUnique_select keepsUnique_upload keepsUnique_insert cfg script s).
Qed.

Lemma includes_In l x : includes l x = true <-> In x l.
Proof.
  unfold includes. rewrite existsb_exists. split.
  - intros (y & Hy & Heq). apply String.eqb_eq in Heq. now subst.
  - intros Hx. exists x. split; [exact Hx | apply String.eqb_refl].
Qed.

Lemma unauthorized_spec cfg sender :
  unauthorized cfg sender = true
  <-> allowedUsers cfg <> [] /\ ~ In (Js.toString (sender_id sender)) (allowedUsers cfg).
Proof.
  unfold unauthorized. rewrite andb_true_iff, negb_true_iff. split.
  - intros [Hlen Hinc]. split.
    + destruct (allowedUsers cfg); [discriminate | discriminate].
    + intros Hin. apply includes_In in Hin. congruence.
  - intros [Hne Hnin]. split.
    + destruct (allowedUsers cfg); [congruence | reflexivity].
    + destruct (includes _ _) eqn:Hinc; [|reflexivity].
      apply includes_In in Hinc. contradiction.
Qed.

End BotFacts.

(** * The claims about the bot loop *)

Import Bot Props EffFacts BotFacts.

Lemma newEvents_app w evs :
  newEvents w (with_trace (trace w ++ evs) w) = evs.
Proof. unfold newEvents. cbn. apply drop_app_length. Qed.

(** C1, as amended.  For every sequence of long-poll replies whose update
    identifiers arrive in ascending order and during which no query of the
    [users] table throws, the cursor after the run is the largest identifier
    seen (0 when there is none), whatever happens to the download, the
    storage, the insert and the acknowledgment of the single updates; and in
    every case the cursor is an update's identifier once that update has been
    taken up, whether or not its processing throws. *)
Theorem cursor_reaches_maximum_seen cfg script w :
  truthy (TELEGRAM_BOT_TOKEN cfg) = true ->
  ascendingFrom 0 (seenIds script) ->
  Forall (fun d => users_query (env d) = Ok tt) (deliveries script) ->
  lastUpdateId (snd (pollTelegramUpdates cfg script w)) = maxId (seenIds script)
  /\ forall d s, lastUpdateId (snd (processUpdate cfg d s)) = update_id (upd d).
Proof.
  intros Htoken Hasc Hq. split; [|intros d s; apply processUpdate_cursor].
  unfold pollTelegramUpdates. rewrite Htoken. cbn [negb].
  unfold bind, consoleLog, inWorld, zoom, emit, modify. cbn.
  rewrite (pollLoop_cursor cfg script Hq). cbn [lastUpdateId].
  rewrite (ascending_last_max _ 0) by (lia || assumption).
  pose proof (maxId_nonneg (seenIds script)). lia.
Qed.

(** A reply to [getUpdates] with a JSON body whose [ok] flag is not set, as
    the Bot API sends with its non-2xx statuses: the turn of the loop ends
    normally after the request alone. *)
Lemma not_ok_reply_turn cfg status r s :
  pollOnce cfg (Responded status (Json {| ok := false; result := r |})) s
  = (Ok tt,
     {| lastUpdateId := lastUpdateId s;
        world := with_trace (trace (world s) ++ [TgGetUpdates (lastUpdateId s + 1) 30])
                   (world s) |}).
Proof. reflexivity. Qed.

(** C3, at the inputs on which the code departs from it.  As long as
    [getUpdates] is answered with JSON bodies whose [ok] flag is not set,
    whatever the HTTP status, the loop sends one request after the other:
    nothing is logged and no delay is taken between two long polls. *)
Theorem not_ok_replies_are_polled_again_at_once cfg replies s :
  Forall (fun fetched => exists status r,
            fetched = Responded status (Json {| ok := false; result := r |})) replies ->
  pollLoop cfg replies s
  = (Ok tt,
     {| lastUpdateId := lastUpdateId s;
        world := with_trace
                   (trace (world s)
                      ++ repeat (TgGetUpdates (lastUpdateId s + 1) 30) (length replies))
                   (world s) |}).
Proof.
  intros Hall. revert s. induction Hall as [|fetched rest (status & r & ->) _ IH]; intros s.
  - cbn [pollLoop length repeat]. rewrite app_nil_r. now destruct s as [c []].
  - cbn [pollLoop length repeat]. unfold bind. rewrite not_ok_reply_turn, IH.
    cbn [lastUpdateId world trace with_trace]. unfold with_trace. cbn.
    now rewrite <- app_assoc.
Qed.

(** Three refusals in a row (401, 409, 429): three requests, no delay. *)
Lemma not_ok_replies_are_polled_again_at_once_witness :
  newEvents Sample.w0
    (world (exec (pollLoop Sample.cfg
                    [Responded 401 (Json {| ok := false; result := None |});
                     Responded 409 (Json {| ok := false; result := None |});
                     Responded 429 (Json {| ok := false; result := None |})])
              Sample.s0))
  = [TgGetUpdates 1 30; TgGetUpdates 1 30; TgGetUpdates 1 30].
Proof.
  unfold exec.
  rewrite (not_ok_replies_are_polled_again_at_once Sample.cfg
             [Responded 401 (Json {| ok := false; result := None |});
              Responded 409 (Json {| ok := false; result := None |});
              Responded 429 (Json {| ok := false; result := None |})] Sample.s0).
  - reflexivity.
  - repeat constructor; eexists _, _; reflexivity.
Defined.

(** The part of C3 that the code fulfils: a rejected [fetch] and a body that
    is not JSON are logged and followed by a delay of 5000 ms, after which
    the loop goes on with the next long poll. *)
Lemma transport_failure_backs_off cfg fetched s :
  fetched = Rejected \/ (exists status, fetched = Responded status NotJson) ->
  exists e,
    pollOnce cfg fetched s
    = (Ok tt,
       {| lastUpdateId := lastUpdateId s;
          world := with_trace (trace (world s)
                                 ++ [TgGetUpdates (lastUpdateId s + 1) 30;
                                     ConsoleError (PollingError e);
                                     Sleep 5000]) (world s) |})
    /\ forall rest,
         pollLoop cfg (fetched :: rest) s = pollLoop cfg rest (snd (pollOnce cfg fetched s)).
Proof.
  intros [->|[status ->]]; [exists NetworkError | exists SyntaxError];
    (split; [|intros rest; reflexivity]);
    unfold pollOnce, try_catch, bind, get, tg, received, backoff, consoleError, sleep,
      inWorld, zoom, emit, modify, throw; cbn; unfold with_trace; cbn;
    now rewrite <- !app_assoc.
Qed.

(** C4.  An update whose sender is not in a configured, non-empty allow-list
    is discarded: the turn ends normally, the tables and the blob storage
    are as before, the only event is the log line (no message is sent), the
    cursor is the update's identifier and the loop goes on with the next
    update. *)
Theorem unauthorized_sender_is_discarded cfg d msg sender s :
  message (upd d) = Some msg ->
  from msg = Some sender ->
  allowedUsers cfg <> [] ->
  ~ In (Js.toString (sender_id sender)) (allowedUsers cfg) ->
  let s' := snd (processUpdate cfg d s) in
  fst (processUpdate cfg d s) = Ok tt
  /\ recordings (world s') = recordings (world s)
  /\ blobs (world s') = blobs (world s)
  /\ newEvents (world s) (world s') = [ConsoleLog (UnauthorizedUser (sender_id sender))]
  /\ lastUpdateId s' = update_id (upd d)
  /\ forall rest, forEach cfg (d :: rest) s = forEach cfg rest s'.
Proof.
  intros Hmsg Hfrom Hne Hnin.
  assert (Hun : unauthorized cfg sender = true) by now apply unauthorized_spec.
  assert (Hrun : processUpdate cfg d s
                 = (Ok tt,
                    {| lastUpdateId := update_id (upd d);
                       world := with_trace (trace (world s)
                                  ++ [ConsoleLog (UnauthorizedUser (sender_id sender))])
                                  (world s) |})).
  { unfold processUpdate, handleMessage, bind. cbn [setLastUpdateId modify].
    rewrite Hmsg, Hfrom, Hun. reflexivity. }
  cbn zeta. rewrite Hrun. cbn [fst snd world lastUpdateId].
  repeat split; try reflexivity.
  - apply newEvents_app.
  - intros rest. cbn [forEach]. unfold bind at 1. now rewrite Hrun.
Qed.

(** C10.  An update without a message, or whose message has no sender, is
    skipped: the turn ends normally, the world is untouched (no row, no
    blob, no event, so no reply), the cursor is the update's identifier, and
    the next long poll asks for the updates after it. *)
Theorem malformed_update_is_skipped cfg d s :
  message (upd d) = None
  \/ (exists msg, message (upd d) = Some msg /\ from msg = None) ->
  processUpdate cfg d s
  = (Ok tt, {| lastUpdateId := update_id (upd d); world := world s |})
  /\ forall fetched, exists evs,
       trace (world (snd (pollOnce cfg fetched (snd (processUpdate cfg d s)))))
       = trace (world s) ++ TgGetUpdates (update_id (upd d) + 1) 30 :: evs.
Proof.
  intros Hmal.
  assert (Hrun : processUpdate cfg d s
                 = (Ok tt, {| lastUpdateId := update_id (upd d); world := world s |})).
  { unfold processUpdate, handleMessage, bind. cbn [setLastUpdateId modify].
    destruct Hmal as [->|(msg & -> & ->)]; reflexivity. }
  split; [exact Hrun|]. intros fetched. rewrite Hrun. cbn [snd].
  apply (pollOnce_request cfg fetched
           {| lastUpdateId := update_id (upd d); world := world s |}).
Qed.

(** Three updates, the second of which loses its download, and a failed
    long poll in between: the cursor ends at 3. *)
Lemma cursor_reaches_maximum_seen_witness :
  truthy (TELEGRAM_BOT_TOKEN Sample.cfg) = true
  /\ ascendingFrom 0 (seenIds Sample.scriptAscending)
  /\ Forall (fun d => users_query (env d) = Ok tt) (deliveries Sample.scriptAscending)
  /\ lastUpdateId (snd (pollTelegramUpdates Sample.cfg Sample.scriptAscending Sample.w0))
     = maxId (seenIds Sample.scriptAscending)
  /\ maxId (seenIds Sample.scriptAscending) = 3.
Proof.
  assert (Htoken : truthy (TELEGRAM_BOT_TOKEN Sample.cfg) = true) by reflexivity.
  assert (Hasc : ascendingFrom 0 (seenIds Sample.scriptAscending))
    by (cbn; repeat split; lia).
  assert (Hq : Forall (fun d => users_query (env d) = Ok tt)
                 (deliveries Sample.scriptAscending))
    by (repeat constructor).
  split; [exact Htoken|]. split; [exact Hasc|]. split; [exact Hq|].
  split; [|reflexivity].
  exact (proj1 (cursor_reaches_maximum_seen Sample.cfg Sample.scriptAscending Sample.w0
                  Htoken Hasc Hq)).
Defined.

(** C1 as worded fails in two ways.  When the query of the [users] table
    throws while the first of two updates is processed, the exception leaves
    the [for] loop and the second update of the reply is not taken up: the
    cursor is 1 and the largest identifier seen is 2.  And when identifiers do
    not ascend the cursor is the last one, not the largest. *)
Lemma cursor_can_differ_from_maximum_seen :
  (seenIds Sample.scriptDbDown = [1; 2]
   /\ lastUpdateId (snd (pollTelegramUpdates Sample.cfg Sample.scriptDbDown Sample.w0)) = 1
   /\ maxId (seenIds Sample.scriptDbDown) = 2)
  /\ (seenIds Sample.scriptUnordered = [5; 3]
      /\ lastUpdateId (snd (pollTelegramUpdates Sample.cfg Sample.scriptUnordered Sample.w0)) = 3
      /\ maxId (seenIds Sample.scriptUnordered) = 5).
Proof. vm_compute. repeat split. Qed.

(** Sender 77 against the allow-list ["42, 43"]. *)
Lemma unauthorized_sender_is_discarded_witness :
  allowedUsers Sample.cfg = ["42"; "43"]
  /\ fst (processUpdate Sample.cfg Sample.strangerDelivery Sample.s0) = Ok tt
  /\ recordings (world (snd (processUpdate Sample.cfg Sample.strangerDelivery Sample.s0))) = []
  /\ newEvents (world Sample.s0)
       (world (snd (processUpdate Sample.cfg Sample.strangerDelivery Sample.s0)))
     = [ConsoleLog (UnauthorizedUser 77)].
Proof.
  assert (Hne : allowedUsers Sample.cfg <> []) by (vm_compute; discriminate).
  assert (Hnin : ~ In (Js.toString 77) (allowedUsers Sample.cfg)).
  { vm_compute. intros [H|[H|[]]]; discriminate H. }
  pose proof (unauthorized_sender_is_discarded Sample.cfg Sample.strangerDelivery
                (Sample.voiceMsg 77 "F9" 5 1700000200)
                {| sender_id := 77; username := None |} Sample.s0
                eq_refl eq_refl Hne Hnin) as (Hok & Hrec & _ & Hev & _).
  split; [reflexivity|]. split; [exact Hok|]. split; [exact Hrec | exact Hev].
Defined.

(** The white space around an entry of the allow-list is not part of it,
    whichever white space it is: with the variable set to "42", a no-break
    space (U+00A0), ",43", the sender 42 is let in. *)
Example allow_list_entry_is_trimmed :
  allowedUsers (Sample.cfgAllowing ("42" +:+ Js.utf8 [194; 160] +:+ ",43")) = ["42"; "43"]
  /\ unauthorized (Sample.cfgAllowing ("42" +:+ Js.utf8 [194; 160] +:+ ",43"))
       {| sender_id := 42; username := None |} = false.
Proof. split; reflexivity. Qed.

(** Update 9 carries no message. *)
Lemma malformed_update_is_skipped_witness :
  processUpdate Sample.cfg (Sample.delivery 9 None (Sample.goodEnv "r9")) Sample.s0
  = (Ok tt, {| lastUpdateId := 9; world := Sample.w0 |}).
Proof.
  exact (proj1 (malformed_update_is_skipped Sample.cfg
                  (Sample.delivery 9 None (Sample.goodEnv "r9")) Sample.s0
                  (or_introl eq_refl))).
Defined.

(** ** An accepted payload, from the download to the insert *)

(** When the environment lets the import get as far as the insert, the turn
    for an accepted payload is: the log line, the two requests of the
    download, the upload of the blob, then either a uniqueness violation,
    caught and logged, or the new row followed by the acknowledgment. *)
Lemma accepted_payload_run cfg d s msg sender a u path buf loc :
  message (upd d) = Some msg ->
  from msg = Some sender ->
  unauthorized cfg sender = false ->
  voiceOrAudio msg = Some a ->
  head (users (world s)) = Some u ->
  reachesInsert (env d) path buf loc ->
  let row := recordingValues cfg (env d) msg a u buf loc in
  let stored :=
    with_blobs
      (<[storageKeyOf (env d) msg a u :=
           {| bytes := buf; contentType := Js.strOr (mime_type a) "audio/ogg" |}]>
         (blobs (world s)))
      (with_trace (trace (world s)
                     ++ [ConsoleLog (ReceivedAudio (sender_id sender));
                         TgGetFile (file_id a); FetchFile path]) (world s)) in
  processUpdate cfg d s
  = if existsb (same_id row) (recordings (world s))
       || existsb (same_source row) (recordings (world s))
    then (Ok tt,
          {| lastUpdateId := update_id (upd d);
             world := with_trace
                        (trace stored ++ [ConsoleError (ErrorProcessingAudio UniqueViolation)])
                        stored |})
    else try_catch (acknowledge (env d) msg)
           (fun err => consoleError (ErrorProcessingAudio err))
           {| lastUpdateId := update_id (upd d);
              world := with_recordings (recordings (world s) ++ [row]) stored |}.
Proof.
  intros Hmsg Hfrom Hauth Hpay Hu (Hq & [status Hget] & Hfetch & Hprov & Hback & Hins).
  intros row stored.
  unfold processUpdate, handleMessage, bind at 1. cbn [setLastUpdateId modify].
  rewrite Hmsg, Hfrom, Hauth, Hpay.
  unfold bind at 1, consoleLog at 1, inWorld at 1, zoom, emit, modify.
  cbn [fst snd world lastUpdateId].
  unfold bind at 1, inWorld at 1, zoom, selectFirstUser, bind, await, get, ret.
  rewrite Hq. cbn [fst snd world lastUpdateId users with_trace]. rewrite Hu.
  unfold try_catch at 1, importAudio.
  unfold bind at 1, downloadFile, tg, bind, inWorld, zoom, emit, modify, received.
  rewrite Hget. cbn [fst snd world lastUpdateId ok result negb ret throw].
  unfold await. rewrite Hfetch, Hprov.
  unfold uploadFile, bind, await, modify, ret. rewrite Hback.
  cbn [fst snd world lastUpdateId].
  unfold insertRecording, bind, await, get. rewrite Hins.
  cbn [fst snd world lastUpdateId recordings with_trace with_blobs].
  fold row.
  destruct (existsb (same_id row) (recordings (world s))); cbn [orb].
  - unfold throw, consoleError, inWorld, zoom, emit, modify.
    cbn [fst snd world lastUpdateId]. unfold stored, with_trace, with_blobs. cbn.
    now rewrite <- !app_assoc.
  - destruct (existsb (same_source row) (recordings (world s))).
    + unfold throw, consoleError, inWorld, zoom, emit, modify.
      cbn [fst snd world lastUpdateId]. unfold stored, with_trace, with_blobs. cbn.
      now rewrite <- !app_assoc.
    + unfold modify. cbn [fst snd world lastUpdateId].
      unfold try_catch, stored, with_recordings, with_trace, with_blobs. cbn.
      rewrite <- !app_assoc. reflexivity.
Qed.

Lemma acknowledge_run e msg s :
  exists evs,
    try_catch (acknowledge e msg) (fun err => consoleError (ErrorProcessingAudio err)) s
    = (Ok tt,
       {| lastUpdateId := lastUpdateId s;
          world := with_trace (trace (world s)
                                 ++ ConsoleLog (RecordingSaved (random_id e))
                                 :: TgSendMessage (chat_id msg) (message_id msg) :: evs)
                     (world s) |})
    /\ List.filter isSendMessage evs = [].
Proof.
  unfold try_catch, acknowledge, tg, received, bind, consoleLog, consoleError, inWorld,
    zoom, emit, modify, throw, ret.
  destruct (sendMessage_reply e) as [|status [|r]]; cbn;
    [exists [ConsoleError (ErrorProcessingAudio NetworkError)]
    |exists [ConsoleError (ErrorProcessingAudio SyntaxError)]
    |exists []];
    (split; [|reflexivity]); unfold with_trace; cbn; now rewrite <- !app_assoc.
Qed.

Lemma no_same_id r rs :
  Forall (fun x => id x <> id r) rs -> existsb (same_id r) rs = false.
Proof.
  induction 1 as [|x rs Hx _ IH]; [reflexivity|].
  cbn [existsb]. rewrite IH, orb_false_r. unfold same_id.
  apply String.eqb_neq. congruence.
Qed.

Lemma no_same_source r rs :
  rowsFor (userId r) (plaudFileId r) rs = [] -> existsb (same_source r) rs = false.
Proof.
  induction rs as [|x rs IH]; [reflexivity|].
  cbn [rowsFor List.filter existsb]. unfold same_source at 1.
  rewrite (String.eqb_sym (userId x)), (String.eqb_sym (plaudFileId x)).
  destruct (_ && _); [discriminate | exact IH].
Qed.

(** C5.  An accepted voice message of [d] seconds dated [T], whose import
    gets through (the user exists, download, upload and insert succeed, and
    no row with the same identifier or source exists), adds exactly one row,
    with duration [d * 1000] and with start and end time both the [Date]
    built from [T * 1000], which is that instant whenever it is in the range
    of a [Date]. *)
Theorem voice_recording_duration_and_times cfg d s msg sender v u path buf loc :
  message (upd d) = Some msg ->
  from msg = Some sender ->
  unauthorized cfg sender = false ->
  voice msg = Some v ->
  head (users (world s)) = Some u ->
  reachesInsert (env d) path buf loc ->
  Forall (fun x => id x <> random_id (env d)) (recordings (world s)) ->
  rowsFor (user_id u) ("tg-" +:+ voice_file_id v) (recordings (world s)) = [] ->
  exists row,
    recordings (world (snd (processUpdate cfg d s))) = recordings (world s) ++ [row]
    /\ Store.duration row = voice_duration v * 1000
    /\ startTime row = Js.newDate (date msg * 1000)
    /\ endTime row = Js.newDate (date msg * 1000)
    /\ (Z.abs (date msg * 1000) <= Js.maxTime ->
        startTime row = Js.ValidDate (date msg * 1000)
        /\ endTime row = Js.ValidDate (date msg * 1000)).
Proof.
  intros Hmsg Hfrom Hauth Hvoice Hu Hreach Hid Hsrc.
  assert (Hpay : voiceOrAudio msg = Some (ofVoice v))
    by (unfold voiceOrAudio; now rewrite Hvoice).
  rewrite (accepted_payload_run cfg d s msg sender (ofVoice v) u path buf loc
             Hmsg Hfrom Hauth Hpay Hu Hreach).
  set (row := recordingValues cfg (env d) msg (ofVoice v) u buf loc).
  rewrite (no_same_id row) by exact Hid.
  rewrite (no_same_source row) by exact Hsrc.
  cbn [orb].
  match goal with |- context [try_catch _ _ ?s1] =>
    destruct (acknowledge_run (env d) msg s1) as (evs & -> & _)
  end.
  exists row. cbn [snd world recordings with_trace with_recordings].
  split; [reflexivity|]. split.
  { cbn [row recordingValues Store.duration ofVoice duration].
    destruct (Z.eqb_spec (voice_duration v) 0) as [->|]; reflexivity. }
  split; [reflexivity|]. split; [reflexivity|].
  intros Hrange. cbn [row recordingValues startTime endTime]. unfold timestampOf.
  now rewrite JsFacts.newDate_in_range.
Qed.

(** A voice message of 12 seconds dated 1700000000. *)
Lemma voice_recording_duration_and_times_witness :
  exists row,
    recordings (world (snd (processUpdate Sample.cfg Sample.firstDelivery Sample.s0))) = [row]
    /\ Store.duration row = 12000
    /\ startTime row = Js.ValidDate 1700000000000
    /\ endTime row = Js.ValidDate 1700000000000.
Proof.
  assert (Hreach : reachesInsert (env Sample.firstDelivery) "voice/file_1.oga"
                     [Byte.x01; Byte.x02] "/data/audio").
  { repeat split. now exists 200. }
  destruct (voice_recording_duration_and_times Sample.cfg Sample.firstDelivery Sample.s0
              (Sample.voiceMsg 42 "F1" 12 1700000000)
              {| sender_id := 42; username := None |}
              {| voice_file_id := "F1"; voice_duration := 12;
                 voice_mime_type := None; voice_file_size := None |}
              {| user_id := "u1" |} "voice/file_1.oga" [Byte.x01; Byte.x02] "/data/audio"
              eq_refl eq_refl eq_refl eq_refl eq_refl Hreach (List.Forall_nil _) eq_refl)
    as (row & Hrows & Hdur & _ & _ & Hvalid).
  exists row. split; [exact Hrows|]. split; [exact Hdur|].
  apply Hvalid. vm_compute. discriminate.
Defined.

(** C2, as amended.  Let a row for the target user and the source file
    ["tg-" + file_id] exist once a first update has been processed (imported
    by it or before), and let a second accepted update with that [file_id]
    get as far as the insert.  Then the table still respects the uniqueness
    of (owning user, source file) and is unchanged; the violation raised by
    the insert does not leave the turn (no back-off follows) and the cursor
    moves on; but it is handled as any other failure of the processing: it is
    logged as an error, no acknowledgment is sent, and the blob uploaded
    before the insert stays in the storage. *)
Theorem duplicate_import_is_caught_and_logged cfg d1 d2 s msg sender a u path buf loc :
  uniqueSources (recordings (world s)) ->
  head (users (world s)) = Some u ->
  message (upd d2) = Some msg ->
  from msg = Some sender ->
  unauthorized cfg sender = false ->
  voiceOrAudio msg = Some a ->
  reachesInsert (env d2) path buf loc ->
  let s1 := exec (processUpdate cfg d1) s in
  rowsFor (user_id u) ("tg-" +:+ file_id a) (recordings (world s1)) <> [] ->
  let s2 := exec (processUpdate cfg d2) s1 in
  uniqueSources (recordings (world s2))
  /\ recordings (world s2) = recordings (world s1)
  /\ outcome (processUpdate cfg d2) s1 = Ok tt
  /\ lastUpdateId s2 = update_id (upd d2)
  /\ newEvents (world s1) (world s2)
     = [ConsoleLog (ReceivedAudio (sender_id sender)); TgGetFile (file_id a);
        FetchFile path; ConsoleError (ErrorProcessingAudio UniqueViolation)]
  /\ blobs (world s2)
     = <[storageKeyOf (env d2) msg a u :=
           {| bytes := buf; contentType := Js.strOr (mime_type a) "audio/ogg" |}]>
         (blobs (world s1)).
Proof.
  intros Huniq Hu Hmsg Hfrom Hauth Hpay Hreach s1 Hrow s2.
  destruct (processUpdate_keepsUnique cfg d1 s) as [Husers Hkeep].
  fold (exec (processUpdate cfg d1) s) in Husers, Hkeep. fold s1 in Husers, Hkeep.
  assert (Hu1 : head (users (world s1)) = Some u) by now rewrite Husers.
  pose proof (accepted_payload_run cfg d2 s1 msg sender a u path buf loc
                Hmsg Hfrom Hauth Hpay Hu1 Hreach) as Hrun.
  cbn zeta in Hrun.
  rewrite (rowsFor_some_same_source
             (recordingValues cfg (env d2) msg a u buf loc) (recordings (world s1)) Hrow),
    orb_true_r in Hrun.
  unfold s2, exec, outcome. rewrite Hrun. cbn [fst snd world lastUpdateId].
  split; [now apply Hkeep|]. split; [reflexivity|]. split; [reflexivity|].
  split; [reflexivity|]. split; [|reflexivity].
  unfold newEvents. cbn [trace with_trace with_blobs].
  rewrite <- app_assoc. apply drop_app_length.
Qed.

(** The voice message ["F1"] delivered a second time as update 2. *)
Lemma duplicate_import_is_caught_and_logged_witness :
  let s1 := exec (processUpdate Sample.cfg Sample.firstDelivery) Sample.s0 in
  let s2 := exec (processUpdate Sample.cfg Sample.secondDelivery) s1 in
  length (recordings (world s1)) = 1%nat
  /\ recordings (world s2) = recordings (world s1)
  /\ outcome (processUpdate Sample.cfg Sample.secondDelivery) s1 = Ok tt
  /\ lastUpdateId s2 = 2
  /\ newEvents (world s1) (world s2)
     = [ConsoleLog (ReceivedAudio 42); TgGetFile "F1"; FetchFile "voice/file_1.oga";
        ConsoleError (ErrorProcessingAudio UniqueViolation)].
Proof.
  intros s1 s2.
  assert (Huniq : uniqueSources (recordings (world Sample.s0)))
    by (intros user fileId; cbn; lia).
  assert (Hreach : reachesInsert (env Sample.secondDelivery) "voice/file_1.oga"
                     [Byte.x01; Byte.x02] "/data/audio").
  { repeat split. now exists 200. }
  assert (Hrow : rowsFor "u1" ("tg-" +:+ "F1") (recordings (world s1)) <> [])
    by (vm_compute; discriminate).
  destruct (duplicate_import_is_caught_and_logged Sample.cfg
              Sample.firstDelivery Sample.secondDelivery Sample.s0
              (Sample.voiceMsg 42 "F1" 12 1700000000)
              {| sender_id := 42; username := None |}
              (ofVoice {| voice_file_id := "F1"; voice_duration := 12;
                          voice_mime_type := None; voice_file_size := None |})
              {| user_id := "u1" |} "voice/file_1.oga" [Byte.x01; Byte.x02] "/data/audio"
              Huniq eq_refl eq_refl eq_refl eq_refl eq_refl Hreach Hrow)
    as (_ & Hrec & Hout & Hcur & Hev & _).
  split; [reflexivity|]. split; [exact Hrec|]. split; [exact Hout|].
  split; [exact Hcur | exact Hev].
Defined.

(** C2 as worded fails: the second delivery of a voice message that is
    already imported is not a silent no-op.  The violation is reported with
    [console.error], no acknowledgment goes out (the first delivery had one),
    and the storage holds a second blob. *)
Lemma duplicate_import_is_not_a_silent_success :
  let s1 := exec (processUpdate Sample.cfg Sample.firstDelivery) Sample.s0 in
  let s2 := exec (processUpdate Sample.cfg Sample.secondDelivery) s1 in
  ~ silentNoOp Sample.cfg Sample.secondDelivery s1
  /\ List.filter isConsoleError (newEvents (world s1) (world s2))
     = [ConsoleError (ErrorProcessingAudio UniqueViolation)]
  /\ List.filter isSendMessage (newEvents (world Sample.s0) (world s1)) = [TgSendMessage 99 7]
  /\ List.filter isSendMessage (newEvents (world s1) (world s2)) = []
  /\ size (blobs (world s1)) = 1%nat
  /\ size (blobs (world s2)) = 2%nat.
Proof.
  cbn zeta. split.
  - intros (_ & _ & Hlog). vm_compute in Hlog. discriminate Hlog.
  - vm_compute. repeat split.
Qed.

(** * The polling trigger *)

Module PollRouteFacts.

Import PollRoute.

(** The background loop never rejects its promise, so the [.catch] callback
    of the route never runs. *)
Lemma background_step cfg script w p :
  step cfg (Background script w) p = ([], p).
Proof.
  cbn [step]. rewrite BotFacts.pollTelegramUpdates_ok. now destruct (0 <? _)%nat.
Qed.

Lemma run_not_configured cfg steps p :
  truthy (TELEGRAM_BOT_TOKEN cfg) = false ->
  run cfg steps p = (repeat "Telegram bot not configured" (requests steps), p).
Proof.
  intros Htoken. induction steps as [|[|script w] rest IH]; [reflexivity | |].
  - cbn [run step requests]. unfold GET. rewrite Htoken. cbn [negb]. now rewrite IH.
  - cbn [run requests]. now rewrite background_step, IH.
Qed.

Lemma run_started cfg steps p :
  truthy (TELEGRAM_BOT_TOKEN cfg) = true ->
  isPollingStarted p = true ->
  run cfg steps p = (repeat "Polling already active" (requests steps), p).
Proof.
  intros Htoken Hflag. induction steps as [|[|script w] rest IH]; [reflexivity | |].
  - cbn [run step requests]. unfold GET. rewrite Htoken, Hflag. cbn [negb]. now rewrite IH.
  - cbn [run requests]. now rewrite background_step, IH.
Qed.

Lemma run_initial cfg steps :
  truthy (TELEGRAM_BOT_TOKEN cfg) = true ->
  run cfg steps initial
  = match requests steps with
    | O => ([], initial)
    | S k => ("Telegram polling started" :: repeat "Polling already active" k,
              {| isPollingStarted := true; loopsStarted := 1 |})
    end.
Proof.
  intros Htoken. induction steps as [|[|script w] rest IH]; [reflexivity | |].
  - cbn [run step requests]. unfold GET. rewrite Htoken. cbn [negb initial isPollingStarted].
    now rewrite (run_started cfg rest
                   {| isPollingStarted := true; loopsStarted := S (loopsStarted initial) |}
                   Htoken eq_refl).
  - cbn [run requests]. rewrite background_step, IH. now destruct (requests rest).
Qed.

End PollRouteFacts.

(** C7.  Whatever GET requests arrive and however far the background loop
    has got in between, the route calls [pollTelegramUpdates()] at most once:
    with a bot token, the first request is answered "Telegram polling
    started" and starts the one loop, and every later request is answered
    "Polling already active" and starts nothing; without a token every
    request is answered "Telegram bot not configured" and no loop starts. *)
Theorem at_most_one_polling_loop cfg steps :
  (PollRoute.loopsStarted (snd (PollRoute.run cfg steps PollRoute.initial)) <= 1)%nat
  /\ PollRoute.loopsStarted (snd (PollRoute.run cfg steps PollRoute.initial))
     = (if truthy (TELEGRAM_BOT_TOKEN cfg) then Nat.min 1 (requests steps) else 0%nat)
  /\ fst (PollRoute.run cfg steps PollRoute.initial)
     = (if truthy (TELEGRAM_BOT_TOKEN cfg) then
          match requests steps with
          | O => []
          | S k => "Telegram polling started" :: repeat "Polling already active" k
          end
        else repeat "Telegram bot not configured" (requests steps)).
Proof.
  destruct (truthy (TELEGRAM_BOT_TOKEN cfg)) eqn:Htoken.
  - rewrite (PollRouteFacts.run_initial cfg steps Htoken).
    destruct (requests steps); cbn; repeat split; lia.
  - rewrite (PollRouteFacts.run_not_configured cfg steps _ Htoken).
    cbn. repeat split; lia.
Qed.

Example three_requests_start_one_loop :
  PollRoute.run Sample.cfg
    [PollRoute.Request; PollRoute.Background Sample.scriptAscending Sample.w0;
     PollRoute.Request; PollRoute.Request] PollRoute.initial
  = (["Telegram polling started"; "Polling already active"; "Polling already active"],
     {| PollRoute.isPollingStarted := true; PollRoute.loopsStarted := 1 |}).
Proof. reflexivity. Qed.

(** * The upload route *)

Module UploadFacts.

Import UploadRoute.

#[local] Arguments hasValidExtension : simpl never.
#[local] Arguments Js.startsWith : simpl never.
#[local] Arguments Js.strOr : simpl never.

Lemma no_valid_extension file :
  Forall (fun ext => Js.endsWith (Js.toLowerCase (name file)) ext = false) validExtensions ->
  hasValidExtension file = false.
Proof.
  unfold hasValidExtension. induction 1 as [|ext exts Hext _ IH]; [reflexivity|].
  cbn [existsb]. now rewrite Hext, IH.
Qed.

(** A reply with status 200 means that the whole handler went through. *)
Lemma POST_success cfg req e w resp :
  fst (POST cfg req e w) = Ok resp ->
  status resp = 200 ->
  exists user file loc,
    session req = Ok (Some user)
    /\ formData req = Ok (IsFile file)
    /\ storage_backend e = Ok loc
    /\ existsb (same_id (recordingValues cfg e user file loc)) (recordings w) = false
    /\ existsb (same_source (recordingValues cfg e user file loc)) (recordings w) = false
    /\ POST cfg req e w
       = (Ok {| status := 200; payload := Success (recordingValues cfg e user file loc) |},
          with_recordings (recordings w ++ [recordingValues cfg e user file loc])
            (with_blobs
               (<[storageKeyOf e user file :=
                    {| bytes := content file;
                       contentType := Js.strOr (Some (type file)) "audio/mpeg" |}]> (blobs w))
               w)).
Proof.
  assert (Hno : forall (r : Response) (P : Prop),
             status r <> 200 -> Ok r = Ok resp -> status resp = 200 -> P)
    by (intros r P Hr [= <-] Hs; contradiction).
  unfold POST, store, try_catch, bind, await, uploadFile, insertRecording, consoleError,
    emit, modify, get, throw, ret.
  destruct (session req) as [[user|]|err]; cbn; try (now apply Hno).
  destruct (formData req) as [[file|str|]|err]; cbn; try (now apply Hno).
  2: { destruct (String.eqb str ""); cbn; now apply Hno. }
  destruct (negb (Js.startsWith (type file) "audio/") && negb (hasValidExtension file));
    cbn; [now apply Hno|].
  destruct (storage_provider e) as [[]|err]; cbn; [|now apply Hno].
  destruct (storage_backend e) as [loc|err]; cbn; [|now apply Hno].
  destruct (insert_query e) as [[]|err]; cbn; [|now apply Hno].
  destruct (existsb (same_id _) (recordings w)) eqn:Hid; cbn; [now apply Hno|].
  destruct (existsb (same_source _) (recordings w)) eqn:Hsrc; cbn; [now apply Hno|].
  intros _ _. exists user, file, loc. repeat split; assumption.
Qed.

(** The handler always answers: what is thrown inside is turned into the
    status 500. *)
Lemma POST_answers cfg req e w : exists resp, fst (POST cfg req e w) = Ok resp.
Proof.
  unfold POST, try_catch.
  match goal with |- context [match ?m w with _ => _ end] => destruct (m w) as [[r|err] w'] end;
    cbn; eauto.
Qed.

End UploadFacts.

(** C9.  For an authenticated request whose file has a content type that
    does not start with "audio/" and a name that, in lower case, ends with
    none of the six extensions, the answer is the status 400 with an error
    payload and the world is as before: no blob, no row, no log line. *)
Theorem non_audio_upload_is_rejected cfg req e w user file :
  UploadRoute.session req = Ok (Some user) ->
  UploadRoute.formData req = Ok (UploadRoute.IsFile file) ->
  Js.startsWith (UploadRoute.type file) "audio/" = false ->
  Forall (fun ext => Js.endsWith (Js.toLowerCase (UploadRoute.name file)) ext = false)
    [".mp3"; ".wav"; ".m4a"; ".aac"; ".ogg"; ".flac"] ->
  UploadRoute.POST cfg req e w
  = (Ok {| UploadRoute.status := 400;
           UploadRoute.payload := UploadRoute.Error "Only audio files are allowed" |},
     w).
Proof.
  intros Hsession Hform Htype Hext.
  unfold UploadRoute.POST, try_catch, bind, await. rewrite Hsession, Hform.
  now rewrite Htype, (UploadFacts.no_valid_extension file Hext).
Qed.

(** The upload of ["notes.txt"], of type ["text/plain"]. *)
Lemma non_audio_upload_is_rejected_witness :
  UploadRoute.POST Sample.cfg (Sample.uploadOf Sample.notes)
    (Sample.uploadEnv "a1" 1700000000000) Sample.w0
  = (Ok {| UploadRoute.status := 400;
           UploadRoute.payload := UploadRoute.Error "Only audio files are allowed" |},
     Sample.w0).
Proof.
  apply (non_audio_upload_is_rejected Sample.cfg (Sample.uploadOf Sample.notes)
           (Sample.uploadEnv "a1" 1700000000000) Sample.w0
           {| user_id := "u1" |} Sample.notes eq_refl eq_refl eq_refl).
  repeat constructor.
Defined.

(** C8.  Every upload answered with the status 200 has added one row, whose
    source file identifier is "manual-" followed by the identifier drawn for
    the request, whose duration is 0 and whose start and end time are the
    time of the upload.  Two such uploads of the same file by the same user
    leave two rows, which differ in their identifier and in their source file
    identifier: nothing is deduplicated. *)
Theorem manual_uploads_are_never_deduplicated cfg req e1 e2 w :
  let w1 := exec (UploadRoute.POST cfg req e1) w in
  let w2 := exec (UploadRoute.POST cfg req e2) w1 in
  (forall resp1,
     outcome (UploadRoute.POST cfg req e1) w = Ok resp1 ->
     UploadRoute.status resp1 = 200 ->
     exists user file r1,
       UploadRoute.session req = Ok (Some user)
       /\ UploadRoute.formData req = Ok (UploadRoute.IsFile file)
       /\ UploadRoute.payload resp1 = UploadRoute.Success r1
       /\ recordings w1 = recordings w ++ [r1]
       /\ manualRow user e1 r1)
  /\ (forall resp1 resp2,
        outcome (UploadRoute.POST cfg req e1) w = Ok resp1 ->
        UploadRoute.status resp1 = 200 ->
        outcome (UploadRoute.POST cfg req e2) w1 = Ok resp2 ->
        UploadRoute.status resp2 = 200 ->
        exists user r1 r2,
          recordings w2 = recordings w ++ [r1; r2]
          /\ manualRow user e1 r1
          /\ manualRow user e2 r2
          /\ id r1 <> id r2
          /\ plaudFileId r1 <> plaudFileId r2).
Proof.
  intros w1 w2. split.
  - intros resp1 Hout1 Hs1.
    destruct (UploadFacts.POST_success cfg req e1 w resp1 Hout1 Hs1)
      as (user & file & loc1 & Hsession & Hform & _ & _ & _ & Hrun1).
    exists user, file, (UploadRoute.recordingValues cfg e1 user file loc1).
    split; [exact Hsession|]. split; [exact Hform|].
    split. { unfold outcome in Hout1. rewrite Hrun1 in Hout1. now inversion Hout1. }
    split. { unfold w1, exec. now rewrite Hrun1. }
    now repeat split.
  - intros resp1 resp2 Hout1 Hs1 Hout2 Hs2.
    destruct (UploadFacts.POST_success cfg req e1 w resp1 Hout1 Hs1)
      as (user & file & loc1 & Hsession & Hform & _ & _ & _ & Hrun1).
    destruct (UploadFacts.POST_success cfg req e2 w1 resp2 Hout2 Hs2)
      as (user' & file' & loc2 & Hsession' & Hform' & _ & Hid & Hsrc & Hrun2).
    assert (user' = user) by congruence. assert (file' = file) by congruence.
    subst user' file'.
    set (r1 := UploadRoute.recordingValues cfg e1 user file loc1) in *.
    set (r2 := UploadRoute.recordingValues cfg e2 user file loc2) in *.
    assert (Hw1 : recordings w1 = recordings w ++ [r1])
      by (unfold w1, exec; now rewrite Hrun1).
    assert (Hw2 : recordings w2 = recordings w1 ++ [r2])
      by (unfold w2, exec; now rewrite Hrun2).
    rewrite Hw1, existsb_app in Hid, Hsrc.
    apply orb_false_iff in Hid as [_ Hid]. apply orb_false_iff in Hsrc as [_ Hsrc].
    cbn [existsb] in Hid, Hsrc. rewrite orb_false_r in Hid, Hsrc.
    exists user, r1, r2.
    split. { now rewrite Hw2, Hw1, <- app_assoc. }
    split. { now repeat split. }
    split. { now repeat split. }
    split.
    + unfold same_id in Hid. apply String.eqb_neq in Hid. congruence.
    + unfold same_source in Hsrc. cbn [r1 r2 UploadRoute.recordingValues userId] in Hsrc.
      rewrite String.eqb_refl in Hsrc. cbn [andb] in Hsrc.
      apply String.eqb_neq in Hsrc. congruence.
Qed.

(** Two uploads of the same file ["memo.MP3"] by the same user, one
    millisecond apart. *)
Lemma manual_uploads_are_never_deduplicated_witness :
  let req := Sample.uploadOf Sample.memo in
  let e1 := Sample.uploadEnv "a1" 1700000000000 in
  let e2 := Sample.uploadEnv "a2" 1700000000001 in
  let w1 := exec (UploadRoute.POST Sample.cfg req e1) Sample.w0 in
  let w2 := exec (UploadRoute.POST Sample.cfg req e2) w1 in
  exists r1 r2,
    recordings w2 = [r1; r2]
    /\ plaudFileId r1 = "manual-a1" /\ plaudFileId r2 = "manual-a2"
    /\ Store.duration r1 = 0 /\ Store.duration r2 = 0
    /\ id r1 <> id r2.
Proof.
  intros req e1 e2 w1 w2.
  destruct (proj2 (manual_uploads_are_never_deduplicated Sample.cfg req e1 e2 Sample.w0)
              {| UploadRoute.status := 200;
                 UploadRoute.payload :=
                   UploadRoute.Success
                     (UploadRoute.recordingValues Sample.cfg e1 {| user_id := "u1" |}
                        Sample.memo "/data/manual") |}
              {| UploadRoute.status := 200;
                 UploadRoute.payload :=
                   UploadRoute.Success
                     (UploadRoute.recordingValues Sample.cfg e2 {| user_id := "u1" |}
                        Sample.memo "/data/manual") |}
              eq_refl eq_refl eq_refl eq_refl)
    as (user & r1 & r2 & Hw2 & (_ & Hf1 & Hd1 & _) & (_ & Hf2 & Hd2 & _) & Hne & _).
  exists r1, r2. split; [exact Hw2|]. split; [exact Hf1|]. split; [exact Hf2|].
  split; [exact Hd1|]. split; [exact Hd2 | exact Hne].
Defined.

(** * The export route *)

Module ExportFacts.

Import ExportRoute Props.

Lemma append_empty_r (s : string) : s +:+ "" = s.
Proof.
  induction s as [|c s IH]; [reflexivity|].
  change (String c (s +:+ "") = String c s). now rewrite IH.
Qed.

Lemma append_assoc (s1 s2 s3 : string) : (s1 +:+ s2) +:+ s3 = s1 +:+ s2 +:+ s3.
Proof.
  induction s1 as [|c s1 IH]; [reflexivity|].
  change (String c ((s1 +:+ s2) +:+ s3) = String c (s1 +:+ s2 +:+ s3)). now rewrite IH.
Qed.

Lemma concat_flatten (l : list string) : String.concat "" l = flatten l.
Proof.
  induction l as [|x [|y l] IH]; [reflexivity | |].
  - cbn [String.concat flatten fold_right]. now rewrite append_empty_r.
  - change (x +:+ "" +:+ String.concat "" (y :: l) = x +:+ flatten (y :: l)).
    now rewrite IH.
Qed.

Lemma joinNonEmpty_flatten (l : list string) : joinNonEmpty l = flatten l.
Proof.
  unfold joinNonEmpty. rewrite concat_flatten.
  induction l as [|x l IH]; [reflexivity|].
  cbn [List.filter]. destruct (String.eqb_spec x "") as [->|]; cbn [negb].
  - exact IH.
  - cbn [flatten fold_right]. fold (flatten l).
    fold (flatten (List.filter (fun s => negb (String.eqb s "")) l)). now rewrite IH.
Qed.

Lemma flatten_app (l1 l2 : list string) : flatten (l1 ++ l2) = flatten l1 +:+ flatten l2.
Proof.
  induction l1 as [|x l1 IH]; [reflexivity|].
  change (x +:+ flatten (l1 ++ l2) = (x +:+ flatten l1) +:+ flatten l2).
  now rewrite IH, append_assoc.
Qed.

(** The piece that an element contributes stands in the joined string. *)
Lemma flatten_imap_at {A} (f : nat -> A -> string) (l : list A) (i : nat) (x : A) :
  l !! i = Some x ->
  exists before after, flatten (imap f l) = before +:+ f i x +:+ after.
Proof.
  intros Hi. pose proof (take_drop_middle l i x Hi) as Hsplit.
  pose proof (lookup_lt_Some l i x Hi) as Hlt.
  rewrite <- Hsplit, imap_app, flatten_app. cbn [imap].
  rewrite length_take, Nat.min_l, Nat.add_0_r by lia.
  eexists _, _. cbn [flatten fold_right]. reflexivity.
Qed.

Lemma flatten_map_at {A} (f : A -> string) (l : list A) (i : nat) (x : A) :
  l !! i = Some x ->
  exists before after, flatten (map f l) = before +:+ f x +:+ after.
Proof.
  intros Hi. pose proof (take_drop_middle l i x Hi) as Hsplit.
  rewrite <- Hsplit, map_app, flatten_app. cbn [map].
  eexists _, _. cbn [flatten fold_right]. reflexivity.
Qed.

Lemma endTime_valid (t dur : Z) :
  Z.abs (t + dur) <= Js.maxTime ->
  Js.newDateNum (Js.add (Js.getTime (Js.copyDate (Js.ValidDate t))) dur)
  = Js.ValidDate (t + dur).
Proof. intros H. cbn. now apply JsFacts.newDate_in_range. Qed.

End ExportFacts.

(** C6.  For a recording with a valid start time [t], a duration that leads
    to a valid end time, and a transcription whose text is not empty, the
    SRT export contains the cue of the recording, whose two timestamps are
    [t] and [t + duration], each written as the UTC time of day
    [HH:MM:SS,mmm] with two, two, two and three digits; the VTT export
    contains the cue with the same instants written as [HH:MM:SS.mmm]. *)
Theorem export_timestamps_are_zero_padded rs ts i r tr t :
  rs !! i = Some r ->
  ExportRoute.transcriptionMap (ExportRoute.userTranscriptions rs ts) !! id r = Some tr ->
  Store.text tr <> "" ->
  startTime r = Js.ValidDate t ->
  Z.abs (t + Store.duration r) <= Js.maxTime ->
  (exists before after,
     ExportRoute.exportSRT rs ts
     = before
       +:+ (Js.toString (Z.of_nat i + 1) +:+ ExportRoute.nl
            +:+ clock "," t +:+ " --> " +:+ clock "," (t + Store.duration r)
            +:+ ExportRoute.nl +:+ Store.text tr +:+ ExportRoute.nl +:+ ExportRoute.nl)
       +:+ after)
  /\ (exists before after,
        ExportRoute.exportVTT rs ts
        = "WEBVTT" +:+ ExportRoute.nl +:+ ExportRoute.nl +:+ before
          +:+ (clock "." t +:+ " --> " +:+ clock "." (t + Store.duration r)
               +:+ ExportRoute.nl +:+ Store.text tr +:+ ExportRoute.nl +:+ ExportRoute.nl)
          +:+ after)
  /\ ExportRoute.formatSRTTime (Js.ValidDate t) = clock "," t
  /\ ExportRoute.formatVTTTime (Js.ValidDate t) = clock "." t
  /\ String.length (clock "," t) = 12%nat
  /\ String.length (clock "." t) = 12%nat.
Proof.
  intros Hi Htr Htext Hstart Hend.
  apply String.eqb_neq in Htext.
  split; [|split].
  - unfold ExportRoute.exportSRT. rewrite ExportFacts.joinNonEmpty_flatten.
    destruct (ExportFacts.flatten_imap_at
                (ExportRoute.srtEntry
                   (ExportRoute.transcriptionMap (ExportRoute.userTranscriptions rs ts)))
                rs i r Hi) as (before & after & Hflat).
    exists before, after. rewrite Hflat. unfold ExportRoute.srtEntry.
    rewrite Htr, Htext, Hstart, ExportFacts.endTime_valid by exact Hend.
    unfold Js.copyDate. now rewrite !JsFacts.formatSRTTime_valid.
  - unfold ExportRoute.exportVTT. rewrite ExportFacts.joinNonEmpty_flatten.
    destruct (ExportFacts.flatten_map_at
                (ExportRoute.vttEntry
                   (ExportRoute.transcriptionMap (ExportRoute.userTranscriptions rs ts)))
                rs i r Hi) as (before & after & Hflat).
    exists before, after. rewrite Hflat. unfold ExportRoute.vttEntry.
    rewrite Htr, Htext, Hstart, ExportFacts.endTime_valid by exact Hend.
    unfold Js.copyDate. now rewrite !JsFacts.formatVTTTime_valid.
  - split; [apply JsFacts.formatSRTTime_valid|].
    split; [apply JsFacts.formatVTTTime_valid|].
    split; apply JsFacts.clock_length.
Qed.

Example export_of_two_recordings :
  ExportRoute.exportSRT Sample.twoRecordings Sample.twoTranscriptions
  = "1" +:+ ExportRoute.nl +:+ "22:13:20,000 --> 22:13:32,000" +:+ ExportRoute.nl
    +:+ "hello" +:+ ExportRoute.nl +:+ ExportRoute.nl
    +:+ "2" +:+ ExportRoute.nl +:+ "00:00:05,025 --> 01:00:05,025" +:+ ExportRoute.nl
    +:+ "world" +:+ ExportRoute.nl +:+ ExportRoute.nl
  /\ ExportRoute.exportVTT Sample.twoRecordings Sample.twoTranscriptions
     = "WEBVTT" +:+ ExportRoute.nl +:+ ExportRoute.nl
       +:+ "22:13:20.000 --> 22:13:32.000" +:+ ExportRoute.nl
       +:+ "hello" +:+ ExportRoute.nl +:+ ExportRoute.nl
       +:+ "00:00:05.025 --> 01:00:05.025" +:+ ExportRoute.nl
       +:+ "world" +:+ ExportRoute.nl +:+ ExportRoute.nl.
Proof. vm_compute. split; reflexivity. Qed.

(** The second of two recordings: it starts 5025 ms after the epoch and
    lasts one hour. *)
Lemma export_timestamps_are_zero_padded_witness :
  (exists before after,
     ExportRoute.exportSRT Sample.twoRecordings Sample.twoTranscriptions
     = before
       +:+ ("2" +:+ ExportRoute.nl +:+ "00:00:05,025 --> 01:00:05,025" +:+ ExportRoute.nl
            +:+ "world" +:+ ExportRoute.nl +:+ ExportRoute.nl)
       +:+ after)
  /\ ExportRoute.formatVTTTime (Js.ValidDate 5025) = "00:00:05.025".
Proof.
  assert (Hrange : Z.abs (5025 + 3600000) <= Js.maxTime) by (vm_compute; discriminate).
  assert (Htext : "world" <> "") by discriminate.
  destruct (export_timestamps_are_zero_padded Sample.twoRecordings Sample.twoTranscriptions
              1 (Sample.recorded "b" 5025 3600000)
              {| recordingId := "b"; Store.text := "world" |} 5025
              eq_refl eq_refl Htext eq_refl Hrange)
    as (Hsrt & _ & _ & Hvtt & _).
  split; [exact Hsrt | exact Hvtt].
Defined.

(** * Beyond the claims: the bot loop as a whole *)

Module TurnFacts.

Import Bot Props Outline EffFacts BotFacts.

#[local] Arguments recordingValues : simpl never.
#[local] Arguments storageKeyOf : simpl never.
#[local] Arguments Js.strOr : simpl never.
#[local] Arguments unauthorized : simpl never.
#[local] Arguments voiceOrAudio : simpl never.

(** Runs a turn of the [for] loop on symbolic input, one case for each way
    the environment can answer. *)
Ltac unfold_turn :=
  unfold processUpdate, handleMessage, importAudio, acknowledge, downloadFile, tg,
    received, consoleLog, consoleError, setLastUpdateId, inWorld, zoom, emit,
    selectFirstUser, uploadFile, insertRecording, try_catch, bind, await, get, modify,
    ret, throw.

Ltac simpl_world :=
  cbn [fst snd world lastUpdateId users recordings blobs trace
         with_trace with_blobs with_recordings ok result negb orb].

Ltac split_turn :=
  repeat match goal with
    | |- context [match ?x with _ => _ end] =>
        match type of x with
        | option _ => destruct x eqn:?
        | bool => destruct x eqn:?
        | Result _ => destruct x eqn:?
        | Fetched _ => destruct x eqn:?
        | Body _ => destruct x eqn:?
        | Reply _ => destruct x eqn:?
        | unit => destruct x
        end; simpl_world
    end.

(** The tables after a turn, and whether the turn throws. *)
Lemma processUpdate_table cfg d s :
  users (world (snd (processUpdate cfg d s))) = users (world s)
  /\ recordings (world (snd (processUpdate cfg d s)))
     = insertIfFree (candidate cfg d (head (users (world s)))) (recordings (world s))
  /\ (aborts cfg d = false -> fst (processUpdate cfg d s) = Ok tt)
  /\ (aborts cfg d = true -> exists e, fst (processUpdate cfg d s) = Throw e).
Proof.
  unfold candidate, aborts, acceptedPayload, downloaded, insertIfFree, collides.
  unfold_turn. simpl_world. split_turn.
  all: repeat split; try reflexivity; try discriminate; try (intros; eexists; reflexivity).
Qed.

Lemma grow_nil {A} (l : list A) : l = l ++ [].
Proof. now rewrite app_nil_r. Qed.

(** What a turn appends. *)
Lemma processUpdate_adds cfg d s :
  adds turnTally (world s) (world (snd (processUpdate cfg d s))).
Proof.
  unfold adds, turnTally, acknowledged.
  unfold_turn. simpl_world. split_turn.
  all: rewrite <- ?app_assoc; cbn [app].
  all: split; [reflexivity|]; split; [try reflexivity; try apply dom_insert_subseteq|].
  all: first
         [ exists []; eexists; split; [apply grow_nil|];
           split; [first [apply grow_nil | reflexivity]|]; cbn; repeat split; lia
         | eexists [_]; eexists; split; [reflexivity|];
           split; [reflexivity|]; cbn; repeat split; lia ].
Qed.


(** *** Composing what is appended *)

Lemma adds_compose (P Q R : list Recording -> list Event -> Prop) w1 w2 w3 :
  (forall r1 e1 r2 e2, P r1 e1 -> Q r2 e2 -> R (r1 ++ r2) (e1 ++ e2)) ->
  adds P w1 w2 -> adds Q w2 w3 -> adds R w1 w3.
Proof.
  intros HR (U1 & B1 & r1 & e1 & Hr1 & He1 & HP) (U2 & B2 & r2 & e2 & Hr2 & He2 & HQ).
  split; [congruence|]. split; [set_solver|].
  exists (r1 ++ r2), (e1 ++ e2). rewrite Hr2, Hr1, He2, He1, !app_assoc. auto.
Qed.

Lemma adds_weaken (P Q : list Recording -> list Event -> Prop) w w' :
  (forall r e, P r e -> Q r e) -> adds P w w' -> adds Q w w'.
Proof.
  intros HPQ (U & B & r & e & Hr & He & HP). split; [exact U|]. split; [exact B|].
  exists r, e. auto.
Qed.

Lemma adds_refl (P : list Recording -> list Event -> Prop) w : P [] [] -> adds P w w.
Proof.
  intros HP. split; [reflexivity|]. split; [reflexivity|].
  exists [], []. now rewrite !app_nil_r.
Qed.

(** Events alone are appended. *)
Lemma adds_events (P : list Recording -> list Event -> Prop) w evs :
  P [] evs -> adds P w (with_trace (trace w ++ evs) w).
Proof.
  intros HP. split; [reflexivity|]. split; [reflexivity|].
  exists [], evs. cbn. now rewrite app_nil_r.
Qed.

Lemma acknowledged_app r1 e1 r2 e2 :
  acknowledged r1 e1 -> acknowledged r2 e2 -> acknowledged (r1 ++ r2) (e1 ++ e2).
Proof.
  unfold acknowledged. intros [S1 L1] [S2 L2].
  rewrite !List.filter_app, !length_app. lia.
Qed.

Lemma batchTally_app r1 e1 r2 e2 :
  batchTally r1 e1 -> batchTally r2 e2 -> batchTally (r1 ++ r2) (e1 ++ e2).
Proof.
  intros (A1 & G1 & S1) (A2 & G2 & S2). split; [now apply acknowledged_app|].
  rewrite !List.filter_app, G1, G2, S1, S2. now split.
Qed.

Lemma tally_app p1 s1 p2 s2 r1 e1 r2 e2 :
  tally p1 s1 r1 e1 -> tally p2 s2 r2 e2 -> tally (p1 + p2) (s1 + s2) (r1 ++ r2) (e1 ++ e2).
Proof.
  intros (A1 & G1 & L1 & S1) (A2 & G2 & L2 & S2). split; [now apply acknowledged_app|].
  rewrite !List.filter_app, !length_app, G1, G2. split; [reflexivity|].
  split; [lia | now apply Forall_app].
Qed.

Lemma forEach_adds cfg ds :
  forall s, adds batchTally (world s) (world (snd (forEach cfg ds s))).
Proof.
  induction ds as [|d ds IH]; intros s.
  - apply adds_refl. repeat split.
  - cbn [forEach]. unfold bind.
    pose proof (processUpdate_adds cfg d s) as Hd.
    apply (adds_weaken turnTally batchTally) in Hd;
      [|intros r e (A & _ & G & S); split; [exact A | split; assumption]].
    destruct (processUpdate cfg d s) as [[[]|e] s1]; cbn [snd] in *; [|exact Hd].
    eapply adds_compose; [apply batchTally_app | exact Hd | apply IH].
Qed.

Lemma backoff_adds e s :
  adds (tally 0 1) (world s) (world (snd (backoff e s))).
Proof.
  assert (Hrun : world (snd (backoff e s))
                 = with_trace (trace (world s) ++ [ConsoleError (PollingError e); Sleep 5000])
                     (world s)).
  { unfold backoff, bind, consoleError, sleep, inWorld, zoom, emit, modify. cbn.
    unfold with_trace. cbn. now rewrite <- app_assoc. }
  rewrite Hrun. apply adds_events. repeat split; cbn; try lia. now repeat constructor.
Qed.

Lemma batch_is_tally r e : batchTally r e -> tally 0 0 r e.
Proof.
  intros (A & G & S). split; [exact A|]. rewrite G, S. cbn.
  split; [reflexivity|]. split; [lia | constructor].
Qed.

Lemma tally_more_sleeps p s1 s2 r e : (s1 <= s2)%nat -> tally p s1 r e -> tally p s2 r e.
Proof.
  intros Hle (A & G & L & S). split; [exact A|]. split; [exact G|]. split; [lia | exact S].
Qed.

Lemma tally_nothing : tally 0 1 [] [].
Proof. repeat split; cbn; try lia. constructor. Qed.

Lemma handled_adds cfg fetched s :
  adds (tally 0 1) (world s)
    (world (snd (try_catch (res <- received fetched ;; handleReply cfg res) backoff s))).
Proof.
  assert (Hthrown : forall e, adds (tally 0 1) (world s)
                                (world (snd (backoff e s)))) by (intros; apply backoff_adds).
  unfold try_catch, bind, received, handleReply.
  destruct fetched as [|status [|[[] [ds|]]]]; cbn [ok result throw ret fst snd];
    try apply Hthrown; try (apply adds_refl; apply tally_nothing).
  destruct (0 <? length ds)%nat; [|apply adds_refl; apply tally_nothing].
  pose proof (forEach_adds cfg ds s) as Hfor.
  apply (adds_weaken batchTally (tally 0 0)) in Hfor; [|apply batch_is_tally].
  destruct (forEach cfg ds s) as [[[]|e] s1]; cbn [snd] in *.
  - revert Hfor. apply adds_weaken. intros r ev. apply tally_more_sleeps. lia.
  - eapply adds_compose; [apply (tally_app 0 0 0 1) | exact Hfor | apply backoff_adds].
Qed.

Lemma pollOnce_adds cfg fetched s :
  adds (loopTally 1) (world s) (world (snd (pollOnce cfg fetched s))).
Proof.
  rewrite pollOnce_after_request.
  eapply adds_compose; [apply (tally_app 1 0 0 1) | | apply handled_adds].
  cbn [world]. apply adds_events. repeat split; cbn; try lia. constructor.
Qed.

Lemma pollLoop_adds cfg script :
  forall s, adds (loopTally (length script)) (world s) (world (snd (pollLoop cfg script s))).
Proof.
  induction script as [|f rest IH]; intros s.
  - apply adds_refl. repeat split; cbn; try lia. constructor.
  - cbn [pollLoop length]. unfold bind.
    pose proof (pollOnce_adds cfg f s) as Hone.
    pose proof (pollOnce_ok cfg f s) as Hok.
    destruct (pollOnce cfg f s) as [[[]|e] s1]; cbn [fst snd] in *; [|discriminate].
    eapply adds_compose;
      [apply (tally_app 1 1 (length rest) (length rest)) | exact Hone | apply IH].
Qed.

(** *** The table after a run *)

Lemma forEach_table cfg ds :
  forall s,
    users (world (snd (forEach cfg ds s))) = users (world s)
    /\ recordings (world (snd (forEach cfg ds s)))
       = insertAll cfg (head (users (world s))) (takenUp cfg ds) (recordings (world s)).
Proof.
  induction ds as [|d ds IH]; intros s; [now split|].
  cbn [forEach takenUp]. unfold bind.
  destruct (processUpdate_table cfg d s) as (Hu & Hr & Hok & Hthrow).
  destruct (aborts cfg d).
  - destruct (Hthrow eq_refl) as [e He].
    destruct (processUpdate cfg d s) as [[[]|e'] s1]; cbn [fst snd] in *; [discriminate|].
    split; [exact Hu | exact Hr].
  - specialize (Hok eq_refl).
    destruct (processUpdate cfg d s) as [[[]|e'] s1]; cbn [fst snd] in *; [|discriminate].
    destruct (IH s1) as [Hu1 Hr1]. split; [congruence|].
    rewrite Hr1, Hu, Hr. reflexivity.
Qed.

Lemma backoff_tables e s :
  users (world (snd (backoff e s))) = users (world s)
  /\ recordings (world (snd (backoff e s))) = recordings (world s).
Proof. now split. Qed.

Lemma pollOnce_table cfg fetched s :
  users (world (snd (pollOnce cfg fetched s))) = users (world s)
  /\ recordings (world (snd (pollOnce cfg fetched s)))
     = insertAll cfg (head (users (world s))) (takenUp cfg (updatesOf fetched))
         (recordings (world s)).
Proof.
  rewrite pollOnce_after_request.
  set (s1 := {| lastUpdateId := lastUpdateId s;
                world := with_trace (trace (world s) ++ [TgGetUpdates (lastUpdateId s + 1) 30])
                           (world s) |}).
  change (users (world s)) with (users (world s1)).
  change (recordings (world s)) with (recordings (world s1)).
  generalize s1. clear s1 s. intros s.
  unfold try_catch, bind, received, handleReply.
  destruct fetched as [|status [|[[] [ds|]]]]; cbn [ok result throw ret fst snd updatesOf];
    try (now split).
  destruct (forEach_table cfg ds s) as [Hu Hr].
  destruct ds as [|d ds]; [now split|].
  cbn [length Nat.ltb Nat.leb].
  destruct (forEach cfg (d :: ds) s) as [[[]|e] s1]; cbn [snd] in *; [now split|].
  destruct (backoff_tables e s1) as [Hu1 Hr1]. split; congruence.
Qed.

Lemma insertAll_app cfg first ds1 ds2 rs :
  insertAll cfg first (ds1 ++ ds2) rs = insertAll cfg first ds2 (insertAll cfg first ds1 rs).
Proof. unfold insertAll. now rewrite fold_left_app. Qed.

Lemma pollLoop_table cfg script :
  forall s,
    users (world (snd (pollLoop cfg script s))) = users (world s)
    /\ recordings (world (snd (pollLoop cfg script s)))
       = insertAll cfg (head (users (world s))) (takenUpAll cfg script) (recordings (world s)).
Proof.
  induction script as [|f rest IH]; intros s; [now split|].
  cbn [pollLoop takenUpAll flat_map]. unfold bind.
  destruct (pollOnce_table cfg f s) as [Hu Hr].
  pose proof (pollOnce_ok cfg f s) as Hok.
  destruct (pollOnce cfg f s) as [[[]|e] s1]; cbn [fst snd] in *; [|discriminate].
  destruct (IH s1) as [Hu1 Hr1]. split; [congruence|].
  rewrite Hr1, Hu, Hr, insertAll_app. reflexivity.
Qed.

(** *** Rows and the files they come from *)

Lemma insertAll_nothing_new cfg first ds :
  forall rs, Forall (fun d => tried (candidate cfg d first) rs) ds ->
             insertAll cfg first ds rs = rs.
Proof.
  induction ds as [|d ds IH]; intros rs Hall; [reflexivity|].
  inversion Hall as [|? ? Hd Hds]; subst.
  change (insertAll cfg first (d :: ds) rs)
    with (insertAll cfg first ds (insertIfFree (candidate cfg d first) rs)).
  assert (Hsame : insertIfFree (candidate cfg d first) rs = rs).
  { destruct (candidate cfg d first) as [r|]; [|reflexivity].
    cbn [insertIfFree tried] in *. now rewrite Hd. }
  rewrite Hsame. now apply IH.
Qed.

Lemma takenUp_In cfg d ds : In d (takenUp cfg ds) -> In d ds.
Proof.
  induction ds as [|x ds IH]; [easy|]. cbn [takenUp].
  destruct (aborts cfg x); cbn [In]; [intros [->|[]]; now left|].
  intros [->|Hin]; [now left | right; now apply IH].
Qed.

Lemma takenUpAll_In cfg d script : In d (takenUpAll cfg script) -> In d (deliveries script).
Proof.
  unfold takenUpAll, deliveries. rewrite !in_flat_map.
  intros (fetched & Hf & Hd). exists fetched. split; [exact Hf|].
  now apply (takenUp_In cfg).
Qed.

(** The row that a turn hands to the insert names the target user and the
    Telegram file of the payload. *)
Lemma candidate_source cfg d first r :
  candidate cfg d first = Some r ->
  exists msg a u,
    acceptedPayload cfg d = Some (msg, a)
    /\ first = Some u
    /\ userId r = user_id u
    /\ plaudFileId r = "tg-" +:+ file_id a.
Proof.
  unfold candidate.
  destruct (acceptedPayload cfg d) as [[msg a]|]; [|discriminate].
  destruct (users_query (env d)); [|discriminate].
  destruct first as [u|]; [|discriminate].
  destruct (downloaded (env d)); [|discriminate].
  destruct (storage_provider (env d)); [|discriminate].
  destruct (storage_backend (env d)); [|discriminate].
  destruct (insert_query (env d)); [|discriminate].
  intros [= <-]. exists msg, a, u. repeat split; reflexivity.
Qed.

Lemma alreadyImported_tried cfg first rs d :
  alreadyImported cfg first rs d -> tried (candidate cfg d first) rs.
Proof.
  intros Hdone. destruct (candidate cfg d first) as [r|] eqn:Hc; [|exact I].
  destruct (candidate_source cfg d first r Hc) as (msg & a & u & Hp & -> & Hu & Hf).
  unfold alreadyImported in Hdone. rewrite Hp in Hdone.
  cbn [tried]. unfold collides. apply orb_true_iff. right.
  apply rowsFor_some_same_source. now rewrite Hu, Hf.
Qed.

Lemma importedFrom_more cfg first ds ds' r :
  importedFrom cfg first ds r -> importedFrom cfg first (ds ++ ds') r.
Proof.
  intros (d & msg & a & u & Hin & H). exists d, msg, a, u.
  split; [apply in_or_app; now left | exact H].
Qed.

(** What the candidates of [ds] add to a table: rows of the target user
    whose sources are files of [ds], no two of them with the same source. *)
Lemma insertAll_rows cfg first ds rs :
  exists rows,
    insertAll cfg first ds rs = rs ++ rows
    /\ Forall (importedFrom cfg first ds) rows
    /\ NoDup (map plaudFileId rows).
Proof.
  induction ds as [|d ds IH] using rev_ind.
  - exists []. split; [now rewrite app_nil_r|]. split; constructor.
  - destruct IH as (rows & Hrows & Hfrom & Hnodup).
    rewrite insertAll_app.
    change (insertAll cfg first [d] (insertAll cfg first ds rs))
      with (insertIfFree (candidate cfg d first) (insertAll cfg first ds rs)).
    rewrite Hrows.
    assert (Hfrom' : Forall (importedFrom cfg first (ds ++ [d])) rows).
    { eapply List.Forall_impl; [|exact Hfrom]. intros r. apply importedFrom_more. }
    destruct (candidate cfg d first) as [r|] eqn:Hc; cbn [insertIfFree];
      [|now exists rows].
    destruct (collides r (rs ++ rows)) eqn:Hcol; [now exists rows|].
    destruct (candidate_source cfg d first r Hc) as (msg & a & u & Hp & Hfirst & Hu & Hf).
    exists (rows ++ [r]). split; [now rewrite app_assoc|]. split.
    + apply List.Forall_app. split; [exact Hfrom'|]. constructor; [|constructor].
      exists d, msg, a, u. split; [apply in_or_app; right; now left|]. now repeat split.
    + rewrite map_app. apply NoDup_app. split; [exact Hnodup|].
      split; [|apply NoDup_singleton].
      intros f Hin Hr. apply list_elem_of_singleton in Hr. subst f.
      apply list_elem_of_fmap in Hin as (x & Hx & Hin).
      apply list_elem_of_In in Hin.
      unfold collides in Hcol. apply orb_false_iff in Hcol as [_ Hsrc].
      rewrite existsb_app in Hsrc. apply orb_false_iff in Hsrc as [_ Hsrc].
      assert (Htrue : existsb (same_source r) rows = true); [|congruence].
      apply existsb_exists. exists x. split; [exact Hin|].
      rewrite List.Forall_forall in Hfrom.
      destruct (Hfrom x Hin) as (d' & msg' & a' & u' & _ & _ & Hfirst' & Hu' & _).
      assert (u' = u) by congruence. subst u'.
      unfold same_source. rewrite Hu, Hu', Hx, !String.eqb_refl. reflexivity.
Qed.

End TurnFacts.

Import Outline TurnFacts.

Lemma newEvents_of_grown w w' evs :
  trace w' = trace w ++ evs -> newEvents w w' = evs.
Proof. intros H. unfold newEvents. rewrite H. apply drop_app_length. Qed.

(** Updates whose files have a row already add none.  When every accepted
    payload among the updates of a run names a Telegram file of which the
    target user has a row (source ["tg-" + file_id]), the run leaves the
    [recordings] table as it was, whatever identifiers [nanoid()] draws and
    whatever the requests, the storage and the database answer: files that
    are delivered again, as after a restart of the process with its cursor
    back at 0, are not imported a second time. *)
Theorem redelivered_files_add_no_row cfg script w :
  Forall (alreadyImported cfg (head (users w)) (recordings w)) (deliveries script) ->
  recordings (world (snd (pollTelegramUpdates cfg script w))) = recordings w.
Proof.
  intros Hdone. unfold pollTelegramUpdates.
  destruct (negb (truthy (TELEGRAM_BOT_TOKEN cfg))); [reflexivity|].
  unfold bind, consoleLog, inWorld, zoom, emit, modify. cbn [fst snd world lastUpdateId].
  set (s0 := {| lastUpdateId := 0;
                world := with_trace (trace w ++ [ConsoleLog StartingPolling]) w |}).
  destruct (pollLoop_table cfg script s0) as [_ Hr].
  rewrite Hr. cbn [s0 world users recordings with_trace].
  apply insertAll_nothing_new.
  rewrite List.Forall_forall in Hdone. apply List.Forall_forall. intros d Hd.
  apply alreadyImported_tried, Hdone. now apply (takenUpAll_In cfg).
Qed.

(** A voice message is imported under the id "r1"; the process starts
    again and the message is delivered twice more, under new ids: still one
    row. *)
Lemma redelivered_files_add_no_row_witness :
  let w1 := world (snd (pollTelegramUpdates Sample.cfg
                          [Sample.okReply [Sample.firstDelivery]] Sample.w0)) in
  map id (recordings w1) = ["r1"]
  /\ recordings (world (snd (pollTelegramUpdates Sample.cfg Sample.redelivered w1)))
     = recordings w1.
Proof.
  intros w1. split; [reflexivity|].
  apply (redelivered_files_add_no_row Sample.cfg Sample.redelivered w1).
  repeat constructor; vm_compute; discriminate.
Defined.

(** The rows that a run of the loop adds come from the updates it was
    given: each belongs to the target user and has the source
    ["tg-" + file_id] of an accepted payload delivered in the run; and no two
    of them have the same source, however many times a file is delivered
    and whatever identifiers are drawn.  So a run adds at most one row for
    each Telegram file. *)
Theorem each_file_is_imported_at_most_once cfg script w :
  let w' := world (snd (pollTelegramUpdates cfg script w)) in
  exists rows,
    recordings w' = recordings w ++ rows
    /\ Forall (importedFrom cfg (head (users w)) (deliveries script)) rows
    /\ NoDup (map plaudFileId rows).
Proof.
  cbn zeta. unfold pollTelegramUpdates.
  destruct (negb (truthy (TELEGRAM_BOT_TOKEN cfg))).
  - exists []. cbn [snd world]. split; [now rewrite app_nil_r|]. split; constructor.
  - unfold bind, consoleLog, inWorld, zoom, emit, modify. cbn [fst snd world lastUpdateId].
    set (s0 := {| lastUpdateId := 0;
                  world := with_trace (trace w ++ [ConsoleLog StartingPolling]) w |}).
    destruct (pollLoop_table cfg script s0) as [_ Hr].
    rewrite Hr. cbn [s0 world users recordings with_trace].
    destruct (insertAll_rows cfg (head (users w)) (takenUpAll cfg script) (recordings w))
      as (rows & Hrows & Hfrom & Hnodup).
    exists rows. split; [exact Hrows|]. split; [|exact Hnodup].
    eapply List.Forall_impl; [|exact Hfrom].
    intros r (d & msg & a & u & Hin & H). exists d, msg, a, u.
    split; [now apply (takenUpAll_In cfg) | exact H].
Qed.

(** The same voice message in four updates over two responses, under two
    ids: one row. *)
Example four_deliveries_one_row :
  map plaudFileId
    (recordings
       (world (snd (pollTelegramUpdates Sample.cfg
                      [Sample.okReply [Sample.firstDelivery; Sample.secondDelivery];
                       Sample.okReply [Sample.firstDelivery; Sample.secondDelivery]]
                      Sample.w0))))
  = ["tg-F1"].
Proof. reflexivity. Qed.

(** Along every run of the loop an acknowledgment is requested, and a
    "saved" line logged, exactly as many times as rows have been added; rows
    are only appended, the [users] table is left alone and no blob key is
    lost. *)
Theorem acknowledgments_match_rows cfg script w :
  let w' := world (snd (pollTelegramUpdates cfg script w)) in
  users w' = users w
  /\ dom (blobs w) ⊆ dom (blobs w')
  /\ exists rows,
       recordings w' = recordings w ++ rows
       /\ length (List.filter isSendMessage (newEvents w w')) = length rows
       /\ length (List.filter isRecordingSaved (newEvents w w')) = length rows.
Proof.
  cbn zeta. unfold pollTelegramUpdates.
  destruct (negb (truthy (TELEGRAM_BOT_TOKEN cfg))).
  - cbn [snd world]. split; [reflexivity|]. split; [reflexivity|]. exists [].
    unfold newEvents. rewrite drop_all, app_nil_r. now repeat split.
  - unfold bind, consoleLog, inWorld, zoom, emit, modify. cbn [fst snd world lastUpdateId].
    match goal with |- context [pollLoop cfg script ?s0] =>
      destruct (pollLoop_adds cfg script s0)
        as (Hu & Hb & rows & evs & Hr & Ht & (Hs & Hl) & _)
    end.
    cbn [world users recordings blobs trace with_trace] in *.
    split; [exact Hu|]. split; [exact Hb|]. exists rows. split; [exact Hr|].
    rewrite (newEvents_of_grown w _ (ConsoleLog StartingPolling :: evs))
      by (rewrite Ht, <- app_assoc; reflexivity).
    cbn [List.filter isSendMessage isRecordingSaved]. now split.
Qed.

(** With a bot token, a run of the loop sends exactly one [getUpdates]
    request for each response it is given, whatever the responses are, and
    it is still running afterwards; it sleeps at most once per request, and
    every delay it takes is 5000 ms. *)
Theorem one_long_poll_per_response cfg script w :
  truthy (TELEGRAM_BOT_TOKEN cfg) = true ->
  let run := pollTelegramUpdates cfg script w in
  fst run = Ok tt
  /\ length (List.filter isGetUpdates (newEvents w (world (snd run)))) = length script
  /\ (length (List.filter isSleep (newEvents w (world (snd run)))) <= length script)%nat
  /\ Forall (fun e => e = Sleep 5000) (List.filter isSleep (newEvents w (world (snd run)))).
Proof.
  intros Htoken. cbn zeta. split; [apply pollTelegramUpdates_ok|].
  unfold pollTelegramUpdates. rewrite Htoken. cbn [negb].
  unfold bind, consoleLog, inWorld, zoom, emit, modify. cbn [fst snd world lastUpdateId].
  match goal with |- context [pollLoop cfg script ?s0] =>
    destruct (pollLoop_adds cfg script s0)
      as (_ & _ & rows & evs & _ & Ht & _ & Hg & Hl & Hs)
  end.
  cbn [world trace with_trace] in *.
  rewrite (newEvents_of_grown w _ (ConsoleLog StartingPolling :: evs))
    by (rewrite Ht, <- app_assoc; reflexivity).
  cbn [List.filter isGetUpdates isSleep]. now repeat split.
Qed.

Lemma one_long_poll_per_response_witness :
  let run := pollTelegramUpdates Sample.cfg Sample.scriptAscending Sample.w0 in
  fst run = Ok tt
  /\ length (List.filter isGetUpdates (newEvents Sample.w0 (world (snd run)))) = 3%nat
  /\ List.filter isSleep (newEvents Sample.w0 (world (snd run))) = [Sleep 5000].
Proof.
  destruct (one_long_poll_per_response Sample.cfg Sample.scriptAscending Sample.w0 eq_refl)
    as (Hok & Hpolls & _ & _).
  split; [exact Hok|]. split; [exact Hpolls | reflexivity].
Defined.

(** ** Single turns: where a failure leaves the world *)

Module ScenarioFacts.

Import Bot Props Outline BotFacts TurnFacts.

#[local] Arguments recordingValues : simpl never.
#[local] Arguments storageKeyOf : simpl never.
#[local] Arguments Js.strOr : simpl never.
#[local] Arguments unauthorized : simpl never.
#[local] Arguments voiceOrAudio : simpl never.

(** When [downloadFile] throws for an accepted payload, the turn still ends
    normally and only the trace changes: the error is logged, nothing is
    uploaded, inserted or acknowledged; and the file is fetched only if
    [getFile] was answered with a path.  [downloadFile] throws when the
    [getFile] request is rejected, when its reply is not JSON, has its [ok]
    flag unset or carries no result, and when the request for the file or
    the read of its body is rejected.  The status of the file response is
    not among these: the code does not read it, and the body of a 404 or
    5xx answer is a download like any other. *)
Theorem download_that_throws_stores_nothing cfg d s msg sender a u e :
  message (upd d) = Some msg ->
  from msg = Some sender ->
  unauthorized cfg sender = false ->
  voiceOrAudio msg = Some a ->
  users_query (env d) = Ok tt ->
  head (users (world s)) = Some u ->
  downloaded (env d) = Throw e ->
  exists fetches,
    processUpdate cfg d s
    = (Ok tt,
       {| lastUpdateId := update_id (upd d);
          world := with_trace
                     (trace (world s)
                        ++ ConsoleLog (ReceivedAudio (sender_id sender))
                        :: TgGetFile (file_id a)
                        :: fetches ++ [ConsoleError (ErrorProcessingAudio e)])
                     (world s) |})
    /\ (fetches = []
        \/ exists path, fetches = [FetchFile path] /\ file_fetch (env d) = Throw e).
Proof.
  intros Hmsg Hfrom Hauth Hpay Hq Hu Hdown.
  unfold downloaded in Hdown. unfold_turn. simpl_world.
  rewrite Hmsg, Hfrom, Hauth, Hpay, Hq. simpl_world. rewrite Hu.
  destruct (getFile_reply (env d)) as [|status [|[[] [path|]]]];
    cbn [ok result negb] in Hdown; simpl_world.
  - injection Hdown as <-. exists []. split; [|now left].
    unfold with_trace; cbn; now rewrite <- !app_assoc.
  - injection Hdown as <-. exists []. split; [|now left].
    unfold with_trace; cbn; now rewrite <- !app_assoc.
  - rewrite Hdown. simpl_world. exists [FetchFile path]. split; [|right; now exists path].
    unfold with_trace; cbn; now rewrite <- !app_assoc.
  - injection Hdown as <-. exists []. split; [|now left].
    unfold with_trace; cbn; now rewrite <- !app_assoc.
  - injection Hdown as <-. exists []. split; [|now left].
    unfold with_trace; cbn; now rewrite <- !app_assoc.
  - injection Hdown as <-. exists []. split; [|now left].
    unfold with_trace; cbn; now rewrite <- !app_assoc.
Qed.

(** [getFile] is refused for a voice message: one request, one error line. *)
Lemma download_that_throws_stores_nothing_witness :
  processUpdate Sample.cfg
    (Sample.delivery 1 (Some (Sample.voiceMsg 42 "F1" 12 1700000000))
       (Sample.refusedFileEnv "r1")) Sample.s0
  = (Ok tt,
     {| lastUpdateId := 1;
        world := with_trace
                   [ConsoleLog (ReceivedAudio 42); TgGetFile "F1";
                    ConsoleError (ErrorProcessingAudio GetFileFailed)] Sample.w0 |}).
Proof.
  destruct (download_that_throws_stores_nothing Sample.cfg
              (Sample.delivery 1 (Some (Sample.voiceMsg 42 "F1" 12 1700000000))
                 (Sample.refusedFileEnv "r1")) Sample.s0
              (Sample.voiceMsg 42 "F1" 12 1700000000)
              {| sender_id := 42; username := None |}
              (ofVoice {| voice_file_id := "F1"; voice_duration := 12;
                          voice_mime_type := None; voice_file_size := None |})
              {| user_id := "u1" |} GetFileFailed
              eq_refl eq_refl eq_refl eq_refl eq_refl eq_refl eq_refl)
    as (fetches & Hrun & [->|(path & _ & Hfetch)]).
  - exact Hrun.
  - discriminate Hfetch.
Defined.



(** Once the row is inserted it stays, whatever becomes of the
    acknowledgment: a rejected [sendMessage] or a reply that is not JSON is
    logged as a processing error, a JSON reply is taken as it comes (even
    with its [ok] flag unset); the turn ends normally in every case. *)
Theorem acknowledgment_failure_keeps_row cfg d s msg sender a u path buf loc :
  message (upd d) = Some msg ->
  from msg = Some sender ->
  unauthorized cfg sender = false ->
  voiceOrAudio msg = Some a ->
  head (users (world s)) = Some u ->
  reachesInsert (env d) path buf loc ->
  collides (recordingValues cfg (env d) msg a u buf loc) (recordings (world s)) = false ->
  let s' := snd (processUpdate cfg d s) in
  fst (processUpdate cfg d s) = Ok tt
  /\ recordings (world s')
     = recordings (world s) ++ [recordingValues cfg (env d) msg a u buf loc]
  /\ newEvents (world s) (world s')
     = [ConsoleLog (ReceivedAudio (sender_id sender)); TgGetFile (file_id a);
        FetchFile path; ConsoleLog (RecordingSaved (random_id (env d)));
        TgSendMessage (chat_id msg) (message_id msg)]
       ++ match sendMessage_reply (env d) with
          | Rejected => [ConsoleError (ErrorProcessingAudio NetworkError)]
          | Responded _ NotJson => [ConsoleError (ErrorProcessingAudio SyntaxError)]
          | Responded _ (Json _) => []
          end.
Proof.
  intros Hmsg Hfrom Hauth Hpay Hu Hreach Hfree. cbn zeta.
  rewrite (accepted_payload_run cfg d s msg sender a u path buf loc
             Hmsg Hfrom Hauth Hpay Hu Hreach).
  unfold collides in Hfree. rewrite Hfree.
  unfold try_catch, acknowledge, tg, received, bind, consoleLog, consoleError, inWorld,
    zoom, emit, modify, throw, ret.
  destruct (sendMessage_reply (env d)) as [|status [|r]]; simpl_world;
    (split; [reflexivity|]); (split; [reflexivity|]);
    apply newEvents_of_grown; cbn; now rewrite <- !app_assoc.
Qed.

Lemma acknowledgment_failure_keeps_row_witness :
  let s' := snd (processUpdate Sample.cfg
                   (Sample.delivery 1 (Some (Sample.voiceMsg 42 "F1" 12 1700000000))
                      (Sample.lostAckEnv "r1")) Sample.s0) in
  length (recordings (world s')) = 1%nat
  /\ newEvents Sample.w0 (world s')
     = [ConsoleLog (ReceivedAudio 42); TgGetFile "F1"; FetchFile "voice/file_1.oga";
        ConsoleLog (RecordingSaved "r1"); TgSendMessage 99 7;
        ConsoleError (ErrorProcessingAudio NetworkError)].
Proof.
  assert (Hreach : reachesInsert (Sample.lostAckEnv "r1") "voice/file_1.oga"
                     [Byte.x01; Byte.x02] "/data/audio").
  { repeat split. now exists 200. }
  destruct (acknowledgment_failure_keeps_row Sample.cfg
              (Sample.delivery 1 (Some (Sample.voiceMsg 42 "F1" 12 1700000000))
                 (Sample.lostAckEnv "r1")) Sample.s0
              (Sample.voiceMsg 42 "F1" 12 1700000000)
              {| sender_id := 42; username := None |}
              (ofVoice {| voice_file_id := "F1"; voice_duration := 12;
                          voice_mime_type := None; voice_file_size := None |})
              {| user_id := "u1" |} "voice/file_1.oga" [Byte.x01; Byte.x02] "/data/audio"
              eq_refl eq_refl eq_refl eq_refl eq_refl Hreach eq_refl)
    as (_ & Hrows & Hevents).
  cbn zeta. split; [now rewrite Hrows | exact Hevents].
Defined.

(** A message that carries neither a voice nor an audio payload, and any
    accepted payload while the [users] table is empty, lead to no request at
    all (neither to the Bot API nor to its file server) and leave the tables
    and the storage as they were; the turn ends normally with the cursor on
    the update. *)
Theorem nothing_is_requested_without_payload_or_user cfg d s msg sender :
  message (upd d) = Some msg ->
  from msg = Some sender ->
  unauthorized cfg sender = false ->
  voiceOrAudio msg = None
  \/ (users_query (env d) = Ok tt /\ users (world s) = []) ->
  let s' := snd (processUpdate cfg d s) in
  fst (processUpdate cfg d s) = Ok tt
  /\ lastUpdateId s' = update_id (upd d)
  /\ recordings (world s') = recordings (world s)
  /\ blobs (world s') = blobs (world s)
  /\ List.filter isRequest (newEvents (world s) (world s')) = [].
Proof.
  intros Hmsg Hfrom Hauth Hcase. cbn zeta.
  unfold_turn. simpl_world. rewrite Hmsg, Hfrom, Hauth.
  destruct Hcase as [Hnone|[Hq Hempty]].
  - rewrite Hnone. simpl_world. repeat split.
    unfold newEvents. now rewrite drop_all.
  - rewrite Hq. destruct (voiceOrAudio msg) as [a|]; simpl_world.
    + rewrite Hempty. cbn [head]. simpl_world. repeat split.
      unfold newEvents. cbn [trace with_trace]. now rewrite drop_app_length.
    + repeat split. unfold newEvents. now rewrite drop_all.
Qed.

Lemma nothing_is_requested_without_payload_or_user_witness :
  processUpdate Sample.cfg (Sample.delivery 3 (Some (Sample.textMsg 42)) (Sample.goodEnv "r3"))
    Sample.s0
  = (Ok tt, {| lastUpdateId := 3; world := Sample.w0 |})
  /\ List.filter isRequest
       (newEvents (world Sample.noUsers)
          (world (snd (processUpdate Sample.cfg Sample.firstDelivery Sample.noUsers)))) = [].
Proof.
  split; [reflexivity|].
  exact (proj2 (proj2 (proj2 (proj2
           (nothing_is_requested_without_payload_or_user Sample.cfg Sample.firstDelivery
              Sample.noUsers (Sample.voiceMsg 42 "F1" 12 1700000000)
              {| sender_id := 42; username := None |}
              eq_refl eq_refl eq_refl (or_intror (conj eq_refl eq_refl))))))).
Defined.


(** Two audio files with the same file name, dated in the same second and
    imported for the same user, are uploaded under one and the same storage
    key: both rows are inserted, but the storage holds the second content
    only. *)
Theorem same_name_same_second_shares_storage_key
    cfg d1 d2 s msg1 msg2 sender1 sender2 a1 a2 u name path1 path2 buf1 buf2 loc1 loc2 :
  message (upd d1) = Some msg1 -> from msg1 = Some sender1 ->
  unauthorized cfg sender1 = false -> voiceOrAudio msg1 = Some a1 ->
  message (upd d2) = Some msg2 -> from msg2 = Some sender2 ->
  unauthorized cfg sender2 = false -> voiceOrAudio msg2 = Some a2 ->
  file_name a1 = Some name -> file_name a2 = Some name -> name <> "" ->
  date msg1 = date msg2 ->
  head (users (world s)) = Some u ->
  reachesInsert (env d1) path1 buf1 loc1 ->
  reachesInsert (env d2) path2 buf2 loc2 ->
  let row1 := recordingValues cfg (env d1) msg1 a1 u buf1 loc1 in
  let row2 := recordingValues cfg (env d2) msg2 a2 u buf2 loc2 in
  collides row1 (recordings (world s)) = false ->
  collides row2 (recordings (world s) ++ [row1]) = false ->
  let s2 := exec (processUpdate cfg d2) (exec (processUpdate cfg d1) s) in
  storageKeyOf (env d1) msg1 a1 u = storageKeyOf (env d2) msg2 a2 u
  /\ recordings (world s2) = recordings (world s) ++ [row1; row2]
  /\ blobs (world s2)
     = <[storageKeyOf (env d2) msg2 a2 u :=
           {| bytes := buf2; contentType := Js.strOr (mime_type a2) "audio/ogg" |}]>
         (blobs (world s)).
Proof.
  intros Hm1 Hf1 Hu1 Hp1 Hm2 Hf2 Hu2 Hp2 Hn1 Hn2 Hname Hdate Hu Hr1 Hr2 row1 row2 Hc1 Hc2 s2.
  assert (Hkey : storageKeyOf (env d1) msg1 a1 u = storageKeyOf (env d2) msg2 a2 u).
  { unfold storageKeyOf, timestampOf, filenameOf. rewrite Hn1, Hn2, Hdate.
    unfold Js.strOr. apply String.eqb_neq in Hname. now rewrite Hname. }
  split; [exact Hkey|].
  pose proof (accepted_payload_run cfg d1 s msg1 sender1 a1 u path1 buf1 loc1
                Hm1 Hf1 Hu1 Hp1 Hu Hr1) as Hrun1.
  cbn zeta in Hrun1. fold row1 in Hrun1. unfold collides in Hc1. rewrite Hc1 in Hrun1.
  match type of Hrun1 with _ = try_catch _ _ ?s1 =>
    destruct (acknowledge_run (env d1) msg1 s1) as (evs1 & Hack1 & _)
  end.
  rewrite Hack1 in Hrun1. clear Hack1.
  set (s1 := exec (processUpdate cfg d1) s) in *.
  assert (Hs1 : s1 = snd (processUpdate cfg d1 s)) by reflexivity.
  rewrite Hrun1 in Hs1. cbn [snd lastUpdateId world] in Hs1.
  assert (Hu' : head (users (world s1)) = Some u) by (rewrite Hs1; exact Hu).
  pose proof (accepted_payload_run cfg d2 s1 msg2 sender2 a2 u path2 buf2 loc2
                Hm2 Hf2 Hu2 Hp2 Hu' Hr2) as Hrun2.
  cbn zeta in Hrun2. fold row2 in Hrun2.
  assert (Hrec1 : recordings (world s1) = recordings (world s) ++ [row1])
    by (rewrite Hs1; reflexivity).
  unfold collides in Hc2. rewrite Hrec1, Hc2 in Hrun2.
  match type of Hrun2 with _ = try_catch _ _ ?s1' =>
    destruct (acknowledge_run (env d2) msg2 s1') as (evs2 & Hack2 & _)
  end.
  rewrite Hack2 in Hrun2. clear Hack2.
  unfold s2, exec. fold s1. rewrite Hrun2.
  cbn [snd world recordings blobs with_trace with_blobs with_recordings].
  split; [now rewrite <- app_assoc|].
  rewrite Hs1. cbn [world blobs with_trace with_blobs with_recordings].
  rewrite Hkey. apply insert_insert_eq.
Qed.

(** Two audio files ["FA"] and ["FB"], both named ["memo.m4a"] and dated
    1700000300, with different contents. *)
Lemma same_name_same_second_shares_storage_key_witness :
  let d1 := Sample.delivery 1 (Some (Sample.audioMsg 42 "FA" "memo.m4a" 1700000300))
              (Sample.goodEnv "ra") in
  let d2 := Sample.delivery 2 (Some (Sample.audioMsg 42 "FB" "memo.m4a" 1700000300))
              (Sample.otherEnv "rb") in
  let s2 := exec (processUpdate Sample.cfg d2) (exec (processUpdate Sample.cfg d1) Sample.s0) in
  length (recordings (world s2)) = 2%nat
  /\ blobs (world s2)
     = {[ "telegram/u1/1700000300000-memo.m4a"
          := {| bytes := [Byte.x03; Byte.x04]; contentType := "audio/mp4" |} ]}.
Proof.
  intros d1 d2 s2.
  assert (Hr1 : reachesInsert (env d1) "voice/file_1.oga" [Byte.x01; Byte.x02] "/data/audio").
  { repeat split. now exists 200. }
  assert (Hr2 : reachesInsert (env d2) "voice/file_1.oga" [Byte.x03; Byte.x04] "/data/audio").
  { repeat split. now exists 200. }
  assert (Hname : "memo.m4a" <> "") by discriminate.
  destruct (same_name_same_second_shares_storage_key Sample.cfg d1 d2 Sample.s0
              (Sample.audioMsg 42 "FA" "memo.m4a" 1700000300)
              (Sample.audioMsg 42 "FB" "memo.m4a" 1700000300)
              {| sender_id := 42; username := None |}
              {| sender_id := 42; username := None |}
              (ofAudio {| audio_file_id := "FA"; audio_duration := 60;
                          audio_mime_type := Some "audio/mp4"; audio_file_size := Some 2;
                          audio_file_name := Some "memo.m4a" |})
              (ofAudio {| audio_file_id := "FB"; audio_duration := 60;
                          audio_mime_type := Some "audio/mp4"; audio_file_size := Some 2;
                          audio_file_name := Some "memo.m4a" |})
              {| user_id := "u1" |} "memo.m4a"
              "voice/file_1.oga" "voice/file_1.oga" [Byte.x01; Byte.x02] [Byte.x03; Byte.x04]
              "/data/audio" "/data/audio"
              eq_refl eq_refl eq_refl eq_refl eq_refl eq_refl eq_refl eq_refl
              eq_refl eq_refl Hname eq_refl eq_refl Hr1 Hr2 eq_refl eq_refl)
    as (_ & Hrows & Hblobs).
  split; [unfold s2; now rewrite Hrows | exact Hblobs].
Defined.

(** *** The allow-list *)

Lemma toString_not_empty (n : Z) : Js.toString n <> "".
Proof.
  unfold Js.toString. destruct n as [|p|p]; cbn; [discriminate | |];
    destruct (Pos.to_uint p); discriminate.
Qed.

(** Without the variable every sender is let in; with a variable that is
    set but holds no identifier (the empty string, or only commas and white
    space) every sender is locked out, since the list that [split] returns is
    never empty. *)
Theorem allow_list_unset_or_blank cfg sender :
  (TELEGRAM_ALLOWED_USERS cfg = None -> unauthorized cfg sender = false)
  /\ (forall value,
        TELEGRAM_ALLOWED_USERS cfg = Some value ->
        Forall (fun entry => entry = "") (allowedUsers cfg) ->
        unauthorized cfg sender = true).
Proof.
  unfold unauthorized, allowedUsers. split.
  - intros ->. reflexivity.
  - intros value -> Hblank.
    assert (Hne : (0 <? length (map Js.trim (Js.splitComma value)))%nat = true).
    { destruct value as [|c value]; [reflexivity|]. cbn [Js.splitComma].
      destruct (Ascii.eqb c ","); [reflexivity|].
      destruct (Js.splitComma value); reflexivity. }
    rewrite Hne. cbn [andb]. apply negb_true_iff.
    destruct (includes _ _) eqn:Hinc; [|reflexivity].
    apply includes_In in Hinc. rewrite List.Forall_forall in Hblank.
    apply Hblank in Hinc. now apply toString_not_empty in Hinc.
Qed.

Lemma allow_list_unset_or_blank_witness :
  unauthorized (Sample.cfgAllowing "") {| sender_id := 42; username := None |} = true
  /\ unauthorized (Sample.cfgAllowing " , ") {| sender_id := 42; username := None |} = true.
Proof.
  split.
  - apply (proj2 (allow_list_unset_or_blank (Sample.cfgAllowing "")
                    {| sender_id := 42; username := None |}) "" eq_refl).
    repeat constructor.
  - apply (proj2 (allow_list_unset_or_blank (Sample.cfgAllowing " , ")
                    {| sender_id := 42; username := None |}) " , " eq_refl).
    repeat constructor.
Defined.

End ScenarioFacts.

(** * Beyond the claims: the upload route *)

Module UploadMore.

Import UploadRoute Props Outline.

#[local] Arguments hasValidExtension : simpl never.
#[local] Arguments Js.startsWith : simpl never.
#[local] Arguments Js.strOr : simpl never.
#[local] Arguments recordingValues : simpl never.
#[local] Arguments storageKeyOf : simpl never.

Ltac unfold_post :=
  unfold POST, store, uploadFile, insertRecording, consoleError, emit, try_catch, bind,
    await, modify, get, throw, ret.

Ltac split_post :=
  repeat match goal with
    | |- context [match ?x with _ => _ end] =>
        match type of x with
        | option _ => destruct x eqn:?
        | bool => destruct x eqn:?
        | Result _ => destruct x eqn:?
        | FormValue => destruct x eqn:?
        | unit => destruct x
        end;
        cbn [fst snd users recordings blobs trace with_trace with_blobs with_recordings
               status payload]
    end.

(** Whatever the request and the environment, the handler answers with one
    of the statuses 200, 400, 401 and 500; the [users] table is never
    touched and the constraint of the [recordings] table is kept; only a 200
    adds a row; a 400 or a 401 leaves the whole world as it was; a 500, and
    only a 500, logs one error line. *)
Theorem upload_answers cfg req e w :
  exists resp w',
    POST cfg req e w = (Ok resp, w')
    /\ (status resp = 200 \/ status resp = 400 \/ status resp = 401 \/ status resp = 500)
    /\ users w' = users w
    /\ (uniqueSources (recordings w) -> uniqueSources (recordings w'))
    /\ (status resp <> 200 -> recordings w' = recordings w)
    /\ (status resp = 400 \/ status resp = 401 -> w' = w)
    /\ (status resp = 500 ->
        exists err, trace w' = trace w ++ [ConsoleError (ErrorUploading err)])
    /\ (status resp <> 500 -> trace w' = trace w).
Proof.
  unfold_post. split_post.
  all: eexists _, _; split; [reflexivity|].
  all: cbn [fst snd users recordings blobs trace with_trace with_blobs with_recordings
              status payload].
  all: repeat match goal with |- _ /\ _ => split end.
  all: try (intros; reflexivity).
  all: try (intros; exfalso; lia).
  all: try (intros; eexists; reflexivity).
  all: try (intros; assumption).
  all: try lia.
  all: try (intros [?|?]; (discriminate || lia)).
  all: try (intros; now destruct w).
  all: try (intros; apply BotFacts.uniqueSources_insert; assumption).
Qed.


Lemma has_valid_extension file :
  Exists (fun ext => Js.endsWith (Js.toLowerCase (name file)) ext = true) validExtensions ->
  hasValidExtension file = true.
Proof.
  unfold hasValidExtension. intros Hex. apply existsb_exists.
  apply List.Exists_exists in Hex as (ext & Hin & Hext). now exists ext.
Qed.

(** A file passes the validation if its content type starts with "audio/" or
    if its name, in whatever letter case, ends with one of the six
    extensions; with a storage and a database that answer, it is then stored
    under the content type of the file, or "audio/mpeg" if the file has
    none, and the answer is 200 with the new row. *)
Theorem audio_type_or_extension_is_stored cfg req e w user file loc :
  session req = Ok (Some user) ->
  formData req = Ok (IsFile file) ->
  Js.startsWith (type file) "audio/" = true
  \/ Exists (fun ext => Js.endsWith (Js.toLowerCase (name file)) ext = true)
       [".mp3"; ".wav"; ".m4a"; ".aac"; ".ogg"; ".flac"] ->
  storage_provider e = Ok tt ->
  storage_backend e = Ok loc ->
  insert_query e = Ok tt ->
  collides (recordingValues cfg e user file loc) (recordings w) = false ->
  POST cfg req e w
  = (Ok {| status := 200; payload := Success (recordingValues cfg e user file loc) |},
     with_recordings (recordings w ++ [recordingValues cfg e user file loc])
       (with_blobs
          (<[storageKeyOf e user file :=
               {| bytes := content file;
                  contentType := Js.strOr (Some (type file)) "audio/mpeg" |}]> (blobs w))
          w)).
Proof.
  intros Hsession Hform Hvalid Hprov Hback Hins Hfree.
  assert (Hpass : negb (Js.startsWith (type file) "audio/") && negb (hasValidExtension file)
                  = false).
  { destruct Hvalid as [->|Hext]; [reflexivity|].
    rewrite (has_valid_extension file Hext). apply andb_false_r. }
  unfold collides in Hfree. apply orb_false_iff in Hfree as [Hid Hsrc].
  unfold_post. rewrite Hsession, Hform, Hpass, Hprov, Hback, Hins.
  cbn [fst snd recordings with_blobs]. now rewrite Hid, Hsrc.
Qed.

(** ["memo.MP3"], sent as ["application/octet-stream"]. *)
Lemma audio_type_or_extension_is_stored_witness :
  exists row w',
    POST Sample.cfg (Sample.uploadOf Sample.memo) (Sample.uploadEnv "a1" 1700000000000) Sample.w0
    = (Ok {| status := 200; payload := Success row |}, w')
    /\ blobs w' !! "manual/u1/1700000000000-memo.MP3"
       = Some {| bytes := [Byte.x01; Byte.x02]; contentType := "application/octet-stream" |}.
Proof.
  eexists _, _.
  rewrite (audio_type_or_extension_is_stored Sample.cfg (Sample.uploadOf Sample.memo)
             (Sample.uploadEnv "a1" 1700000000000) Sample.w0
             {| user_id := "u1" |} Sample.memo "/data/manual" eq_refl eq_refl).
  - split; reflexivity.
  - right. apply List.Exists_cons_hd. reflexivity.
  - reflexivity.
  - reflexivity.
  - reflexivity.
  - reflexivity.
Defined.

(** When the form field ["file"] holds a text instead of a file, an empty
    text is answered like a missing file (400), and any other text makes the
    handler fail on the read of the content type: the answer is 500 and the
    error is logged. *)
Theorem text_field_instead_of_file cfg req e w user txt :
  session req = Ok (Some user) ->
  formData req = Ok (IsString txt) ->
  POST cfg req e w
  = if String.eqb txt "" then
      (Ok {| status := 400; payload := Error "No file uploaded" |}, w)
    else
      (Ok {| status := 500; payload := Error "Failed to upload recording" |},
       with_trace (trace w ++ [ConsoleError (ErrorUploading TypeError)]) w).
Proof.
  intros Hsession Hform. unfold_post. rewrite Hsession, Hform.
  now destruct (String.eqb txt "").
Qed.

Lemma text_field_instead_of_file_witness :
  POST Sample.cfg (Sample.textUpload "hello") (Sample.uploadEnv "a1" 1700000000000) Sample.w0
  = (Ok {| status := 500; payload := Error "Failed to upload recording" |},
     with_trace [ConsoleError (ErrorUploading TypeError)] Sample.w0).
Proof.
  exact (text_field_instead_of_file Sample.cfg (Sample.textUpload "hello")
           (Sample.uploadEnv "a1" 1700000000000) Sample.w0 {| user_id := "u1" |} "hello"
           eq_refl eq_refl).
Defined.



End UploadMore.

(** * Beyond the claims: the export route *)

Module ExportMore.

Import ExportRoute ExportRequest Props Outline ExportFacts.

(** The format of the export is the query parameter, or "json" when the
    parameter is missing or empty: the default format stored in the user's
    settings is never used, whatever it is. *)
Theorem stored_default_format_is_never_used param settings :
  exportFormat param settings = format param
  /\ (param = None \/ param = Some "" ->
      dispatch (exportFormat param settings) = Export "application/json" "json").
Proof.
  assert (Hformat : format param <> "").
  { unfold format, Js.strOr. destruct param as [p|]; [|discriminate].
    destruct (String.eqb_spec p ""); [discriminate | assumption]. }
  assert (Hsame : exportFormat param settings = format param).
  { unfold exportFormat, orElse. apply String.eqb_neq in Hformat. rewrite Hformat.
    unfold Js.strOr. now rewrite Hformat. }
  split; [exact Hsame|]. rewrite Hsame. intros [->| ->]; reflexivity.
Qed.

(** A user whose stored default is "srt" and who asks for no format gets
    JSON. *)
Lemma stored_default_format_is_never_used_witness :
  dispatch (exportFormat None (Some (Some "srt"))) = Export "application/json" "json".
Proof.
  apply (stored_default_format_is_never_used None (Some (Some "srt"))).
  left. reflexivity.
Defined.

Lemma srtEntry_noText tmap i r : noText tmap r -> srtEntry tmap i r = "".
Proof.
  unfold noText, srtEntry. destruct (tmap !! id r) as [t|]; [|reflexivity].
  now intros ->.
Qed.

Lemma vttEntry_noText tmap r : noText tmap r -> vttEntry tmap r = "".
Proof.
  unfold noText, vttEntry. destruct (tmap !! id r) as [t|]; [|reflexivity].
  now intros ->.
Qed.

Lemma flatten_imap_empty {A} (P : A -> Prop) (f : nat -> A -> string) (l : list A) :
  (forall i x, P x -> f i x = "") -> Forall P l -> flatten (imap f l) = "".
Proof.
  intros Hf Hall. revert f Hf.
  induction Hall as [|x l Hx _ IH]; intros f Hf; [reflexivity|].
  cbn [imap flatten fold_right]. rewrite (Hf 0%nat x Hx).
  change (flatten (imap (f ∘ S) l) = "").
  apply IH. intros i y Hy. apply (Hf (S i) y Hy).
Qed.

Lemma flatten_map_empty {A} (P : A -> Prop) (f : A -> string) (l : list A) :
  (forall x, P x -> f x = "") -> Forall P l -> flatten (map f l) = "".
Proof.
  intros Hf. induction 1 as [|x l Hx _ IH]; [reflexivity|].
  cbn [map flatten fold_right]. rewrite (Hf x Hx). exact IH.
Qed.

(** When no recording of the user has a text, the SRT export is the empty
    string and the VTT export is the header alone. *)
Theorem export_without_text_is_empty rs ts :
  Forall (noText (transcriptionMap ts)) rs ->
  exportSRT rs ts = "" /\ exportVTT rs ts = "WEBVTT" +:+ nl +:+ nl.
Proof.
  intros Hall. unfold exportSRT, exportVTT. rewrite !joinNonEmpty_flatten.
  destruct rs as [|r rs]; [split; reflexivity|].
  change (userTranscriptions (r :: rs) ts) with ts.
  rewrite (flatten_imap_empty (noText (transcriptionMap ts))),
    (flatten_map_empty (noText (transcriptionMap ts))); try assumption.
  - split; reflexivity.
  - apply vttEntry_noText.
  - intros i. apply srtEntry_noText.
Qed.

(** Recordings that have not been transcribed yet. *)
Lemma export_without_text_is_empty_witness :
  exportSRT Sample.twoRecordings [] = ""
  /\ exportVTT Sample.twoRecordings [] = "WEBVTT" +:+ nl +:+ nl.
Proof.
  apply (export_without_text_is_empty Sample.twoRecordings []).
  repeat constructor.
Defined.

Lemma transcriptionMap_snoc ts t :
  transcriptionMap (ts ++ [t]) = <[recordingId t := t]> (transcriptionMap ts).
Proof. unfold transcriptionMap. now rewrite fold_left_app. Qed.

Lemma transcriptionMap_lookup ts key :
  transcriptionMap ts !! key = lastFor key ts.
Proof.
  unfold lastFor. induction ts as [|t ts IH] using rev_ind; [reflexivity|].
  rewrite transcriptionMap_snoc, rev_app_distr. cbn [rev app List.find].
  destruct (String.eqb_spec (recordingId t) key) as [->|Hne].
  - apply lookup_insert_eq.
  - rewrite lookup_insert_ne by exact Hne. exact IH.
Qed.

Lemma srtEntry_ext m m' i r : m !! id r = m' !! id r -> srtEntry m i r = srtEntry m' i r.
Proof. unfold srtEntry. now intros ->. Qed.

Lemma vttEntry_ext m m' r : m !! id r = m' !! id r -> vttEntry m r = vttEntry m' r.
Proof. unfold vttEntry. now intros ->. Qed.

(** When the query returns several transcriptions of one recording, the SRT
    and VTT exports use the last of them and nothing of the others: two
    lists of transcriptions with the same last transcription for each
    recording of the user give the same exports, and the cue of a recording
    carries the text of its last transcription. *)
Theorem export_uses_the_last_transcription rs ts :
  (forall ts',
     (forall r, In r rs -> lastFor (id r) ts' = lastFor (id r) ts) ->
     exportSRT rs ts' = exportSRT rs ts /\ exportVTT rs ts' = exportVTT rs ts)
  /\ (forall i r tr,
        rs !! i = Some r ->
        lastFor (id r) ts = Some tr ->
        Store.text tr <> "" ->
        let startTime := Js.copyDate (startTime r) in
        let endTime :=
          Js.newDateNum (Js.add (Js.getTime startTime) (Store.duration r)) in
        (exists before after,
           exportSRT rs ts
           = before
             +:+ (Js.toString (Z.of_nat i + 1) +:+ nl
                  +:+ formatSRTTime startTime +:+ " --> " +:+ formatSRTTime endTime +:+ nl
                  +:+ Store.text tr +:+ nl +:+ nl)
             +:+ after)
        /\ (exists before after,
              exportVTT rs ts
              = "WEBVTT" +:+ nl +:+ nl +:+ before
                +:+ (formatVTTTime startTime +:+ " --> " +:+ formatVTTTime endTime +:+ nl
                     +:+ Store.text tr +:+ nl +:+ nl)
                +:+ after)).
Proof.
  split.
  - intros ts' Hlast. unfold exportSRT, exportVTT.
    destruct rs as [|r0 rs]; [split; reflexivity|].
    change (userTranscriptions (r0 :: rs) ts') with ts'.
    change (userTranscriptions (r0 :: rs) ts) with ts.
    assert (Hmap : forall r, In r (r0 :: rs) ->
              transcriptionMap ts' !! id r = transcriptionMap ts !! id r).
    { intros r Hr. rewrite !transcriptionMap_lookup. now apply Hlast. }
    split.
    + f_equal. apply imap_ext. intros i r Hi. apply srtEntry_ext, Hmap.
      apply list_elem_of_In. now apply (list_elem_of_lookup_2 _ i).
    + assert (Hcues : map (vttEntry (transcriptionMap ts')) (r0 :: rs)
                      = map (vttEntry (transcriptionMap ts)) (r0 :: rs)).
      { apply List.map_ext_in. intros r Hr. apply vttEntry_ext, Hmap, Hr. }
      now rewrite Hcues.
  - intros i r tr Hi Hlast Htext startTime endTime.
    apply String.eqb_neq in Htext.
    assert (Hsame : userTranscriptions rs ts = ts).
    { destruct rs; [discriminate | reflexivity]. }
    assert (Htr : transcriptionMap (userTranscriptions rs ts) !! id r = Some tr).
    { now rewrite Hsame, transcriptionMap_lookup. }
    split.
    + unfold exportSRT. rewrite joinNonEmpty_flatten.
      destruct (flatten_imap_at (srtEntry (transcriptionMap (userTranscriptions rs ts)))
                  rs i r Hi) as (before & after & Hflat).
      exists before, after. rewrite Hflat. unfold srtEntry. now rewrite Htr, Htext.
    + unfold exportVTT. rewrite joinNonEmpty_flatten.
      destruct (flatten_map_at (vttEntry (transcriptionMap (userTranscriptions rs ts)))
                  rs i r Hi) as (before & after & Hflat).
      exists before, after. rewrite Hflat. unfold vttEntry. now rewrite Htr, Htext.
Qed.

(** A draft of the first recording's transcription, returned before the
    final one, does not show in the exports. *)
Lemma export_uses_the_last_transcription_witness :
  exportSRT Sample.twoRecordings
    ({| recordingId := "a"; Store.text := "draft" |} :: Sample.twoTranscriptions)
  = exportSRT Sample.twoRecordings Sample.twoTranscriptions
  /\ exportVTT Sample.twoRecordings
       ({| recordingId := "a"; Store.text := "draft" |} :: Sample.twoTranscriptions)
     = exportVTT Sample.twoRecordings Sample.twoTranscriptions.
Proof.
  apply (proj1 (export_uses_the_last_transcription Sample.twoRecordings
                  Sample.twoTranscriptions)).
  intros r [<-|[<-|[]]]; reflexivity.
Defined.

(** The number of an SRT cue is the position of its recording among all the
    recordings of the user: when the first recordings have no text, the
    export begins with the cue of the first recording that has one, under
    the number of its position and not under 1. *)
Theorem srt_numbers_count_skipped_recordings pre r post ts tr :
  Forall (noText (transcriptionMap ts)) pre ->
  transcriptionMap ts !! id r = Some tr ->
  Store.text tr <> "" ->
  exists rest,
    exportSRT (pre ++ r :: post) ts
    = Js.toString (Z.of_nat (length pre) + 1) +:+ nl +:+ rest.
Proof.
  intros Hpre Htr Htext. apply String.eqb_neq in Htext.
  unfold exportSRT. rewrite joinNonEmpty_flatten.
  replace (userTranscriptions (pre ++ r :: post) ts) with ts
    by (destruct pre; reflexivity).
  rewrite imap_app, flatten_app.
  rewrite (flatten_imap_empty (noText (transcriptionMap ts)));
    [|intros i; apply srtEntry_noText|exact Hpre].
  cbn [imap flatten fold_right String.append].
  unfold srtEntry at 1. rewrite Htr, Htext, Nat.add_0_r.
  eexists. rewrite !append_assoc. reflexivity.
Qed.

(** A first recording without transcription, followed by one with a text:
    the only cue has the number 2. *)
Lemma srt_numbers_count_skipped_recordings_witness :
  exists rest,
    exportSRT Sample.twoRecordings [ {| recordingId := "b"; Store.text := "world" |} ]
    = "2" +:+ nl +:+ rest.
Proof.
  assert (Htext : "world" <> "") by discriminate.
  apply (srt_numbers_count_skipped_recordings
           [Sample.recorded "a" 1700000000000 12000] (Sample.recorded "b" 5025 3600000) []
           [ {| recordingId := "b"; Store.text := "world" |} ]
           {| recordingId := "b"; Store.text := "world" |}).
  - repeat constructor.
  - reflexivity.
  - exact Htext.
Defined.

End ExportMore.

(** * Beyond the claims: the storage route after an upload *)

Module StorageFacts.

Import UploadRoute Outline.

#[local] Arguments StorageRoute.toFixed2MB : simpl never.
#[local] Arguments Js.strOr : simpl never.

Lemma sumSizes_snoc rs r :
  StorageRoute.sumSizes (rs ++ [r]) = StorageRoute.sumSizes rs + filesize r.
Proof. unfold StorageRoute.sumSizes. now rewrite fold_left_app. Qed.

(** The answer to a user with a session when both queries succeed. *)
Lemma GET_ok sreq viewer config w console :
  StorageRoute.session sreq = Ok (Some viewer) ->
  StorageRoute.config_query sreq = Ok config ->
  StorageRoute.recordings_query sreq = Ok tt ->
  StorageRoute.GET sreq w console
  = (Ok {| StorageRoute.status := 200;
           StorageRoute.payload :=
             StorageRoute.Info
               {| StorageRoute.storageType := Js.strOr config "local";
                  StorageRoute.totalSize :=
                    StorageRoute.sumSizes (StorageRoute.userRecordings viewer w);
                  StorageRoute.totalRecordings :=
                    Z.of_nat (length (StorageRoute.userRecordings viewer w));
                  StorageRoute.totalSizeMB :=
                    StorageRoute.toFixed2MB
                      (StorageRoute.sumSizes (StorageRoute.userRecordings viewer w)) |} |},
     console).
Proof.
  intros Hs Hc Hr. unfold StorageRoute.GET, try_catch, bind, await, ret.
  now rewrite Hs, Hc, Hr.
Qed.

(** An upload answered with 200 shows in the storage figures of the user
    who made it: the total size grows by the size that the browser declared
    for the file and the number of recordings by one; the figures of every
    other user stay as they were. *)
Theorem upload_raises_storage_usage cfg req e w resp w' uploader file
    sreq viewer config console :
  POST cfg req e w = (Ok resp, w') ->
  status resp = 200 ->
  session req = Ok (Some uploader) ->
  formData req = Ok (IsFile file) ->
  StorageRoute.session sreq = Ok (Some viewer) ->
  StorageRoute.config_query sreq = Ok config ->
  StorageRoute.recordings_query sreq = Ok tt ->
  exists before after,
    usageOf (fst (StorageRoute.GET sreq w console)) = Some before
    /\ usageOf (fst (StorageRoute.GET sreq w' console)) = Some after
    /\ StorageRoute.storageType after = StorageRoute.storageType before
    /\ if String.eqb (user_id uploader) (user_id viewer)
       then StorageRoute.totalSize after = StorageRoute.totalSize before + size file
            /\ StorageRoute.totalRecordings after = StorageRoute.totalRecordings before + 1
       else after = before.
Proof.
  intros Hpost Hstatus Hsession Hform Hs Hc Hr.
  destruct (UploadFacts.POST_success cfg req e w resp) as
    (user & file' & loc & Hsession' & Hform' & _ & _ & _ & Hrun);
    [now rewrite Hpost | exact Hstatus |].
  rewrite Hsession in Hsession'. injection Hsession' as <-.
  rewrite Hform in Hform'. injection Hform' as <-.
  rewrite Hrun in Hpost. injection Hpost as _ <-.
  rewrite !(GET_ok sreq viewer config _ console Hs Hc Hr). cbn [fst usageOf].
  eexists _, _. split; [reflexivity|]. split; [reflexivity|].
  cbn [StorageRoute.storageType StorageRoute.totalSize StorageRoute.totalRecordings].
  split; [reflexivity|].
  unfold StorageRoute.userRecordings. cbn [recordings with_recordings with_blobs].
  rewrite List.filter_app. cbn [List.filter recordingValues userId].
  destruct (String.eqb (user_id uploader) (user_id viewer)).
  - rewrite sumSizes_snoc, length_app. cbn [length]. split; [reflexivity | lia].
  - now rewrite app_nil_r.
Qed.

(** The upload of a file of two bytes by the user "u1", seen by "u1". *)
Lemma upload_raises_storage_usage_witness :
  exists before after,
    usageOf (fst (StorageRoute.GET (Sample.storageRequest "u1") Sample.w0 [])) = Some before
    /\ usageOf
         (fst (StorageRoute.GET (Sample.storageRequest "u1")
                 (snd (POST Sample.cfg (Sample.uploadOf Sample.memo)
                         (Sample.uploadEnv "a1" 1700000000000) Sample.w0)) []))
       = Some after
    /\ StorageRoute.totalSize after = StorageRoute.totalSize before + 2
    /\ StorageRoute.totalRecordings after = StorageRoute.totalRecordings before + 1.
Proof.
  destruct (upload_raises_storage_usage Sample.cfg (Sample.uploadOf Sample.memo)
              (Sample.uploadEnv "a1" 1700000000000) Sample.w0
              _ _ {| user_id := "u1" |} Sample.memo
              (Sample.storageRequest "u1") {| user_id := "u1" |} None []
              eq_refl eq_refl eq_refl eq_refl eq_refl eq_refl eq_refl)
    as (before & after & Hbefore & Hafter & _ & Hsize & Hcount).
  exists before, after. split; [exact Hbefore|]. split; [exact Hafter|].
  split; [exact Hsize | exact Hcount].
Defined.

End StorageFacts.

(** * Beyond the claims: the workstation *)

Module WorkstationFacts.

Import Workstation.

Lemma findIndex_at rs i r :
  NoDup (map id rs) ->
  rs !! i = Some r ->
  findIndex (fun x => String.eqb (id x) (id r)) rs = Z.of_nat i.
Proof.
  revert i. induction rs as [|x rs IH]; intros i Hnodup Hi; [discriminate|].
  apply NoDup_cons in Hnodup as [Hx Hnodup]. cbn [findIndex].
  destruct i as [|i].
  - injection Hi as ->. now rewrite String.eqb_refl.
  - cbn in Hi. destruct (String.eqb_spec (id x) (id r)) as [Heq|_].
    + exfalso. apply Hx. rewrite Heq. apply list_elem_of_fmap.
      exists r. split; [reflexivity|]. now apply (list_elem_of_lookup_2 rs i).
    + rewrite (IH i Hnodup Hi).
      destruct (Z.ltb_spec (Z.of_nat i) 0); lia.
Qed.

Lemma onEnded_at rs i r :
  NoDup (map id rs) ->
  rs !! i = Some r ->
  onEnded rs r = rs !! Nat.min (S i) (length rs - 1).
Proof.
  intros Hnodup Hi. unfold onEnded. rewrite (findIndex_at rs i r Hnodup Hi).
  pose proof (lookup_lt_Some rs i r Hi) as Hlt.
  destruct (Z.leb_spec 0 (Z.of_nat i)); [|lia]. cbn [andb].
  destruct (Z.ltb_spec (Z.of_nat i) (Z.of_nat (length rs) - 1)).
  - replace (Z.to_nat (Z.of_nat i + 1)) with (S i) by lia.
    now rewrite Nat.min_l by lia.
  - rewrite Nat.min_r by lia. replace (length rs - 1)%nat with i by lia.
    now rewrite Hi.
Qed.

Lemma played_from rs n i r :
  NoDup (map id rs) ->
  rs !! i = Some r ->
  played rs n (Some r) = rs !! Nat.min (i + n) (length rs - 1).
Proof.
  intros Hnodup. revert i r. induction n as [|n IH]; intros i r Hi.
  - pose proof (lookup_lt_Some rs i r Hi). cbn [played].
    now rewrite Nat.add_0_r, Nat.min_l by lia.
  - cbn [played]. rewrite (onEnded_at rs i r Hnodup Hi).
    pose proof (lookup_lt_Some rs i r Hi) as Hlt.
    destruct (lookup_lt_is_Some_2 rs (Nat.min (S i) (length rs - 1))) as [r' Hr'];
      [lia|].
    rewrite Hr', (IH _ r' Hr'). f_equal. lia.
Qed.

End WorkstationFacts.

(** When the ids of the recordings are distinct, the workstation plays the
    list in its order: from the recording at position [i], after [n]
    recordings have ended the current one is the recording at position
    [i + n], and from the last one on it stays the last.  It starts at the
    first recording. *)
Theorem playback_advances_in_list_order rs n :
  NoDup (map id rs) ->
  (forall i r, rs !! i = Some r ->
     Workstation.played rs n (Some r) = rs !! Nat.min (i + n) (length rs - 1))
  /\ Workstation.played rs n (Workstation.initial rs) = rs !! Nat.min n (length rs - 1).
Proof.
  intros Hnodup. split.
  - intros i r. now apply WorkstationFacts.played_from.
  - destruct rs as [|r rs].
    + destruct n; reflexivity.
    + change (Workstation.initial (r :: rs)) with (Some r).
      now rewrite (WorkstationFacts.played_from (r :: rs) n 0 r Hnodup eq_refl).
Qed.

Lemma playback_advances_in_list_order_witness :
  Workstation.played Sample.twoRecordings 1 (Workstation.initial Sample.twoRecordings)
  = Some (Sample.recorded "b" 5025 3600000)
  /\ Workstation.played Sample.twoRecordings 5 (Workstation.initial Sample.twoRecordings)
     = Some (Sample.recorded "b" 5025 3600000).
Proof.
  assert (Hnodup : NoDup (map id Sample.twoRecordings)).
  { apply NoDup_cons. split; [|apply NoDup_singleton].
    intros Hin. apply list_elem_of_singleton in Hin. discriminate. }
  split.
  - rewrite (proj2 (playback_advances_in_list_order Sample.twoRecordings 1 Hnodup)).
    reflexivity.
  - rewrite (proj2 (playback_advances_in_list_order Sample.twoRecordings 5 Hnodup)).
    reflexivity.
Defined.

(** * Beyond the claims: the entry point of the container *)

Module EntrypointFacts.

Import Entrypoint.

Lemma waitForDatabase_ready probes :
  snd (waitForDatabase probes) = true <-> In true probes.
Proof.
  induction probes as [|[] probes IH]; cbn [waitForDatabase].
  - split; [discriminate | intros []].
  - split; [now left | reflexivity].
  - destruct (waitForDatabase probes) as [actions ready]. cbn [snd] in *.
    rewrite IH. split; [now right | intros [|]; [discriminate | assumption]].
Qed.

Lemma waitForDatabase_actions probes :
  length (List.filter isSleep2 (fst (waitForDatabase probes))) = failedFirst probes
  /\ ~ In Exec (fst (waitForDatabase probes))
  /\ ~ In Migrate (fst (waitForDatabase probes)).
Proof.
  induction probes as [|[] probes IH]; cbn [waitForDatabase].
  - repeat split; intros [].
  - repeat split; intros [|[]]; discriminate.
  - destruct (waitForDatabase probes) as [actions ready]. cbn [fst] in *.
    destruct IH as (Hn & He & Hm). cbn [List.filter isSleep2 length failedFirst].
    rewrite Hn. split; [reflexivity|].
    split; intros [|[|[|]]]; try discriminate; contradiction.
Qed.

End EntrypointFacts.

(** The entry point starts the application exactly when a probe of the
    database has succeeded and the migrations have succeeded after it.  It
    runs the migrations exactly when a probe has succeeded; when they fail
    it exits with the status 1 and starts nothing.  While every probe fails
    it stays in the waiting loop.  It sleeps once for every failed probe
    before the first success. *)
Theorem application_starts_only_after_migrations probes migrate :
  let actions := fst (Entrypoint.run probes migrate) in
  let status := snd (Entrypoint.run probes migrate) in
  (status = Entrypoint.Started <-> In true probes /\ migrate = true)
  /\ (status = Entrypoint.Exited 1 <-> In true probes /\ migrate = false)
  /\ (status = Entrypoint.Waiting <-> ~ In true probes)
  /\ (In Entrypoint.Exec actions <-> status = Entrypoint.Started)
  /\ (In Entrypoint.Migrate actions <-> In true probes)
  /\ length (List.filter Entrypoint.isSleep2 actions) = Entrypoint.failedFirst probes.
Proof.
  cbv zeta. unfold Entrypoint.run.
  pose proof (EntrypointFacts.waitForDatabase_ready probes) as Hready.
  destruct (EntrypointFacts.waitForDatabase_actions probes) as (Hsleeps & Hexec & Hmigrate).
  destruct (Entrypoint.waitForDatabase probes) as [waiting ready]. cbn [fst snd] in *.
  assert (Hnot : ready = false -> ~ In true probes).
  { intros -> Hin. apply Hready in Hin. discriminate. }
  destruct ready; [pose proof (proj1 Hready eq_refl) as Hin; destruct migrate|];
    cbn [fst snd].
  - split; [tauto|]. split; [split; [discriminate | intros [_ [=]]]|].
    split; [split; [discriminate | tauto]|].
    split; [split; [reflexivity | intros _; rewrite !in_app_iff; cbn; tauto]|].
    split; [split; [tauto | intros _; rewrite !in_app_iff; cbn; tauto]|].
    rewrite !List.filter_app, !length_app. cbn. lia.
  - split; [split; [discriminate | intros [_ [=]]]|]. split; [tauto|].
    split; [split; [discriminate | tauto]|].
    split; [split; [|discriminate]|].
    { rewrite !in_app_iff. cbn. intros [[[[|[|[]]]|]|[|[|[|[]]]]]|[|[]]];
        try discriminate; contradiction. }
    split; [split; [tauto | intros _; rewrite !in_app_iff; cbn; tauto]|].
    rewrite !List.filter_app, !length_app. cbn. lia.
  - specialize (Hnot eq_refl).
    split; [split; [discriminate | tauto]|].
    split; [split; [discriminate | tauto]|]. split; [tauto|].
    split; [split; [|discriminate]|].
    { cbn. intros [|[|]]; try discriminate; contradiction. }
    split; [split; [|tauto]|].
    { cbn. intros [|[|]]; try discriminate; contradiction. }
    cbn. exact Hsleeps.
Qed.

(** * Beyond the claims: how the storage route writes the size *)

Module DigitsFacts.

Import Props.

(** Decimal notations: a digit after a number. *)
Lemma app_digit (d e : Decimal.uint) :
  Decimal.app (Decimal.D0 d) e = Decimal.D0 (Decimal.app d e)
  /\ Decimal.app (Decimal.D1 d) e = Decimal.D1 (Decimal.app d e)
  /\ Decimal.app (Decimal.D2 d) e = Decimal.D2 (Decimal.app d e)
  /\ Decimal.app (Decimal.D3 d) e = Decimal.D3 (Decimal.app d e)
  /\ Decimal.app (Decimal.D4 d) e = Decimal.D4 (Decimal.app d e)
  /\ Decimal.app (Decimal.D5 d) e = Decimal.D5 (Decimal.app d e)
  /\ Decimal.app (Decimal.D6 d) e = Decimal.D6 (Decimal.app d e)
  /\ Decimal.app (Decimal.D7 d) e = Decimal.D7 (Decimal.app d e)
  /\ Decimal.app (Decimal.D8 d) e = Decimal.D8 (Decimal.app d e)
  /\ Decimal.app (Decimal.D9 d) e = Decimal.D9 (Decimal.app d e).
Proof.
  repeat split; apply DecimalFacts.to_list_inj; cbn [DecimalFacts.to_list];
    rewrite !DecimalFacts.app_spec; reflexivity.
Qed.

Lemma string_of_app (d e : Decimal.uint) :
  NilEmpty.string_of_uint (Decimal.app d e)
  = NilEmpty.string_of_uint d +:+ NilEmpty.string_of_uint e.
Proof.
  induction d as [|d IH|d IH|d IH|d IH|d IH|d IH|d IH|d IH|d IH|d IH];
    [now rewrite DecimalFacts.app_nil_l|..];
    destruct (app_digit d e) as (H0 & H1 & H2 & H3 & H4 & H5 & H6 & H7 & H8 & H9);
    rewrite ?H0, ?H1, ?H2, ?H3, ?H4, ?H5, ?H6, ?H7, ?H8, ?H9;
    cbn [NilEmpty.string_of_uint]; rewrite IH; reflexivity.
Qed.

(** The value of a notation that ends with the digit [e]. *)
Lemma of_uint_app (d e : Decimal.uint) :
  Decimal.nb_digits e = 1%nat ->
  N.of_uint (Decimal.app d e) = (10 * N.of_uint d + N.of_uint e)%N.
Proof.
  intros He. unfold N.of_uint. rewrite !DecimalPos.Unsigned.of_uint_alt.
  assert (Hrev : Decimal.rev (Decimal.app d e)
                 = Decimal.app e (Decimal.rev d)).
  { apply DecimalFacts.to_list_inj.
    rewrite DecimalFacts.rev_spec, !DecimalFacts.app_spec, DecimalFacts.rev_spec,
      List.rev_app_distr.
    f_equal. destruct e as [|e|e|e|e|e|e|e|e|e|e]; try discriminate;
      destruct e; try discriminate; reflexivity. }
  rewrite Hrev.
  destruct (app_digit Decimal.Nil (Decimal.rev d))
    as (H0 & H1 & H2 & H3 & H4 & H5 & H6 & H7 & H8 & H9).
  rewrite DecimalFacts.app_nil_l in *.
  destruct e as [|e|e|e|e|e|e|e|e|e|e]; try discriminate;
    destruct e; try discriminate;
    rewrite ?H0, ?H1, ?H2, ?H3, ?H4, ?H5, ?H6, ?H7, ?H8, ?H9;
    cbn [DecimalPos.Unsigned.of_lu Decimal.rev Decimal.revapp]; lia.
Qed.

(** The notation of a positive number begins with a digit other than 0. *)
Lemma to_uint_head (q : N) :
  (0 < q)%N ->
  forall e, Decimal.unorm (Decimal.app (N.to_uint q) e) = Decimal.app (N.to_uint q) e.
Proof.
  intros Hq e.
  pose proof (DecimalN.Unsigned.to_of (N.to_uint q)) as Hnorm.
  rewrite DecimalN.Unsigned.of_to in Hnorm.
  assert (Hnz : Decimal.nzhead (N.to_uint q) <> Decimal.Nil).
  { intros Hnil. apply DecimalFacts.unorm_0 in Hnil. rewrite <- Hnorm in Hnil.
    pose proof (DecimalN.Unsigned.of_to q) as Hq'. rewrite Hnil in Hq'.
    cbn in Hq'. lia. }
  rewrite (DecimalFacts.unorm_nzhead _ Hnz) in Hnorm.
  destruct (N.to_uint q) as [|d|d|d|d|d|d|d|d|d|d] eqn:Hd.
  - now contradiction Hnz.
  - exfalso. now apply (DecimalFacts.nzhead_nonzero (Decimal.D0 d) d).
  - now rewrite (proj1 (proj2 (app_digit d e))).
  - now rewrite (proj1 (proj2 (proj2 (app_digit d e)))).
  - now rewrite (proj1 (proj2 (proj2 (proj2 (app_digit d e))))).
  - now rewrite (proj1 (proj2 (proj2 (proj2 (proj2 (app_digit d e)))))).
  - now rewrite (proj1 (proj2 (proj2 (proj2 (proj2 (proj2 (app_digit d e))))))).
  - now rewrite (proj1 (proj2 (proj2 (proj2 (proj2 (proj2 (proj2 (app_digit d e)))))))).
  - now rewrite (proj1 (proj2 (proj2 (proj2 (proj2 (proj2 (proj2 (proj2 (app_digit d e))))))))).
  - now rewrite (proj1 (proj2 (proj2 (proj2 (proj2 (proj2 (proj2 (proj2 (proj2 (app_digit d e)))))))))).
  - now rewrite (proj2 (proj2 (proj2 (proj2 (proj2 (proj2 (proj2 (proj2 (proj2 (app_digit d e)))))))))).
Qed.

Lemma to_uint_app (q : N) (e : Decimal.uint) :
  (0 < q)%N ->
  Decimal.nb_digits e = 1%nat ->
  N.to_uint (10 * q + N.of_uint e) = Decimal.app (N.to_uint q) e.
Proof.
  intros Hq He.
  rewrite <- (DecimalN.Unsigned.of_to q) at 1.
  rewrite <- (of_uint_app (N.to_uint q) e He), DecimalN.Unsigned.to_of.
  now apply to_uint_head.
Qed.

Lemma toString_N (z : Z) :
  0 <= z -> Js.toString z = NilEmpty.string_of_uint (N.to_uint (Z.to_N z)).
Proof.
  intros Hz. unfold Js.toString. destruct z as [|p|p]; [reflexivity| |lia].
  cbn [Z.to_int Z.to_N N.to_uint NilZero.string_of_int NilZero.string_of_uint].
  pose proof (DecimalPos.Unsigned.to_uint_nonnil p).
  now destruct (Pos.to_uint p).
Qed.

(** The last digit of a number of several digits. *)
Lemma toString_digit (q a : Z) :
  0 < q -> 0 <= a < 10 ->
  Js.toString (10 * q + a) = Js.toString q +:+ String (digit a) "".
Proof.
  intros Hq Ha. rewrite !toString_N by lia.
  assert (Hsplit : forall e, Decimal.nb_digits e = 1%nat -> Z.of_N (N.of_uint e) = a ->
             NilEmpty.string_of_uint (N.to_uint (Z.to_N (10 * q + a)))
             = NilEmpty.string_of_uint (N.to_uint (Z.to_N q)) +:+ NilEmpty.string_of_uint e).
  { intros e He Hval. rewrite <- string_of_app, <- to_uint_app by (assumption || lia).
    do 2 f_equal. lia. }
  assert (Hcases : a = 0 \/ a = 1 \/ a = 2 \/ a = 3 \/ a = 4 \/ a = 5 \/ a = 6 \/ a = 7
                   \/ a = 8 \/ a = 9) by lia.
  destruct Hcases as [->|[->|[->|[->|[->|[->|[->|[->|[->| ->]]]]]]]]].
  - apply (Hsplit (Decimal.D0 Decimal.Nil)); reflexivity.
  - apply (Hsplit (Decimal.D1 Decimal.Nil)); reflexivity.
  - apply (Hsplit (Decimal.D2 Decimal.Nil)); reflexivity.
  - apply (Hsplit (Decimal.D3 Decimal.Nil)); reflexivity.
  - apply (Hsplit (Decimal.D4 Decimal.Nil)); reflexivity.
  - apply (Hsplit (Decimal.D5 Decimal.Nil)); reflexivity.
  - apply (Hsplit (Decimal.D6 Decimal.Nil)); reflexivity.
  - apply (Hsplit (Decimal.D7 Decimal.Nil)); reflexivity.
  - apply (Hsplit (Decimal.D8 Decimal.Nil)); reflexivity.
  - apply (Hsplit (Decimal.D9 Decimal.Nil)); reflexivity.
Qed.

Lemma substring_prefix (a b : string) :
  String.substring 0 (String.length a) (a +:+ b) = a.
Proof.
  induction a as [|c a IH]; [now destruct b|].
  change (String c (String.substring 0 (String.length a) (a +:+ b)) = String c a).
  now rewrite IH.
Qed.

Lemma substring_whole (b : string) : String.substring 0 (String.length b) b = b.
Proof.
  induction b as [|c b IH]; [reflexivity|]. cbn [String.length String.substring].
  now rewrite IH.
Qed.

Lemma substring_suffix (a b : string) :
  String.substring (String.length a) (String.length b) (a +:+ b) = b.
Proof.
  induction a as [|c a IH]; [apply substring_whole | exact IH].
Qed.

(** The digits that [toFixed(2)] writes for the integer [n] of hundredths. *)
Lemma fixed2_digits (n : Z) :
  0 <= n ->
  StorageRoute.fixed2 n = Js.toString (n / 100) +:+ "." +:+ twoDigits (n mod 100).
Proof.
  intros Hn. destruct (Z.ltb_spec n 100) as [Hsmall|Hlarge].
  - apply String.eqb_eq.
    apply (JsFacts.below_by_computation
             (fun z => String.eqb (StorageRoute.fixed2 z)
                         (Js.toString (z / 100) +:+ "." +:+ twoDigits (z mod 100))) 100);
      [vm_compute; reflexivity | lia].
  - set (q := n / 100). set (r := n mod 100).
    assert (Hq : 0 < q) by (unfold q; apply Z.div_str_pos; lia).
    assert (Hr : 0 <= r < 100) by (unfold r; apply Z.mod_pos_bound; lia).
    assert (Hsplit : n = 10 * (10 * q + r / 10) + r mod 10).
    { pose proof (Z.div_mod n 100 ltac:(lia)). pose proof (Z.div_mod r 10 ltac:(lia)).
      unfold q, r in *. lia. }
    assert (Hdigits : Js.toString n = Js.toString q +:+ twoDigits r).
    { rewrite Hsplit at 1.
      pose proof (Z.mod_pos_bound r 10 ltac:(lia)).
      assert (0 <= r / 10 < 10)
        by (split; [apply Z.div_pos; lia | apply Z.div_lt_upper_bound; lia]).
      rewrite !toString_digit by lia.
      now rewrite ExportFacts.append_assoc. }
    unfold StorageRoute.fixed2.
    assert (Hlen : String.length (Js.toString n)
                   = (String.length (Js.toString q) + 2)%nat)
      by (rewrite Hdigits, JsFacts.length_append; reflexivity).
    assert (Hpad : Js.padStart 3 "0" (Js.toString n) = Js.toString n).
    { unfold Js.padStart.
      pose proof (ScenarioFacts.toString_not_empty q) as Hne.
      destruct (Js.toString q) eqn:Hsq; [contradiction|].
      destruct (Nat.leb_spec 3 (String.length (Js.toString n))); [reflexivity|].
      cbn [String.length] in Hlen. lia. }
    rewrite Hpad, Hlen.
    replace (String.length (Js.toString q) + 2 - 2)%nat
      with (String.length (Js.toString q)) by lia.
    rewrite Hdigits, substring_prefix.
    change 2%nat with (String.length (twoDigits r)) at 1.
    now rewrite substring_suffix.
Qed.

Lemma hundredths_nearest (size : Z) :
  1048576 * (2 * StorageRoute.hundredths size - 1) <= 200 * size
  < 1048576 * (2 * StorageRoute.hundredths size + 1).
Proof.
  unfold StorageRoute.hundredths.
  pose proof (Z.div_mod (200 * size + 1048576) 2097152 ltac:(lia)).
  pose proof (Z.mod_pos_bound (200 * size + 1048576) 2097152 ltac:(lia)).
  lia.
Qed.

End DigitsFacts.

(** The storage route writes the size in units of 1024 * 1024 bytes with
    two decimals: [totalSizeMB] is the decimal notation of the integer part
    of [h / 100], a point, and the two digits of [h mod 100], where [h] is
    the number of hundredths nearest to the total (a half counts upwards). *)
Theorem storage_size_is_written_in_mebibytes sreq w console resp usage :
  fst (StorageRoute.GET sreq w console) = Ok resp ->
  StorageRoute.payload resp = StorageRoute.Info usage ->
  0 <= StorageRoute.totalSize usage ->
  exists h,
    1048576 * (2 * h - 1) <= 200 * StorageRoute.totalSize usage < 1048576 * (2 * h + 1)
    /\ StorageRoute.totalSizeMB usage
       = Js.toString (h / 100) +:+ "." +:+ Props.twoDigits (h mod 100).
Proof.
  unfold StorageRoute.GET, try_catch, bind, await, modify, ret.
  destruct (StorageRoute.session sreq) as [[viewer|]|err]; cbn;
    [|intros [= <-]; discriminate..].
  destruct (StorageRoute.config_query sreq) as [config|err]; cbn;
    [|intros [= <-]; discriminate].
  destruct (StorageRoute.recordings_query sreq) as [[]|err]; cbn;
    [|intros [= <-]; discriminate].
  intros [= <-] [= <-]. cbn [StorageRoute.totalSize StorageRoute.totalSizeMB].
  intros Hsize. exists (StorageRoute.hundredths (StorageRoute.sumSizes
                                                  (StorageRoute.userRecordings viewer w))).
  split; [apply DigitsFacts.hundredths_nearest|].
  unfold StorageRoute.toFixed2MB.
  destruct (Z.ltb_spec (StorageRoute.sumSizes (StorageRoute.userRecordings viewer w)) 0);
    [lia|].
  apply DigitsFacts.fixed2_digits.
  unfold StorageRoute.hundredths. apply Z.div_pos; lia.
Qed.

(** One recording of 123456789 bytes: 117.74. *)
Lemma storage_size_is_written_in_mebibytes_witness :
  exists h,
    1048576 * (2 * h - 1) <= 200 * 123456789 < 1048576 * (2 * h + 1)
    /\ StorageRoute.toFixed2MB 123456789
       = Js.toString (h / 100) +:+ "." +:+ Props.twoDigits (h mod 100).
Proof.
  assert (Hsize : 0 <= 123456789) by lia.
  apply (storage_size_is_written_in_mebibytes (Sample.storageRequest "u1")
           (with_recordings [Sample.sized 123456789] Sample.w0) []
           _ _ eq_refl eq_refl Hsize).
Defined.

(** * Beyond the claims: the loop and the route that starts it *)

(** The promise of [pollTelegramUpdates()] is never rejected, whatever the
    requests, the database and the storage answer and however far the loop
    has got: every failure is caught inside the loop.  So the callback that
    the route attaches to the promise never runs, and the flag
    [isPollingStarted], once set, is never cleared. *)
Theorem polling_loop_survives_every_failure cfg script w p :
  fst (Bot.pollTelegramUpdates cfg script w) = Ok tt
  /\ PollRoute.step cfg (PollRoute.Background script w) p = ([], p).
Proof.
  split; [apply BotFacts.pollTelegramUpdates_ok | apply PollRouteFacts.background_step].
Qed.
